(** * Laudiolin backend: the websocket gateway ([features/gateway.ts])

    A shallow embedding of the gateway's shared state and of the methods of
    [Client], followed by the properties of the gateway that the
    specification states about them.

    Conventions of the embedding.
    - A [Client] object is identified by the id of its socket ([ws.id], a
      random UUID drawn when the connection is accepted); object references
      ([listeningWith], the elements of [users[userId]]) are these ids, and
      the objects themselves live in the [objects] store of the [World].
      An object stays in the store after it left the [clients] registry, as
      a JavaScript object stays alive while something still refers to it.
    - [Date.now()] is the argument [now] of every operation: one handler
      invocation reads one clock value.
    - Every call that leaves the process (a frame written to a socket, a
      socket closed, a presence pushed to Discord, a message handler of
      [messages/*] invoked) is appended to the [effects] of the world, in
      program order.  Calls to the logger are left out.
    - An [async] method is embedded as one uninterrupted state transformer:
      the awaited collaborators (the user directory, the presence publisher)
      answer at once.  The callbacks deferred with [setTimeout] are kept in
      the [timers] queue of the world and run as events of their own.
    - A method takes the id of [this].  On an id that has no object in the
      store, which no state of the program has, a method returns the world
      as it is (or no world, where the method can fail).
    - The modules [app/constants], [features/database], [features/discord]
      and [messages/*] are outside the source tree: the constants and the
      handlers are parameters, the user directory is a finite map, and the
      presence publisher is an effect.  [updateOnlineStatus], which only
      those handlers call, is embedded after the observations.
    - The helpers of [app/utils] that compute on lists and strings are
      embedded in the module [Utils]; a call of [Math.random] is a draw of
      a source of draws. *)

From Stdlib Require Import ZArith.
From stdpp Require Import base option list strings gmap fin_maps fin_sets.

Local Open Scope string_scope.
Local Open Scope list_scope.
Local Open Scope Z_scope.

(** ** Data of [app/types] read by the gateway *)

Module Track.
Record t := mk {
  id : string;
  title : string;
  artist : string;
  icon : string;
  url : string;
  duration : Z
}.
End Track.

Module User.
(** The fields of the persisted user record that the gateway reads. *)
Record t := mk {
  userId : string;
  username : string;
  discriminator : string;
  avatar : string;
  accessToken : string;
  presenceToken : option string;
  recentlyPlayed : option (list Track.t)
}.

Definition set_recentlyPlayed (l : list Track.t) (u : t) : t :=
  mk (userId u) (username u) (discriminator u) (avatar u)
     (accessToken u) (presenceToken u) (Some l).
End User.

Module OnlineUser.
Record t := mk {
  socialStatus : string;
  username : string;
  discriminator : string;
  userId : string;
  avatar : string;
  progress : Z;
  listeningTo : option Track.t
}.
End OnlineUser.

Module OfflineUser.
Record t := mk {
  socialStatus : string;
  username : string;
  discriminator : string;
  userId : string;
  avatar : string;
  lastSeen : Z;
  lastListeningTo : option Track.t
}.
End OfflineUser.

Module Presence.
Inductive PresenceType := Playing | Listening.

Record t := mk {
  platform : string;
  id : string;
  name : string;
  type : PresenceType;
  application_id : string;
  details : string;
  state : string;
  timestamps : option Z * Z;
  large_image : string;
  large_text : string;
  small_image : string;
  small_text : string;
  buttons : list (string * string);
  session_id : option string;
  party : option string;
  flags : option Z
}.
End Presence.

(** ** Frames *)

(** What the server writes to a socket. *)
Inductive Body :=
| SyncMessage (track : option Track.t) (progress : Z) (paused : bool)
              (seek : option bool)
| RecentsMessage (recents : list Track.t)
| FetchRequest
| Constant (text : string).

Record Frame := mkFrame {
  body : Body;
  timestamp : option Z
}.

(** What a client writes, once decoded, when the decoded value is not
    [null]: its [type] as the comparison with ["initialize"] and the lookup
    in [handlers] read it, that is the property as a string (["undefined"]
    for a value without one); the fields of the handshake; every other
    field kept as text. *)
Module GatewayMessage.
Record t := mk {
  type : string;
  token : string;
  broadcast : option string;
  presence : option string;
  fields : list (string * string)
}.
End GatewayMessage.

(** The argument of the ['message'] event: text that [isJson] accepts, or
    text that it does not.  Accepted text decodes to a value whose
    properties can be read, or to [null] (the text [null] is valid JSON),
    whose properties cannot. *)
Inductive Data :=
| Json (json : GatewayMessage.t)
| Null
| NotJson (text : string).

(** ** [app/constants] *)

(** The module is outside this source tree; the gateway uses it as a record
    of strings and of thunks that build message objects, which may read the
    clock. *)
Record Constants := mkConstants {
  DISCORD_TOKEN : string;
  DISCORD_CLIENT_ID : string;
  DISCORD_ICON : string;
  WEB_TARGET : string;
  CUSTOM_LISTENING : bool;
  GATEWAY_INIT : Z → Frame;
  GATEWAY_PING : Z → Z → Frame;
  GATEWAY_NOT_INITIALIZED : Z → Frame;
  GATEWAY_INVALID_TOKEN : Z → Frame;
  GATEWAY_UNKNOWN_MESSAGE : Z → Frame;
  INVALID_JSON : Z → Frame;
  SUCCESS : Z → Frame → Frame
}.

(** ** The [Client] object *)

Record Client := mkClient {
  hasInitialized : bool;
  userId : option string;
  lastPing : Z;
  startedListening : option Z;
  listeningTo : option Track.t;
  paused : bool;
  progress : Z;
  volume : Z;
  socialStatus : string;
  presenceMode : string;
  listeningAlong : list string;
  listeningWith : option string;
  lastUpdate : Z
}.

(** [new Client(ws)]: the field initialisers. *)
Definition newClient (now : Z) : Client :=
  {| hasInitialized := false; userId := None; lastPing := now;
     startedListening := None; listeningTo := None; paused := true;
     progress := 0; volume := 1;
     socialStatus := "Nobody"; presenceMode := "None";
     listeningAlong := []; listeningWith := None; lastUpdate := now |}.

Definition set_hasInitialized (b : bool) (c : Client) : Client :=
  mkClient b (userId c) (lastPing c) (startedListening c) (listeningTo c)
    (paused c) (progress c) (volume c) (socialStatus c) (presenceMode c)
    (listeningAlong c) (listeningWith c) (lastUpdate c).

Definition set_userId (u : option string) (c : Client) : Client :=
  mkClient (hasInitialized c) u (lastPing c) (startedListening c)
    (listeningTo c) (paused c) (progress c) (volume c) (socialStatus c)
    (presenceMode c) (listeningAlong c) (listeningWith c) (lastUpdate c).

Definition set_socialStatus (s : string) (c : Client) : Client :=
  mkClient (hasInitialized c) (userId c) (lastPing c) (startedListening c)
    (listeningTo c) (paused c) (progress c) (volume c) s
    (presenceMode c) (listeningAlong c) (listeningWith c) (lastUpdate c).

Definition set_presenceMode (s : string) (c : Client) : Client :=
  mkClient (hasInitialized c) (userId c) (lastPing c) (startedListening c)
    (listeningTo c) (paused c) (progress c) (volume c) (socialStatus c)
    s (listeningAlong c) (listeningWith c) (lastUpdate c).

Definition set_listeningAlong (l : list string) (c : Client) : Client :=
  mkClient (hasInitialized c) (userId c) (lastPing c) (startedListening c)
    (listeningTo c) (paused c) (progress c) (volume c) (socialStatus c)
    (presenceMode c) l (listeningWith c) (lastUpdate c).

Definition set_listeningWith (h : option string) (c : Client) : Client :=
  mkClient (hasInitialized c) (userId c) (lastPing c) (startedListening c)
    (listeningTo c) (paused c) (progress c) (volume c) (socialStatus c)
    (presenceMode c) (listeningAlong c) h (lastUpdate c).

Definition set_lastUpdate (t : Z) (c : Client) : Client :=
  mkClient (hasInitialized c) (userId c) (lastPing c) (startedListening c)
    (listeningTo c) (paused c) (progress c) (volume c) (socialStatus c)
    (presenceMode c) (listeningAlong c) (listeningWith c) t.

(** The object [listeningAlong] is used as a set of clients keyed by their
    id; the value under a key is always the client of that id, and, the
    keys being UUIDs and never array indices, [Object.values] lists the
    entries in the order the keys were first written.  It is embedded as
    the list of its keys in that order. *)
Definition objSet (k : string) (l : list string) : list string :=
  if decide (k ∈ l) then l else l ++ [k].

Definition objDelete (k : string) (l : list string) : list string :=
  filter (λ x, x ≠ k) l.

(** ** Effects and the shared state *)

(** First argument of [updatePresence] of [features/discord]: the method
    [Client.updatePresence] passes the user record, [handleClose] passes the
    user id of the client (possibly [null]). *)
Inductive Subject :=
| ByUser (user : User.t)
| ById (userId : option string).

Inductive Effect :=
| Send (socket : string) (data : Frame)
| SocketClose (socket : string) (code : option Z)
| Publish (subject : Subject) (presence : option Presence.t)
| Handle (handler : string) (client : string) (json : GatewayMessage.t)
| Throw (error : string).

(** The callbacks that [initialized] hands to [setTimeout]. *)
Inductive Callback :=
| AsBot (client : string)
| AsUser (client : string) (token : string)
         (broadcast presence : option string).

Record World := mkWorld {
  hasBot : bool;
  clients : gset string;
  users : gmap string (list string);
  onlineUsers : gmap string OnlineUser.t;
  recentUsers : gmap string OfflineUser.t;
  objects : gmap string Client;
  directory : gmap string User.t;
  timers : list (Z * Callback);
  effects : list Effect
}.

(** The world the process starts in, with the user directory it finds. *)
Definition start (db : gmap string User.t) : World :=
  mkWorld false ∅ ∅ ∅ ∅ ∅ db [] [].

Definition set_hasBot (b : bool) (w : World) : World :=
  mkWorld b (clients w) (users w) (onlineUsers w) (recentUsers w)
    (objects w) (directory w) (timers w) (effects w).

Definition set_clients (s : gset string) (w : World) : World :=
  mkWorld (hasBot w) s (users w) (onlineUsers w) (recentUsers w)
    (objects w) (directory w) (timers w) (effects w).

Definition set_users (m : gmap string (list string)) (w : World) : World :=
  mkWorld (hasBot w) (clients w) m (onlineUsers w) (recentUsers w)
    (objects w) (directory w) (timers w) (effects w).

Definition set_onlineUsers (m : gmap string OnlineUser.t) (w : World) : World :=
  mkWorld (hasBot w) (clients w) (users w) m (recentUsers w)
    (objects w) (directory w) (timers w) (effects w).

Definition set_recentUsers (m : gmap string OfflineUser.t) (w : World) : World :=
  mkWorld (hasBot w) (clients w) (users w) (onlineUsers w) m
    (objects w) (directory w) (timers w) (effects w).

Definition set_objects (m : gmap string Client) (w : World) : World :=
  mkWorld (hasBot w) (clients w) (users w) (onlineUsers w) (recentUsers w)
    m (directory w) (timers w) (effects w).

Definition set_directory (m : gmap string User.t) (w : World) : World :=
  mkWorld (hasBot w) (clients w) (users w) (onlineUsers w) (recentUsers w)
    (objects w) m (timers w) (effects w).

Definition set_timers (l : list (Z * Callback)) (w : World) : World :=
  mkWorld (hasBot w) (clients w) (users w) (onlineUsers w) (recentUsers w)
    (objects w) (directory w) l (effects w).

Definition set_effects (l : list Effect) (w : World) : World :=
  mkWorld (hasBot w) (clients w) (users w) (onlineUsers w) (recentUsers w)
    (objects w) (directory w) (timers w) l.

(** A field assignment on the object [this]. *)
Definition assign (this : string) (f : Client → Client) (w : World) : World :=
  set_objects (alter f this (objects w)) w.

Definition effect (e : Effect) (w : World) : World :=
  set_effects (effects w ++ [e]) w.

(** Truthiness of a string and of a nullable string. *)
Definition truthy (s : string) : bool := negb (String.eqb s "").

Definition truthy_opt (s : option string) : bool :=
  match s with Some s => truthy s | None => false end.

(** [Array.prototype.indexOf] on an array of references, [-1] when absent. *)
Fixpoint indexOf (x : string) (l : list string) : Z :=
  match l with
  | [] => -1
  | y :: l' =>
      if String.eqb y x then 0
      else let i := indexOf x l' in if i <? 0 then -1 else i + 1
  end.

(** [l.splice(start, 1)]: a negative [start] counts from the end of the
    array, and is clamped to its bounds. *)
Definition splice1 {A} (start : Z) (l : list A) : list A :=
  let len := Z.of_nat (length l) in
  let from := if start <? 0 then Z.max (len + start) 0 else Z.min start len in
  take (Z.to_nat from) l ++ drop (S (Z.to_nat from)) l.

(** The own properties of [Object.prototype], which a lookup in a plain
    object such as [handlers] or [users] also finds: functions, and for
    [__proto__] the prototype itself; all are truthy and none is
    iterable. *)
Definition objectPrototype : list string :=
  [ "constructor"; "__defineGetter__"; "__defineSetter__"; "hasOwnProperty";
    "__lookupGetter__"; "__lookupSetter__"; "isPrototypeOf";
    "propertyIsEnumerable"; "toString"; "valueOf"; "__proto__";
    "toLocaleString" ].

(** The table [handlers]: message type to the module that handles it. *)
Definition handlers : list (string * string) :=
  [ ("latency", "messages/latency");
    ("seek", "messages/seek");
    ("volume", "messages/volume");
    ("listen", "messages/listen");
    ("player", "messages/player");
    ("load-users", "messages/bot/userLoad");
    ("user-update", "messages/bot/userState") ].

Fixpoint assoc (k : string) (l : list (string * string)) : option string :=
  match l with
  | [] => None
  | (k', v) :: l' => if String.eqb k' k then Some v else assoc k l'
  end.

(** ** The gateway *)

Section Gateway.

(** [import constants from "app/constants"]. *)
Variable constants : Constants.

(** [database.getUserByToken] of [features/database], as a lookup in the
    user directory. *)
Variable getUserByToken : gmap string User.t → string → option User.t.

(** The bodies of the handlers of [messages/*]: the module, the client,
    the message, the clock, the world. *)
Variable handler : string → string → GatewayMessage.t → Z → World → World.

(** *** Websocket utilities *)

(** [if (!data.timestamp) data.timestamp = Date.now()]: the assignment is
    on the object that was passed in, so the caller sees it too. *)
Definition stamp (now : Z) (data : Frame) : Frame :=
  match timestamp data with
  | Some t => if t =? 0 then mkFrame (body data) (Some now) else data
  | None => mkFrame (body data) (Some now)
  end.

Definition send (now : Z) (data : Frame) (this : string) (w : World)
  : Frame * World :=
  (stamp now data, effect (Send this (stamp now data)) w).

Definition disconnect (code : option Z) (this : string) (w : World) : World :=
  effect (SocketClose this code) w.

(** *** Collaborators *)

(** Modelled from the spec: [database.getUser] and [database.updateUser]
    of [features/database], the lookup and the update of a persisted user
    record by its id; a lookup without an id finds nothing. *)
Definition database_getUser (id : option string) (w : World) : option User.t :=
  match id with
  | Some id => directory w !! id
  | None => None
  end.

Definition database_updateUser (user : User.t) (w : World) : World :=
  set_directory (<[User.userId user := user]> (directory w)) w.

Definition getUser (this : string) (w : World) : option User.t :=
  match objects w !! this with
  | Some c => database_getUser (userId c) w
  | None => None
  end.

Definition isLoggedIn (this : string) (w : World) : bool :=
  match objects w !! this with
  | Some c => bool_decide (is_Some (userId c))
  | None => false
  end.

(** [users[userId] || null]: the sessions of the entry, or, without an
    entry, for an id that names a property of [Object.prototype], that
    property. *)
Definition getUserById (id : string) (w : World)
  : option (list string + string) :=
  match users w !! id with
  | Some cs => Some (inl cs)
  | None => if bool_decide (id ∈ objectPrototype) then Some (inr id) else None
  end.

(** *** Broadcast *)

Fixpoint sendEach (now : Z) (payload : Frame) (cs : list string) (w : World)
  : World :=
  match cs with
  | [] => w
  | client :: cs' =>
      let '(payload', w') := send now payload client w in
      sendEach now payload' cs' w'
  end.

(** [users[userId]] reads a plain object: without an entry of its own, an
    id that names a property of [Object.prototype] finds that property,
    which passes the test [!clients] and cannot be iterated. *)
Definition broadcast (now : Z) (id : string) (payload : Frame) (w : World)
  : World :=
  match users w !! id with
  | None =>
      if bool_decide (id ∈ objectPrototype)
      then effect (Throw "TypeError: clients is not iterable") w
      else w
  | Some cs => sendEach now payload cs w
  end.

(** *** Social utilities *)

Definition syncWith (now : Z) (seek : bool) (this : string) (w : World)
  : World :=
  match objects w !! this with
  | None => w
  | Some c =>
      match listeningWith c with
      | None => w
      | Some h =>
          match objects w !! h with
          | None => w
          | Some hc =>
              snd (send now
                     (mkFrame (SyncMessage (listeningTo hc) (progress hc)
                                 (paused hc) (Some seek)) None)
                     this w)
          end
      end
  end.

Definition listenAlong (now : Z) (client this : string) (w : World) : World :=
  let w1 := assign client
              (λ c, set_listeningAlong (objSet this (listeningAlong c)) c) w in
  let w2 := assign this (set_listeningWith (Some client)) w1 in
  syncWith now true this w2.

Definition stopListeningAlong (now : Z) (host : bool) (this : string)
    (w : World) : World :=
  match objects w !! this with
  | None => w
  | Some c =>
      match listeningWith c with
      | None => w
      | Some h =>
          let w1 := assign h
                      (λ c, set_listeningAlong
                              (objDelete this (listeningAlong c)) c) w in
          let w2 := assign this (set_listeningWith None) w1 in
          if host
          then snd (send now (mkFrame (SyncMessage None (-1) true None) None)
                      this w2)
          else w2
      end
  end.

Definition updateListeners (now : Z) (this : string) (w : World) : World :=
  match objects w !! this with
  | None => w
  | Some c =>
      let listeners := listeningAlong c in
      if (length listeners <? 1)%nat then w
      else foldl (λ w listener, syncWith now true listener w) w listeners
  end.

(** *** Presence *)

Definition fullPresence (c : Client) (user : User.t) (track : Track.t)
  : Presence.t :=
  {| Presence.platform := "desktop";
     Presence.id := "laudiolin";
     Presence.name := "Laudiolin";
     Presence.type := Presence.Playing;
     Presence.application_id := DISCORD_CLIENT_ID constants;
     Presence.details := String.append "Listening to " (Track.title track);
     Presence.state := Track.artist track;
     Presence.timestamps :=
       (startedListening c,
        default 0 (startedListening c) + Track.duration track * 1000);
     Presence.large_image := Track.icon track;
     Presence.large_text := Track.title track;
     Presence.small_image := DISCORD_ICON constants;
     Presence.small_text := "Laudiolin";
     Presence.buttons :=
       [ ("Play on Laudiolin",
          String.append (WEB_TARGET constants)
            (String.append "/track/" (Track.id track)));
         ("Listen Along",
          String.append (WEB_TARGET constants)
            (String.append "/listen/" (User.userId user))) ];
     Presence.session_id := None;
     Presence.party := None;
     Presence.flags := None |}.

Definition simplePresence (track : Track.t) (p : Presence.t) : Presence.t :=
  if negb (CUSTOM_LISTENING constants) then
    {| Presence.platform := Presence.platform p;
       Presence.id := "spotify:1";
       Presence.name := "Spotify";
       Presence.type := Presence.Listening;
       Presence.application_id := Presence.application_id p;
       Presence.details := Track.title track;
       Presence.state := Presence.state p;
       Presence.timestamps := Presence.timestamps p;
       Presence.large_image := Presence.large_image p;
       Presence.large_text := "Laudiolin";
       Presence.small_image := Presence.small_image p;
       Presence.small_text := Presence.small_text p;
       Presence.buttons := Presence.buttons p;
       Presence.session_id := Some "4efa609dfa405bb70c0da334220d4a3f";
       Presence.party := Some "spotify:852697865012117544";
       Presence.flags := Some 48 |}
  else
    {| Presence.platform := Presence.platform p;
       Presence.id := Presence.id p;
       Presence.name := Presence.name p;
       Presence.type := Presence.Listening;
       Presence.application_id := Presence.application_id p;
       Presence.details := Track.title track;
       Presence.state := Presence.state p;
       Presence.timestamps := Presence.timestamps p;
       Presence.large_image := Presence.large_image p;
       Presence.large_text := Presence.large_text p;
       Presence.small_image := Presence.small_image p;
       Presence.small_text := Presence.small_text p;
       Presence.buttons := Presence.buttons p;
       Presence.session_id := Presence.session_id p;
       Presence.party := Presence.party p;
       Presence.flags := Presence.flags p |}.

Definition updatePresence (now : Z) (this : string) (w : World) : World :=
  match objects w !! this with
  | None => w
  | Some c =>
      if now - lastUpdate c <? 4000 then w
      else
        let w1 := assign this (set_lastUpdate now) w in
        match getUser this w1 with
        | None => w1
        | Some user =>
            if String.eqb (presenceMode c) "None" then
              if truthy_opt (User.presenceToken user)
              then effect (Publish (ByUser user) None) w1
              else w1
            else
              match listeningTo c with
              | None => effect (Publish (ByUser user) None) w1
              | Some track =>
                  let presence := fullPresence c user track in
                  let presence :=
                    if String.eqb (presenceMode c) "Simple"
                    then simplePresence track presence
                    else presence in
                  effect (Publish (ByUser user) (Some presence)) w1
              end
        end
  end.

(** *** Utility checks *)

(** [l.findIndex(t => t?.id == track?.id)], [-1] when no entry matches. *)
Fixpoint findIndex (track : Track.t) (l : list Track.t) : Z :=
  match l with
  | [] => -1
  | t :: l' =>
      if String.eqb (Track.id t) (Track.id track) then 0
      else let i := findIndex track l' in if i <? 0 then -1 else i + 1
  end.

(** The list that [addRecentlyPlayed] stores. *)
Definition recents (track : Track.t) (recentlyPlayed : list Track.t)
  : list Track.t :=
  let index := findIndex track recentlyPlayed in
  let recentlyPlayed :=
    if negb (index =? -1) then splice1 index recentlyPlayed
    else recentlyPlayed in
  let recentlyPlayed := track :: recentlyPlayed in
  take 9 recentlyPlayed.

(** [None] is the [TypeError] of reading [recentlyPlayed] of a user that
    the directory does not have. *)
Definition addRecentlyPlayed (now : Z) (track : Track.t) (this : string)
    (w : World) : option World :=
  match objects w !! this with
  | None => None
  | Some c =>
      match getUser this w with
      | None => None
      | Some user =>
          let recentlyPlayed := default [] (User.recentlyPlayed user) in
          let stored := recents track recentlyPlayed in
          let user := User.set_recentlyPlayed stored user in
          let w1 := database_updateUser user w in
          Some (broadcast now (default "null" (userId c))
                  (mkFrame (RecentsMessage stored) None) w1)
      end
  end.

(** [user = user ?? await this.getUser()], then the projection. *)
Definition asOnlineUser (user : option User.t) (this : string) (w : World)
  : option OnlineUser.t :=
  match objects w !! this with
  | None => None
  | Some c =>
      let user := match user with Some _ => user | None => getUser this w end in
      match user with
      | Some user =>
          Some {| OnlineUser.socialStatus := socialStatus c;
                  OnlineUser.username := User.username user;
                  OnlineUser.discriminator := User.discriminator user;
                  OnlineUser.userId := User.userId user;
                  OnlineUser.avatar := User.avatar user;
                  OnlineUser.progress := progress c;
                  OnlineUser.listeningTo := listeningTo c |}
      | None => None
      end
  end.

Definition asOfflineUser (now : Z) (user : option User.t) (this : string)
    (w : World) : option OfflineUser.t :=
  match objects w !! this with
  | None => None
  | Some c =>
      let user := match user with Some _ => user | None => getUser this w end in
      match user with
      | Some user =>
          Some {| OfflineUser.socialStatus := socialStatus c;
                  OfflineUser.username := User.username user;
                  OfflineUser.discriminator := User.discriminator user;
                  OfflineUser.userId := User.userId user;
                  OfflineUser.avatar := User.avatar user;
                  OfflineUser.lastSeen := now;
                  OfflineUser.lastListeningTo := listeningTo c |}
      | None => None
      end
  end.

Definition ping (now : Z) (this : string) (w : World) : World :=
  match objects w !! this with
  | None => w
  | Some c =>
      let latency := now - lastPing c in
      snd (send now (GATEWAY_PING constants now latency) this w)
  end.

(** *** The handshake *)

Definition setTimeout (due : Z) (cb : Callback) (w : World) : World :=
  set_timers (timers w ++ [(due, cb)]) w.

(** [initialized]: the answer, and the world it leaves. *)
Definition initialized (now : Z) (data : GatewayMessage.t) (this : string)
    (w : World) : bool * World :=
  match objects w !! this with
  | None => (false, w)
  | Some c =>
      if hasInitialized c then (true, w)
      else if negb (hasInitialized c)
              && negb (String.eqb (GatewayMessage.type data) "initialize")
      then (false, w)
      else
        let w1 := assign this (set_hasInitialized true) w in
        let w2 := ping now this w1 in
        let cb :=
          if negb (hasBot w2)
             && String.eqb (GatewayMessage.token data)
                  (DISCORD_TOKEN constants)
          then AsBot this
          else AsUser this (GatewayMessage.token data)
                 (GatewayMessage.broadcast data)
                 (GatewayMessage.presence data) in
        (true, setTimeout (now + 1000) cb w2)
  end.

(** The two callbacks that [initialized] defers by 1000 ms. *)
Definition asBot (now : Z) (this : string) (w : World) : World :=
  let w1 := assign this (set_userId (Some "bot")) w in
  let w2 := set_hasBot true w1 in
  snd (send now (SUCCESS constants now (mkFrame FetchRequest None)) this w2).

Definition asUser (now : Z) (token : string) (broadcast presence : option string)
    (this : string) (w : World) : World :=
  match getUserByToken (directory w) token with
  | Some user =>
      let id := User.userId user in
      let w1 := assign this (set_userId (Some id)) w in
      let w2 := set_users (<[id := default [] (users w1 !! id) ++ [this]]>
                             (users w1)) w1 in
      let w3 := assign this (set_socialStatus (default "Everyone" broadcast))
                  w2 in
      let w4 := assign this (set_presenceMode (default "None" presence)) w3 in
      let w5 := set_recentUsers (delete id (recentUsers w4)) w4 in
      let w6 := match asOnlineUser (Some user) this w5 with
                | Some online =>
                    set_onlineUsers (<[id := online]> (onlineUsers w5)) w5
                | None => w5
                end in
      if truthy_opt (User.presenceToken user)
      then updatePresence now this w6
      else w6
  | None =>
      let w1 := snd (send now (GATEWAY_INVALID_TOKEN constants now) this w) in
      disconnect None this w1
  end.

Definition runCallback (now : Z) (cb : Callback) (w : World) : World :=
  match cb with
  | AsBot this => asBot now this w
  | AsUser this token broadcast presence =>
      asUser now token broadcast presence this w
  end.

(** *** Event handlers *)

Definition handleMessage (now : Z) (data : Data) (this : string) (w : World)
  : World :=
  match data with
  | NotJson _ =>
      let w1 := snd (send now (INVALID_JSON constants now) this w) in
      disconnect None this w1
  | Null =>
      effect (Throw "TypeError: Cannot read properties of null (reading 'type')")
        w
  | Json json =>
      let '(ok, w1) := initialized now json this w in
      if negb ok then
        let w2 := snd (send now (GATEWAY_NOT_INITIALIZED constants now)
                         this w1) in
        disconnect None this w2
      else if String.eqb (GatewayMessage.type json) "initialize" then w1
      else
        match assoc (GatewayMessage.type json) handlers with
        | Some module =>
            handler module this json now
              (effect (Handle module this json) w1)
        | None =>
            if bool_decide (GatewayMessage.type json ∈ objectPrototype)
            then effect (Throw "TypeError: handler.default is not a function")
                   w1
            else
              let w2 := snd (send now (GATEWAY_UNKNOWN_MESSAGE constants now)
                               this w1) in
              disconnect None this w2
        end
  end.

Definition handleClose (now : Z) (this : string) (w : World) : World :=
  match objects w !! this with
  | None => w
  | Some c =>
      let w1 := if bool_decide (is_Some (listeningWith c))
                then stopListeningAlong now false this w
                else w in
      let along := match objects w1 !! this with
                   | Some c1 => listeningAlong c1
                   | None => []
                   end in
      let w2 := if (0 <? length along)%nat
                then foldl (λ w client, stopListeningAlong now true client w)
                       w1 along
                else w1 in
      let w3 := effect (Publish (ById (userId c)) None) w2 in
      let w4 := set_clients (clients w3 ∖ {[this]}) w3 in
      match userId c with
      | None => w4
      | Some id =>
          match users w4 !! id with
          | Some sessions =>
              if truthy id then
                let w5 :=
                  if bool_decide (recentUsers w4 !! id = None)
                     && bool_decide (is_Some (listeningTo c))
                  then
                    match asOfflineUser now None this w4 with
                    | Some offlineUser =>
                        set_recentUsers
                          (<[id :=
                               {| OfflineUser.socialStatus :=
                                    OfflineUser.socialStatus offlineUser;
                                  OfflineUser.username :=
                                    OfflineUser.username offlineUser;
                                  OfflineUser.discriminator :=
                                    OfflineUser.discriminator offlineUser;
                                  OfflineUser.userId :=
                                    OfflineUser.userId offlineUser;
                                  OfflineUser.avatar :=
                                    OfflineUser.avatar offlineUser;
                                  OfflineUser.lastSeen := now;
                                  OfflineUser.lastListeningTo :=
                                    listeningTo c |}]>
                             (recentUsers w4)) w4
                    | None => w4
                    end
                  else w4 in
                let w6 := set_onlineUsers (delete id (onlineUsers w5)) w5 in
                if (length sessions <? 2)%nat
                then set_users (delete id (users w6)) w6
                else set_users
                       (<[id := splice1 (indexOf this sessions) sessions]>
                          (users w6)) w6
              else w4
          | None => w4
          end
      end
  end.

(** [handleConnection], with the id that [randomUUID] returned. *)
Definition handleConnection (now : Z) (id : string) (w : World) : World :=
  let w1 := set_objects (<[id := newClient now]> (objects w)) w in
  let w2 := snd (send now (GATEWAY_INIT constants now) id w1) in
  set_clients ({[id]} ∪ clients w2) w2.

(** *** The event loop *)

Inductive Event :=
| Connection (id : string)
| Message (id : string) (data : Data)
| Close (id : string)
| Timeout.

(** One turn of the event loop at clock value [now].  A timer runs when
    it is the oldest one pending and is due. *)
Definition turn (w : World) (e : Z * Event) : World :=
  let '(now, e) := e in
  match e with
  | Connection id => handleConnection now id w
  | Message id data => handleMessage now data id w
  | Close id => handleClose now id w
  | Timeout =>
      match timers w with
      | (due, cb) :: rest =>
          if due <=? now then runCallback now cb (set_timers rest w) else w
      | [] => w
      end
  end.

Definition run (es : list (Z * Event)) (w : World) : World :=
  foldl turn w es.

End Gateway.

Arguments send now data this w /.
Arguments disconnect code this w /.

(** ** Observations on a world *)

(** The frames written to one socket, oldest first. *)
Fixpoint sentTo (socket : string) (es : list Effect) : list Frame :=
  match es with
  | [] => []
  | Send s data :: es' =>
      if String.eqb s socket then data :: sentTo socket es'
      else sentTo socket es'
  | _ :: es' => sentTo socket es'
  end.

(** The number of calls to the presence publisher. *)
Fixpoint pushes (es : list Effect) : nat :=
  match es with
  | [] => 0
  | Publish _ _ :: es' => S (pushes es')
  | _ :: es' => pushes es'
  end.

(** The frame that tells a follower that its host left. *)
Definition hostLeft (now : Z) : Frame :=
  mkFrame (SyncMessage None (-1) true None) (Some now).

(** [a.listeningWith == b]. *)
Definition follows (w : World) (a b : string) : Prop :=
  ∃ ac, objects w !! a = Some ac ∧ listeningWith ac = Some b.

(** [a] is in [b.listeningAlong]. *)
Definition along (w : World) (a b : string) : Prop :=
  ∃ bc, objects w !! b = Some bc ∧ a ∈ listeningAlong bc.

(** The two relations are mutual inverses: each follower is listed by its
    host, and each entry of a [listeningAlong] follows that host. *)
Definition forward (w : World) : Prop := ∀ a b, follows w a b → along w a b.
Definition backward (w : World) : Prop := ∀ a b, along w a b → follows w a b.
Definition inverse (w : World) : Prop := forward w ∧ backward w.

(** What [stopListeningAlong] and [listenAlong] do to the client [x]. *)
Definition stopped (this h x : string) (c : Client) : Client :=
  set_listeningWith (if decide (x = this) then None else listeningWith c)
    (set_listeningAlong
       (if decide (x = h) then objDelete this (listeningAlong c)
        else listeningAlong c) c).

Definition joined (this client x : string) (c : Client) : Client :=
  set_listeningWith
    (if decide (x = this) then Some client else listeningWith c)
    (set_listeningAlong
       (if decide (x = client) then objSet this (listeningAlong c)
        else listeningAlong c) c).

(** The client has a host. *)
Definition attached (w : World) (a : string) : bool :=
  match objects w !! a with
  | Some ac => bool_decide (is_Some (listeningWith ac))
  | None => false
  end.

(** The loop of [handleClose] over the entries of [listeningAlong]. *)
Definition hostGone (now : Z) (w : World) (l : list string) : World :=
  foldl (λ w client, stopListeningAlong now true client w) w l.

(** The listen-along part of [handleClose]: the client leaves its host, then
    every entry of its [listeningAlong] is told that the host left. *)
Definition unlink (now : Z) (this : string) (c : Client) (w : World) : World :=
  let w1 := if bool_decide (is_Some (listeningWith c))
            then stopListeningAlong now false this w
            else w in
  let along := match objects w1 !! this with
               | Some c1 => listeningAlong c1
               | None => []
               end in
  hostGone now w1 along.

(** The shared state apart from the objects and the effects. *)
Definition registries (w : World) :=
  (hasBot w, clients w, users w, onlineUsers w, recentUsers w,
   directory w, timers w).

(** Two states of one client that differ at most in its listen-along
    fields. *)
Definition sameButListening (c c' : Client) : Prop :=
  c' = set_listeningWith (listeningWith c')
         (set_listeningAlong (listeningAlong c') c).

(** A session is active for a user when it is registered, and its handshake
    resolved to that user. *)
Definition active (w : World) (s u : string) : Prop :=
  s ∈ clients w ∧ ∃ c, objects w !! s = Some c ∧ userId c = Some u.

(** The online directory as the specification states it: an entry exactly
    for the users with an active session. *)
Definition onlineExactly (w : World) : Prop :=
  ∀ u, is_Some (onlineUsers w !! u) ↔ ∃ s, active w s u.

(** What the gateway maintains instead: an entry only for users that the
    user index knows. *)
Definition onlineIndexed (w : World) : Prop :=
  ∀ u, is_Some (onlineUsers w !! u) → is_Some (users w !! u).

(** No user is in the online and in the recent directory. *)
Definition exclusive (w : World) : Prop :=
  ∀ u, is_Some (onlineUsers w !! u) → recentUsers w !! u = None.

(** The recent directory as the specification states it: the close of a
    session creates an entry only when no session of the user stays
    active. *)
Definition recentOnLastClose (now : Z) (this : string) (w : World) : Prop :=
  ∀ u, recentUsers w !! u = None →
       is_Some (recentUsers (handleClose now this w) !! u) →
       ¬ ∃ s, active (handleClose now this w) s u.

(** The bot identity as the specification states it: at most one session
    has it. *)
Definition oneBot (w : World) : Prop :=
  ∀ s s' c c',
    objects w !! s = Some c → objects w !! s' = Some c' →
    userId c = Some "bot" → userId c' = Some "bot" → s = s'.

(** The entry that [handleClose] writes to the recent directory. *)
Definition recentEntry (now : Z) (c : Client) (user : User.t) : OfflineUser.t :=
  {| OfflineUser.socialStatus := socialStatus c;
     OfflineUser.username := User.username user;
     OfflineUser.discriminator := User.discriminator user;
     OfflineUser.userId := User.userId user;
     OfflineUser.avatar := User.avatar user;
     OfflineUser.lastSeen := now;
     OfflineUser.lastListeningTo := listeningTo c |}.

(** The recently-played list as the specification states it after
    [addRecentlyPlayed]. *)
Definition freshRecents (track : Track.t) (stored : list Track.t) : Prop :=
  stored !! 0%nat = Some track
  ∧ (∀ i t, stored !! S i = Some t → Track.id t ≠ Track.id track)
  ∧ (length stored ≤ 9)%nat.

(** The number of entries of a list that carry the id of [track]. *)
Definition occurrences (track : Track.t) (l : list Track.t) : nat :=
  length (filter (λ t, Track.id t = Track.id track) l).

(** Modelled from the spec: a playback-changing event.  The handlers of
    [messages/*] are outside this source tree; as the specification has it,
    such a handler does its work on the world, which is neither a call of
    the presence publisher nor a change of the time of the last presence
    push of the session, and then attempts a push with [updatePresence]. *)
Definition presenceNeutral (this : string) (work : World → World) : Prop :=
  ∀ w,
    pushes (effects (work w)) = pushes (effects w)
    ∧ ∀ c', objects (work w) !! this = Some c' →
            ∃ c, objects w !! this = Some c ∧ lastUpdate c' = lastUpdate c.

Definition playback (constants : Constants) (this : string) (w : World)
    (e : Z * (World → World)) : World :=
  updatePresence constants e.1 this (e.2 w).

(** A list without its first entry of the id of [track]. *)
Fixpoint removeFirst (track : Track.t) (l : list Track.t) : list Track.t :=
  match l with
  | [] => []
  | t :: l' =>
      if String.eqb (Track.id t) (Track.id track) then l'
      else t :: removeFirst track l'
  end.

(** The two listening relations, checked on the objects of a world. *)
Definition forwardb (w : World) : bool :=
  forallb
    (λ kv : string * Client,
       match listeningWith kv.2 with
       | Some b =>
           match objects w !! b with
           | Some bc => bool_decide (kv.1 ∈ listeningAlong bc)
           | None => false
           end
       | None => true
       end)
    (map_to_list (objects w)).

Definition backwardb (w : World) : bool :=
  forallb
    (λ kv : string * Client,
       forallb
         (λ a, match objects w !! a with
               | Some ac => bool_decide (listeningWith ac = Some kv.1)
               | None => false
               end)
         (listeningAlong kv.2))
    (map_to_list (objects w)).

(** ** A concrete gateway *)

Module Demo.

Definition frame (text : string) : Frame := mkFrame (Constant text) None.

Definition constants : Constants :=
  {| DISCORD_TOKEN := "bot-secret";
     DISCORD_CLIENT_ID := "1";
     DISCORD_ICON := "icon";
     WEB_TARGET := "https://laudiolin";
     CUSTOM_LISTENING := false;
     GATEWAY_INIT := λ _, frame "init";
     GATEWAY_PING := λ _ _, frame "ping";
     GATEWAY_NOT_INITIALIZED := λ _, frame "not-initialized";
     GATEWAY_INVALID_TOKEN := λ _, frame "invalid-token";
     GATEWAY_UNKNOWN_MESSAGE := λ _, frame "unknown-message";
     INVALID_JSON := λ _, frame "invalid-json";
     SUCCESS := λ _ data, data |}.

(** The directory finds a user by the access token of its record. *)
Definition getUserByToken (db : gmap string User.t) (token : string)
  : option User.t :=
  snd <$> head (filter (λ kv, User.accessToken kv.2 = token)
                  (map_to_list db)).

(** Handlers that leave the world as it is. *)
Definition handler (module client : string) (json : GatewayMessage.t)
    (now : Z) (w : World) : World := w.

Definition song : Track.t :=
  Track.mk "t1" "Song" "Artist" "cover" "https://song" 180.

Definition other : Track.t :=
  Track.mk "t2" "Other" "Artist" "cover" "https://other" 200.

Definition alice : User.t :=
  User.mk "alice" "Alice" "0001" "avatar" "T1" None None.

Definition db : gmap string User.t := {[ "alice" := alice ]}.

Definition hello (token : string) : Data :=
  Json (GatewayMessage.mk "initialize" token None None []).

Definition steps (es : list (Z * Event)) (w : World) : World :=
  run constants getUserByToken handler es w.

(** Two devices of one user, both past the handshake. *)
Definition twoDevices : World :=
  steps [ (0, Connection "a"); (1, Connection "b");
          (5, Message "a" (hello "T1")); (6, Message "b" (hello "T1"));
          (1005, Timeout); (1006, Timeout) ] (start db).

(** What a player frame leaves on the client: the track, when it started,
    and that it is not paused. *)
Definition playing (track : Track.t) (c : Client) : Client :=
  mkClient (hasInitialized c) (userId c) (lastPing c) (Some 2000)
    (Some track) false (progress c) (volume c) (socialStatus c)
    (presenceMode c) (listeningAlong c) (listeningWith c) (lastUpdate c).

(** The two devices, after device [a] reported the track it plays. *)
Definition twoDevicesPlaying : World :=
  assign "a" (playing song) twoDevices.

(** Two connections that both present the token of the bot before the
    first of the two deferred callbacks has run. *)
Definition twoBots : World :=
  steps [ (0, Connection "a"); (1, Connection "b");
          (5, Message "a" (hello "bot-secret"));
          (6, Message "b" (hello "bot-secret"));
          (1005, Timeout); (1006, Timeout) ] (start ∅).

(** Three connections; [a] listens along with [h1]. *)
Definition listening : World :=
  listenAlong 10 "h1" "a"
    (steps [ (0, Connection "a"); (1, Connection "h1");
             (2, Connection "h2") ] (start ∅)).

(** A user whose stored list holds one track twice. *)
Definition bob : User.t :=
  User.mk "bob" "Bob" "0002" "avatar" "T2" None (Some [song; song]).

Definition bobOnline : World :=
  steps [ (0, Connection "a"); (5, Message "a" (hello "T2"));
          (1005, Timeout) ] (start {[ "bob" := bob ]}).

(** One connection before its handshake. *)
Definition connected : World :=
  steps [ (0, Connection "a") ] (start db).

(** A host [h] with the followers [a] and [b]. *)
Definition party : World :=
  listenAlong 11 "h" "b"
    (listenAlong 10 "h" "a"
       (steps [ (0, Connection "a"); (1, Connection "b");
                (2, Connection "h") ] (start ∅))).

(** A user with a presence token, connected with one device. *)
Definition carol : User.t :=
  User.mk "carol" "Carol" "0003" "avatar" "T3" (Some "presence") None.

Definition carolOnline : World :=
  steps [ (0, Connection "a");
          (5, Message "a"
                (Json (GatewayMessage.mk "initialize" "T3" None
                         (Some "Full") [])));
          (1005, Timeout) ] (start {[ "carol" := carol ]}).

(** Three playback events of that device within 2000 ms. *)
Definition burst : list (Z * (World → World)) :=
  [ (5000, assign "a" (playing song));
    (6000, assign "a" (playing other));
    (7000, assign "a" (playing song)) ].

End Demo.

(** ** Further operations and observations *)

(** The two assignments at the end of [updateOnlineStatus], on the entry
    of the online directory. *)
Definition refreshed (c : Client) (sync : option Z) (online : OnlineUser.t)
  : OnlineUser.t :=
  {| OnlineUser.socialStatus := OnlineUser.socialStatus online;
     OnlineUser.username := OnlineUser.username online;
     OnlineUser.discriminator := OnlineUser.discriminator online;
     OnlineUser.userId := OnlineUser.userId online;
     OnlineUser.avatar := OnlineUser.avatar online;
     OnlineUser.progress := default (progress c) sync;
     OnlineUser.listeningTo := listeningTo c |}.

(** [updateOnlineStatus].  The key is [this.getUserId()], which as a
    property name is ["null"] for a session without a user.  When the
    directory has no entry under the key and [asOnlineUser] finds no user,
    the method stores [null] under the key: the online directory here has
    no such value, and the result is [None]. *)
Definition updateOnlineStatus (sync : option Z) (this : string) (w : World)
  : option World :=
  match objects w !! this with
  | None => Some w
  | Some c =>
      let key := default "null" (userId c) in
      let online :=
        match onlineUsers w !! key with
        | Some online => Some online
        | None => asOnlineUser None this w
        end in
      match online with
      | None => None
      | Some online =>
          Some (set_onlineUsers
                  (<[key := refreshed c sync online]> (onlineUsers w)) w)
      end
  end.

(** The callback that the first handshake frame [data] of the session
    [this] defers. *)
Definition deferred (constants : Constants) (this : string)
    (data : GatewayMessage.t) (w : World) : Callback :=
  if negb (hasBot w)
     && String.eqb (GatewayMessage.token data) (DISCORD_TOKEN constants)
  then AsBot this
  else AsUser this (GatewayMessage.token data)
         (GatewayMessage.broadcast data) (GatewayMessage.presence data).

(** The sync frame that a follower of the host [hc] is sent at [now]. *)
Definition syncFrame (now : Z) (seek : bool) (hc : Client) : Frame :=
  mkFrame (SyncMessage (listeningTo hc) (progress hc) (paused hc) (Some seek))
    (Some now).

(** A list without the first occurrence of [x]. *)
Fixpoint withoutFirst (x : string) (l : list string) : list string :=
  match l with
  | [] => []
  | y :: l' => if String.eqb y x then l' else y :: withoutFirst x l'
  end.

(** The effects that a step added to those of [w]. *)
Definition added (w w' : World) : list Effect :=
  drop (length (effects w)) (effects w').

(** Two states of one client with the same listen-along fields, and two
    worlds whose clients have the same listen-along fields. *)
Definition sameListening (c c' : Client) : Prop :=
  listeningWith c' = listeningWith c ∧ listeningAlong c' = listeningAlong c.

Definition sameLinks (w w' : World) : Prop :=
  ∀ x, option_Forall2 sameListening (objects w !! x) (objects w' !! x).

(** The id that [randomUUID] returns for a connection is not the id of an
    earlier one. *)
Definition newId (w : World) (e : Event) : Prop :=
  match e with
  | Connection id => objects w !! id = None
  | _ => True
  end.

Fixpoint newIds (step : World → Z * Event → World) (es : list (Z * Event))
    (w : World) : Prop :=
  match es with
  | [] => True
  | e :: es' => newId w e.2 ∧ newIds step es' (step w e)
  end.

(** The session that a deferred callback resolves, and the sessions with a
    handshake that is not resolved yet. *)
Definition target (cb : Callback) : string :=
  match cb with
  | AsBot client => client
  | AsUser client _ _ _ => client
  end.

Definition pending (w : World) : list string :=
  map (λ t : Z * Callback, target t.2) (timers w).

(** Every session of an index entry is logged in as the user of the entry,
    and is in the entry once. *)
Definition indexSound (w : World) : Prop :=
  ∀ id sessions s,
    users w !! id = Some sessions → s ∈ sessions →
    ∃ c, objects w !! s = Some c ∧ userId c = Some id.

Definition indexOnce (w : World) : Prop :=
  ∀ id sessions, users w !! id = Some sessions → NoDup sessions.

(** A session has at most one deferred callback; a session with one has
    initialized and has no user yet; a session that has not initialized
    has no user. *)
Definition handshakes (w : World) : Prop :=
  NoDup (pending w)
  ∧ (∀ s, s ∈ pending w →
          ∃ c, objects w !! s = Some c
               ∧ hasInitialized c = true ∧ userId c = None)
  ∧ (∀ s c, objects w !! s = Some c →
            hasInitialized c = false → userId c = None).

Definition consistent (w : World) : Prop :=
  indexSound w ∧ indexOnce w ∧ handshakes w.

(** ** [app/utils] *)

Module Utils.

Section Random.

(** [Math.floor(Math.random() * n)] at the [k]-th call of [Math.random]. *)
Variable pick : nat → nat → nat.

(** [[array[i], array[j]] = [array[j], array[i]]]: both elements are read,
    then index [i] and index [j] are written, in that order.  A write
    outside the array would leave a sparse array, which a list is not:
    there is no result then. *)
Definition swap {A} (i j : nat) (array : list A) : option (list A) :=
  match array !! i, array !! j with
  | Some x, Some y => Some (<[j := x]> (<[i := y]> array))
  | _, _ => None
  end.

(** The loop of [shuffle], entered with [k] draws made so far. *)
Fixpoint shuffleFrom {A} (k currentIndex : nat) (array : list A)
  : option (list A) :=
  match currentIndex with
  | O => Some array
  | S currentIndex' =>
      let randomIndex := pick k currentIndex in
      match swap currentIndex' randomIndex array with
      | Some array' => shuffleFrom (S k) currentIndex' array'
      | None => None
      end
  end.

Definition shuffle {A} (array : list A) : option (list A) :=
  shuffleFrom 0 (length array) array.

Definition alphabet : string :=
  "ABCDEFGHIJKLMNOPQRSTUVWXYZabcdefghijklmnopqrstuvwxyz0123456789".

(** [s.charAt(i)]: the empty string outside the string. *)
Definition charAt (s : string) (i : nat) : string :=
  match String.get i s with
  | Some c => String c EmptyString
  | None => EmptyString
  end.

(** The loop of [randomString] with [n] rounds to go and [k] draws made. *)
Fixpoint randomFrom (k n : nat) (characters result : string) : string :=
  match n with
  | O => result
  | S n' =>
      randomFrom (S k) n' characters
        (String.append result
           (charAt characters (pick k (String.length characters))))
  end.

(** [length] is a whole number; the loop does not run for one below 1. *)
Definition randomString (length : Z) (charset : option string) : string :=
  let characters := default alphabet charset in
  randomFrom 0 (Z.to_nat length) characters EmptyString.

End Random.

(** [s] without its prefix [p], when it starts with [p]. *)
Fixpoint dropPrefix (p s : string) : option string :=
  match p, s with
  | EmptyString, _ => Some s
  | String a p', String b s' =>
      if Ascii.eqb a b then dropPrefix p' s' else None
  | String _ _, EmptyString => None
  end.

(** The text before and the text after the first occurrence of [sep]. *)
Fixpoint cut (sep s : string) : option (string * string) :=
  match dropPrefix sep s with
  | Some rest => Some (EmptyString, rest)
  | None =>
      match s with
      | EmptyString => None
      | String c s' =>
          match cut sep s' with
          | Some (before, rest) => Some (String c before, rest)
          | None => None
          end
      end
  end.

(** [s.includes(sub)]. *)
Definition includes (sub s : string) : bool :=
  match cut sub s with Some _ => true | None => false end.

(** [s.split(sep)[1]] for a separator that is not empty: the text between
    the first and the second occurrence of [sep], and [undefined] when
    [sep] does not occur. *)
Definition second (sep s : string) : option string :=
  match cut sep s with
  | Some (_, rest) =>
      Some (match cut sep rest with
            | Some (piece, _) => piece
            | None => rest
            end)
  | None => None
  end.

Inductive SearchEngine := YouTube | Spotify | SoundCloud.

Definition identifyId (id : string) : option SearchEngine :=
  match String.length id with
  | 11%nat => Some YouTube
  | 12%nat => Some Spotify
  | 22%nat => Some Spotify
  | _ => None
  end.

Definition identifyUrl (url : string) : option SearchEngine :=
  if includes "https://youtu.be" url
     || includes "https://youtube.com" url
     || includes "https://www.youtube.com" url then Some YouTube
  else if includes "https://open.spotify.com" url then Some Spotify
  else if includes "https://soundcloud.com" url then Some SoundCloud
  else None.

(** The results [null] and [undefined] are both [None]. *)
Definition extractPlaylistId (url : string) : option string :=
  match identifyUrl url with
  | Some YouTube =>
      if includes "playlist?list=" url
      then second "playlist?list=" url
      else second "https://youtu.be/" url
  | Some Spotify => second "playlist/" url
  | Some SoundCloud => second "sets/" url
  | None => None
  end.

End Utils.

(** ** Further states of the concrete gateway *)

Module Scene.

(** The events that lead to [Demo.twoDevices]. *)
Definition twoLogins : list (Z * Event) :=
  [ (0, Connection "a"); (1, Connection "b");
    (5, Message "a" (Demo.hello "T1")); (6, Message "b" (Demo.hello "T1"));
    (1005, Timeout); (1006, Timeout) ].

(** One device logs in; a second one connects and sends nothing. *)
Definition oneLogin : list (Z * Event) :=
  [ (0, Connection "a"); (1, Connection "b");
    (5, Message "a" (Demo.hello "T1")); (1005, Timeout) ].

(** A handshake frame and a frame of the player. *)
Definition login (token : string) : GatewayMessage.t :=
  GatewayMessage.mk "initialize" token None None [].

Definition player : GatewayMessage.t :=
  GatewayMessage.mk "player" "" None None [].

(** A user whose id is the id that the bot callback gives to its session,
    with two devices, and the session of the bot. *)
Definition robot : User.t :=
  User.mk "bot" "Robot" "0004" "avatar" "TB" None None.

Definition botAndUser : World :=
  Demo.steps
    [ (0, Connection "a"); (1, Connection "b"); (2, Connection "x");
      (5, Message "a" (Demo.hello "TB")); (6, Message "b" (Demo.hello "TB"));
      (7, Message "x" (Demo.hello "bot-secret"));
      (1005, Timeout); (1006, Timeout); (1007, Timeout) ]
    (start {[ "bot" := robot ]}).

(** The one connection of [Demo.carolOnline] before its handshake, and that
    device after it reported the track it plays. *)
Definition carolConnected : World :=
  Demo.steps [ (0, Connection "a") ] (start {[ "carol" := Demo.carol ]}).

Definition carolPlaying : World :=
  assign "a" (Demo.playing Demo.song) Demo.carolOnline.

(** The second device of [Demo.twoDevicesPlaying] after the first one, which
    was playing, closed. *)
Definition deviceLeft : World :=
  handleClose 3000 "a" Demo.twoDevicesPlaying.

(** A source of draws. *)
Definition draw (k n : nat) : nat := ((k + 1) mod n)%nat.

(** [a], which listens along with [h1] in [Demo.listening], goes on to
    listen along with [h2]: [listenAlong] leaves [a] in the
    [listeningAlong] of [h1]. *)
Definition secondHost : World := listenAlong 20 "h2" "a" Demo.listening.

(** A session that listens along with itself. *)
Definition ownHost : World :=
  listenAlong 10 "h" "h" (Demo.steps [ (0, Connection "h") ] (start ∅)).



End Scene.

(** ** Two closes as the specification states them *)

(** The close of a host: every session in its [listeningAlong], which is
    not empty, is sent exactly one frame, the one that tells that the host
    left; afterwards none of them has a [listeningWith], and the
    [listeningAlong] of the host is empty. *)
Definition hostClosed (now : Z) (this : string) (w : World) : Prop :=
  ∀ c,
    objects w !! this = Some c →
    listeningAlong c ≠ [] →
    let w' := handleClose now this w in
    (∀ f, f ∈ listeningAlong c →
          sentTo f (effects w') = sentTo f (effects w) ++ [hostLeft now])
    ∧ (∀ f, f ∈ listeningAlong c →
            ∃ fc, objects w' !! f = Some fc ∧ listeningWith fc = None)
    ∧ (∃ c', objects w' !! this = Some c' ∧ listeningAlong c' = []).

(** The close of a session without a user id: the user index and the two
    directories are as before, the session leaves the connection registry,
    and the listening relations lose the pairs of the session, and only
    them. *)
Definition closedBeforeLogin (now : Z) (this : string) (w : World) : Prop :=
  ∀ c,
    objects w !! this = Some c →
    userId c = None →
    let w' := handleClose now this w in
    users w' = users w
    ∧ onlineUsers w' = onlineUsers w
    ∧ recentUsers w' = recentUsers w
    ∧ clients w' = clients w ∖ {[this]}
    ∧ ∀ a b,
        (follows w' a b ↔ follows w a b ∧ a ≠ this ∧ b ≠ this)
        ∧ (along w' a b ↔ along w a b ∧ a ≠ this ∧ b ≠ this).

(** * Properties *)

(** In a goal on [handleClose], names the world that its listen-along part
    leaves. *)
Ltac fold_unlink now this c w :=
  let w1 := fresh "w1" in
  let l := fresh "l" in
  set (w1 := if bool_decide _ then _ else w);
  set (l := match objects w1 !! this with Some _ => _ | None => _ end);
  assert ((if (0 <? length l)%nat
           then foldl (λ w client, stopListeningAlong now true client w) w1 l
           else w1) = unlink now this c w) as ->
    by (unfold unlink; fold w1; fold l; by destruct l).

Section Properties.

Set Default Proof Using "Type".

(** ** Frames and effects *)

Lemma stamp_stamp now data : stamp now (stamp now data) = stamp now data.
Proof.
  unfold stamp. destruct data as [b [t|]]; simpl.
  - destruct (t =? 0) eqn:Ht; simpl; [|by rewrite Ht].
    by destruct (now =? 0).
  - by destruct (now =? 0).
Qed.

Lemma sentTo_app s es es' : sentTo s (es ++ es') = sentTo s es ++ sentTo s es'.
Proof.
  induction es as [|e es IH]; [done|].
  destruct e; simpl; try done.
  destruct (String.eqb _ _); simpl; by rewrite IH.
Qed.

Lemma pushes_app es es' : (pushes (es ++ es') = pushes es + pushes es')%nat.
Proof.
  induction es as [|e es IH]; [done|].
  destruct e; simpl; by rewrite ?IH.
Qed.

Lemma sendEach_effects now payload cs w :
  sendEach now payload cs w
  = set_effects (effects w ++ map (λ c, Send c (stamp now payload)) cs) w.
Proof.
  revert payload w. induction cs as [|c cs IH]; intros payload w; simpl.
  - rewrite app_nil_r. by destruct w.
  - rewrite IH, stamp_stamp. unfold effect, set_effects. simpl.
    by rewrite <- app_assoc.
Qed.

(** ** The handshake precondition *)

Section Dispatcher.

Variable constants : Constants.
Variable handler : string → string → GatewayMessage.t → Z → World → World.

(** The not-initialized reply.  A session that has not initialized and
    receives a frame that decodes to a value other than [null], of any type
    but ["initialize"], is sent one frame, the not-initialized error, and
    then its socket is closed; nothing else happens: no handler is invoked
    and the state is as before, whatever the type and whatever the
    handlers are. *)
Theorem handleMessage_before_handshake now json this c w :
  objects w !! this = Some c →
  hasInitialized c = false →
  GatewayMessage.type json ≠ "initialize" →
  handleMessage constants handler now (Json json) this w
  = set_effects
      (effects w
       ++ [ Send this (stamp now (GATEWAY_NOT_INITIALIZED constants now));
            SocketClose this None ])
      w.
Proof.
  intros Hc Hinit Hty. unfold handleMessage, initialized.
  rewrite Hc, Hinit. simpl.
  apply String.eqb_neq in Hty. rewrite Hty. simpl.
  unfold effect, set_effects. simpl. by rewrite <- app_assoc.
Qed.

End Dispatcher.

(** ** Broadcast *)

(** [broadcast] changes the trace only. *)
Lemma broadcast_trace now id payload w :
  broadcast now id payload w
  = set_effects
      (effects w
       ++ match users w !! id with
          | Some sessions => map (λ s, Send s (stamp now payload)) sessions
          | None =>
              if bool_decide (id ∈ objectPrototype)
              then [Throw "TypeError: clients is not iterable"]
              else []
          end)
      w.
Proof.
  unfold broadcast. destruct (users w !! id) as [sessions|]; simpl.
  - apply sendEach_effects.
  - case_bool_decide; [done|]. rewrite app_nil_r. by destruct w.
Qed.


(** The three cases of [broadcast].  For a user id without an entry in the
    user index that names no property of [Object.prototype], the world is
    returned as it was: nothing is sent and nothing is thrown.  For an id
    without an entry that names such a property, the one change is the
    [TypeError] thrown by the loop.  For a user id with an entry, the one
    change is that the message, stamped, is written to the socket of every
    session of the entry, in the order of the entry. *)
Lemma broadcast_user_index now id payload w :
  match users w !! id with
  | None =>
      if bool_decide (id ∈ objectPrototype)
      then broadcast now id payload w
           = effect (Throw "TypeError: clients is not iterable") w
      else broadcast now id payload w = w
  | Some sessions =>
      broadcast now id payload w
      = set_effects
          (effects w ++ map (λ s, Send s (stamp now payload)) sessions) w
  end.
Proof.
  pose proof (broadcast_trace now id payload w) as H.
  destruct (users w !! id) as [sessions|]; [done|].
  case_bool_decide; [done|]. rewrite H, app_nil_r. by destruct w.
Qed.

(** ** Listening along *)

Lemma elem_of_objDelete x k l : x ∈ objDelete k l ↔ x ∈ l ∧ x ≠ k.
Proof. unfold objDelete. rewrite list_elem_of_filter. tauto. Qed.

Lemma elem_of_objSet x k l : x ∈ objSet k l ↔ x ∈ l ∨ x = k.
Proof.
  unfold objSet. case_decide.
  - split; [tauto|]. intros [?| ->]; done.
  - rewrite elem_of_app, list_elem_of_singleton. tauto.
Qed.

Lemma assign_lookup this f w x :
  objects (assign this f w) !! x
  = if decide (x = this) then f <$> objects w !! x else objects w !! x.
Proof.
  unfold assign. simpl. case_decide as Hx.
  - subst. apply lookup_alter_eq.
  - by apply lookup_alter_ne.
Qed.

Lemma stopListeningAlong_idle now host this w :
  (∀ c, objects w !! this = Some c → listeningWith c = None) →
  stopListeningAlong now host this w = w.
Proof.
  intros H. unfold stopListeningAlong.
  destruct (objects w !! this) as [c|]; [|done].
  by rewrite (H c eq_refl).
Qed.

Lemma stopListeningAlong_objects now host this w c h x :
  objects w !! this = Some c →
  listeningWith c = Some h →
  objects (stopListeningAlong now host this w) !! x
  = stopped this h x <$> objects w !! x.
Proof.
  intros Hc Hh. unfold stopListeningAlong. rewrite Hc, Hh.
  assert (objects
            (assign this (set_listeningWith None)
               (assign h
                  (λ c, set_listeningAlong
                          (objDelete this (listeningAlong c)) c) w)) !! x
          = stopped this h x <$> objects w !! x) as E.
  { rewrite !assign_lookup. unfold stopped.
    repeat case_decide; destruct (objects w !! x) as [[]|]; done. }
  by destruct host.
Qed.

Lemma stopListeningAlong_effects now host this w c h :
  objects w !! this = Some c →
  listeningWith c = Some h →
  effects (stopListeningAlong now host this w)
  = effects w ++ (if host then [Send this (hostLeft now)] else []).
Proof.
  intros Hc Hh. unfold stopListeningAlong. rewrite Hc, Hh.
  destruct host; simpl; [done|by rewrite app_nil_r].
Qed.

Lemma syncWith_objects now seek this w :
  objects (syncWith now seek this w) = objects w.
Proof. unfold syncWith. by repeat case_match. Qed.

Lemma listenAlong_objects now client this w x :
  objects (listenAlong now client this w) !! x
  = joined this client x <$> objects w !! x.
Proof.
  unfold listenAlong. rewrite syncWith_objects, !assign_lookup.
  unfold joined.
  repeat case_decide; destruct (objects w !! x) as [[]|]; done.
Qed.

Lemma follows_stop now host this w c h a b :
  objects w !! this = Some c →
  listeningWith c = Some h →
  follows (stopListeningAlong now host this w) a b
  ↔ a ≠ this ∧ follows w a b.
Proof.
  intros Hc Hh. unfold follows.
  setoid_rewrite (stopListeningAlong_objects now host this w c h a Hc Hh).
  split.
  - intros (ac' & Hac & Hb). apply fmap_Some in Hac as (ac & Hac & ->).
    simpl in Hb. case_decide; [done|]. eauto.
  - intros (Hne & ac & Hac & Hb). rewrite Hac. eexists. split; [done|].
    simpl. by case_decide.
Qed.

Lemma along_stop now host this w c h a b :
  objects w !! this = Some c →
  listeningWith c = Some h →
  along (stopListeningAlong now host this w) a b
  ↔ along w a b ∧ ¬ (b = h ∧ a = this).
Proof.
  intros Hc Hh. unfold along.
  setoid_rewrite (stopListeningAlong_objects now host this w c h b Hc Hh).
  split.
  - intros (bc' & Hbc & Ha). apply fmap_Some in Hbc as (bc & Hbc & ->).
    simpl in Ha. case_decide.
    + apply elem_of_objDelete in Ha as [Ha Hne]. split; [eauto|tauto].
    + split; [eauto|tauto].
  - intros ((bc & Hbc & Ha) & Hne). rewrite Hbc. eexists. split; [done|].
    simpl. case_decide; [|done]. apply elem_of_objDelete. split; [done|].
    intros ->. tauto.
Qed.

Lemma follows_join now client this w a b :
  follows (listenAlong now client this w) a b
  ↔ (a = this ∧ b = client ∧ is_Some (objects w !! this))
    ∨ (a ≠ this ∧ follows w a b).
Proof.
  unfold follows. setoid_rewrite listenAlong_objects. split.
  - intros (ac' & Hac & Hb). apply fmap_Some in Hac as (ac & Hac & ->).
    simpl in Hb. case_decide; simplify_eq; eauto 6.
  - intros [(-> & -> & [ac Hac])|(Hne & ac & Hac & Hb)]; rewrite Hac;
      (eexists; split; [done|]); simpl; by case_decide.
Qed.

Lemma along_join now client this w a b :
  along (listenAlong now client this w) a b
  ↔ along w a b ∨ (a = this ∧ b = client ∧ is_Some (objects w !! client)).
Proof.
  unfold along. setoid_rewrite listenAlong_objects. split.
  - intros (bc' & Hbc & Ha). apply fmap_Some in Hbc as (bc & Hbc & ->).
    simpl in Ha. case_decide; [|eauto].
    apply elem_of_objSet in Ha as [Ha| ->]; subst; eauto 6.
  - intros [(bc & Hbc & Ha)|(-> & -> & [bc Hbc])]; rewrite Hbc;
      (eexists; split; [done|]); simpl.
    + case_decide; [|done]. apply elem_of_objSet. by left.
    + case_decide; [|done]. apply elem_of_objSet. by right.
Qed.

Lemma stopListeningAlong_forward now host this w :
  forward w → forward (stopListeningAlong now host this w).
Proof.
  intros Hf. destruct (objects w !! this) as [c|] eqn:Hc;
    [destruct (listeningWith c) as [h|] eqn:Hh|].
  - intros a b [Hne Hab]%(follows_stop _ _ _ _ c h); [|done..].
    apply (along_stop _ _ _ _ c h); [done..|]. split; [by apply Hf|].
    intros [_ ?]. done.
  - rewrite stopListeningAlong_idle; [done|]. congruence.
  - rewrite stopListeningAlong_idle; [done|]. congruence.
Qed.

Lemma stopListeningAlong_backward now host this w :
  backward w → backward (stopListeningAlong now host this w).
Proof.
  intros Hb. destruct (objects w !! this) as [c|] eqn:Hc;
    [destruct (listeningWith c) as [h|] eqn:Hh|].
  - intros a b [Hab Hne]%(along_stop _ _ _ _ c h); [|done..].
    apply (follows_stop _ _ _ _ c h); [done..|].
    pose proof (Hb _ _ Hab) as Hfol. split; [|done].
    intros ->. destruct Hfol as (c' & Hc' & Hh'). apply Hne.
    split; [congruence|done].
  - rewrite stopListeningAlong_idle; [done|]. congruence.
  - rewrite stopListeningAlong_idle; [done|]. congruence.
Qed.

Lemma listenAlong_forward now client this w :
  is_Some (objects w !! client) →
  forward w → forward (listenAlong now client this w).
Proof.
  intros Hcl Hf a b. rewrite follows_join, along_join.
  intros [(-> & -> & _)|[_ Hab]]; [by right|]. left. by apply Hf.
Qed.

Lemma listenAlong_backward now client this w c :
  objects w !! this = Some c →
  listeningWith c = None ∨ listeningWith c = Some client →
  backward w → backward (listenAlong now client this w).
Proof.
  intros Hc Hfree Hb a b. rewrite follows_join, along_join.
  intros [Hab|(-> & -> & _)]; [|left; eauto].
  destruct (decide (a = this)) as [->|Hne]; [|right; split; [done|by apply Hb]].
  left. split; [done|]. split; [|eauto].
  destruct (Hb _ _ Hab) as (c' & Hc' & Hh'). simplify_eq.
  destruct Hfree; congruence.
Qed.

(** The two lemmas above, for any client, with or without a host. *)
Lemma follows_stopped now host this w a b :
  follows (stopListeningAlong now host this w) a b
  ↔ a ≠ this ∧ follows w a b.
Proof.
  destruct (objects w !! this) as [c|] eqn:Hc;
    [destruct (listeningWith c) as [h|] eqn:Hh|].
  - by apply (follows_stop _ _ _ _ c h).
  - rewrite stopListeningAlong_idle by congruence.
    split; [|tauto]. intros Hab. split; [|done].
    intros ->. destruct Hab as (c' & ? & ?). congruence.
  - rewrite stopListeningAlong_idle by congruence.
    split; [|tauto]. intros Hab. split; [|done].
    intros ->. destruct Hab as (c' & ? & ?). congruence.
Qed.

Lemma along_stopped now host this w a b :
  along (stopListeningAlong now host this w) a b
  ↔ along w a b ∧ ¬ (a = this ∧ follows w this b).
Proof.
  destruct (objects w !! this) as [c|] eqn:Hc;
    [destruct (listeningWith c) as [h|] eqn:Hh|].
  - rewrite (along_stop _ _ _ _ c h) by done.
    apply and_iff_compat_l, not_iff_compat. split.
    + intros [-> ->]. split; [done|]. by exists c.
    + intros [-> (c' & ? & ?)]. split; congruence.
  - rewrite stopListeningAlong_idle by congruence.
    split; [|tauto]. intros Hab. split; [done|].
    intros [_ (c' & ? & ?)]. congruence.
  - rewrite stopListeningAlong_idle by congruence.
    split; [|tauto]. intros Hab. split; [done|].
    intros [_ (c' & ? & ?)]. congruence.
Qed.

Lemma registries_eq w w' :
  registries w = registries w' →
  hasBot w = hasBot w' ∧ clients w = clients w' ∧ users w = users w'
  ∧ onlineUsers w = onlineUsers w' ∧ recentUsers w = recentUsers w'
  ∧ directory w = directory w' ∧ timers w = timers w'.
Proof. unfold registries. intros [= -> -> -> -> -> -> ->]. done. Qed.

Lemma stopListeningAlong_registries now host this w :
  registries (stopListeningAlong now host this w) = registries w.
Proof. unfold stopListeningAlong. by repeat case_match. Qed.

Lemma stopListeningAlong_sentTo now host this w x :
  sentTo x (effects (stopListeningAlong now host this w))
  = sentTo x (effects w)
    ++ (if host && attached w this && bool_decide (x = this)
        then [hostLeft now] else []).
Proof.
  unfold attached.
  destruct (objects w !! this) as [c|] eqn:Hc;
    [destruct (listeningWith c) as [h|] eqn:Hh|].
  - rewrite (stopListeningAlong_effects _ _ _ _ c h), sentTo_app by done.
    f_equal. destruct host; [|done]. simpl.
    case_bool_decide as Hx.
    + subst. by rewrite String.eqb_refl.
    + apply not_eq_sym, String.eqb_neq in Hx. by rewrite Hx.
  - rewrite stopListeningAlong_idle by congruence.
    rewrite bool_decide_false by (by intros [? ?]).
    by rewrite andb_false_r, app_nil_r.
  - rewrite stopListeningAlong_idle by congruence.
    by rewrite andb_false_r, app_nil_r.
Qed.

Lemma attached_follows w a :
  attached w a = true ↔ ∃ b, follows w a b.
Proof.
  unfold attached, follows. destruct (objects w !! a) as [c|].
  - rewrite bool_decide_eq_true. split.
    + intros [b Hb]. eauto.
    + intros (b & c' & ? & ?). simplify_eq. eauto.
  - split; [done|]. by intros (b & c' & ? & ?).
Qed.

Lemma attached_stopped now host this w x :
  attached (stopListeningAlong now host this w) x
  = attached w x && negb (bool_decide (x = this)).
Proof.
  apply eq_true_iff_eq.
  rewrite andb_true_iff, negb_true_iff, bool_decide_eq_false,
    !attached_follows.
  setoid_rewrite follows_stopped. split.
  - intros (b & ? & ?). eauto.
  - intros [[b ?] ?]. eauto.
Qed.

(** *** The loop of [handleClose] over the followers *)

Lemma hostGone_cons now f l w :
  hostGone now w (f :: l) = hostGone now (stopListeningAlong now true f w) l.
Proof. done. Qed.

Lemma hostGone_follows now l w a b :
  follows (hostGone now w l) a b ↔ (a ∉ l) ∧ follows w a b.
Proof.
  revert w. induction l as [|f l IH]; intros w; rewrite ?hostGone_cons.
  - rewrite elem_of_nil. tauto.
  - rewrite IH, follows_stopped, not_elem_of_cons. tauto.
Qed.

Lemma hostGone_along now l w a b :
  along (hostGone now w l) a b
  ↔ along w a b ∧ ¬ (a ∈ l ∧ follows w a b).
Proof.
  revert w. induction l as [|f l IH]; intros w; rewrite ?hostGone_cons.
  - rewrite elem_of_nil. tauto.
  - rewrite IH, along_stopped, follows_stopped, elem_of_cons.
    destruct (decide (a = f)) as [->|]; tauto.
Qed.

Lemma hostGone_registries now l w :
  registries (hostGone now w l) = registries w.
Proof.
  revert w. induction l as [|f l IH]; intros w; rewrite ?hostGone_cons; [done|].
  by rewrite IH, stopListeningAlong_registries.
Qed.

Lemma hostGone_sentTo now l w x :
  sentTo x (effects (hostGone now w l))
  = sentTo x (effects w)
    ++ (if attached w x && bool_decide (x ∈ l) then [hostLeft now] else []).
Proof.
  revert w. induction l as [|f l IH]; intros w; rewrite ?hostGone_cons.
  - rewrite bool_decide_false by apply not_elem_of_nil.
    by rewrite andb_false_r, app_nil_r.
  - rewrite IH, stopListeningAlong_sentTo, attached_stopped, <- app_assoc.
    f_equal. simpl. destruct (decide (x = f)) as [->|Hne].
    + rewrite (bool_decide_true (f ∈ f :: l)) by by left.
      rewrite bool_decide_true by done.
      by destruct (attached w f).
    + rewrite (bool_decide_false (x = f)) by done.
      rewrite (bool_decide_ext (x ∈ f :: l) (x ∈ l))
        by (rewrite elem_of_cons; tauto).
      by destruct (attached w f), (attached w x), (bool_decide (x ∈ l)).
Qed.

(** *** [handleClose], in its two parts *)

Lemma unlink_registries now this c w :
  registries (unlink now this c w) = registries w.
Proof.
  unfold unlink. rewrite hostGone_registries.
  case_bool_decide; [apply stopListeningAlong_registries|done].
Qed.

Lemma handleClose_unlink now this c w :
  objects w !! this = Some c →
  objects (handleClose now this w) = objects (unlink now this c w)
  ∧ effects (handleClose now this w)
    = effects (unlink now this c w) ++ [Publish (ById (userId c)) None].
Proof.
  intros Hc. unfold handleClose. rewrite Hc.
  fold_unlink now this c w.
  by repeat case_match.
Qed.

Lemma handleClose_anonymous now this c w :
  objects w !! this = Some c →
  userId c = None →
  handleClose now this w
  = set_clients (clients w ∖ {[this]})
      (effect (Publish (ById None) None) (unlink now this c w)).
Proof.
  intros Hc Hu. unfold handleClose. rewrite Hc, Hu.
  fold_unlink now this c w.
  pose proof (unlink_registries now this c w) as Hr.
  unfold registries in Hr. simplify_eq. simpl. unfold set_clients. simpl.
  congruence.
Qed.

Lemma sameButListening_refl c : sameButListening c c.
Proof. by destruct c. Qed.

Lemma sameButListening_trans c1 c2 c3 :
  sameButListening c1 c2 → sameButListening c2 c3 → sameButListening c1 c3.
Proof.
  unfold sameButListening. intros H12 H23. rewrite H23, H12.
  by destruct c1.
Qed.

Lemma same_refl (m : option Client) : option_Forall2 sameButListening m m.
Proof. destruct m; constructor. apply sameButListening_refl. Qed.

Lemma stopListeningAlong_same now host this w x :
  option_Forall2 sameButListening
    (objects w !! x) (objects (stopListeningAlong now host this w) !! x).
Proof.
  destruct (objects w !! this) as [c|] eqn:Hc;
    [destruct (listeningWith c) as [h|] eqn:Hh|].
  - rewrite (stopListeningAlong_objects _ _ _ _ c h) by done.
    destruct (objects w !! x) as [[]|]; by constructor.
  - rewrite stopListeningAlong_idle by congruence. apply same_refl.
  - rewrite stopListeningAlong_idle by congruence. apply same_refl.
Qed.

Lemma same_trans (m1 m2 m3 : option Client) :
  option_Forall2 sameButListening m1 m2 →
  option_Forall2 sameButListening m2 m3 →
  option_Forall2 sameButListening m1 m3.
Proof.
  destruct 1; inversion 1; constructor.
  by eapply sameButListening_trans.
Qed.

Lemma hostGone_same now l w x :
  option_Forall2 sameButListening
    (objects w !! x) (objects (hostGone now w l) !! x).
Proof.
  revert w. induction l as [|f l IH]; intros w; rewrite ?hostGone_cons.
  - apply same_refl.
  - eapply same_trans; [apply stopListeningAlong_same|apply IH].
Qed.

(** What the first part of [handleClose] does to the listening relations:
    the closing client stops following, and every entry of its
    [listeningAlong] stops following whatever host it has. *)
Lemma unlink_spec now this c w :
  objects w !! this = Some c →
  ∃ l : list string,
    (∀ a, a ∈ l ↔ along w a this ∧ ¬ (a = this ∧ follows w this this))
    ∧ (∀ a b, follows (unlink now this c w) a b
              ↔ (a ∉ l) ∧ a ≠ this ∧ follows w a b)
    ∧ (∀ a b, along (unlink now this c w) a b
              ↔ along w a b ∧ ¬ (a = this ∧ follows w this b)
                ∧ ¬ (a ∈ l ∧ a ≠ this ∧ follows w a b))
    ∧ (∀ x, sentTo x (effects (unlink now this c w))
            = sentTo x (effects w)
              ++ (if attached w x && negb (bool_decide (x = this))
                     && bool_decide (x ∈ l)
                  then [hostLeft now] else []))
    ∧ (∀ x, option_Forall2 sameButListening
              (objects w !! x) (objects (unlink now this c w) !! x)).
Proof.
  intros Hc. unfold unlink.
  set (w1 := if bool_decide _ then _ else w).
  assert (∀ a b, follows w1 a b ↔ a ≠ this ∧ follows w a b) as Hf1.
  { intros a b. unfold w1. case_bool_decide as Hh.
    - apply follows_stopped.
    - split; [|tauto]. intros Hab. split; [|done]. intros ->.
      destruct Hab as (c' & ? & ?). simplify_eq. apply Hh. eauto. }
  assert (∀ a b, along w1 a b
                 ↔ along w a b ∧ ¬ (a = this ∧ follows w this b)) as Ha1.
  { intros a b. unfold w1. case_bool_decide as Hh.
    - apply along_stopped.
    - split; [|tauto]. intros Hab. split; [done|].
      intros [_ (c' & ? & ?)]. simplify_eq. apply Hh. eauto. }
  assert (∀ x, sentTo x (effects w1) = sentTo x (effects w)) as Hs1.
  { intros x. unfold w1. case_bool_decide; [|done].
    by rewrite stopListeningAlong_sentTo, app_nil_r. }
  assert (∀ x, attached w1 x = attached w x && negb (bool_decide (x = this)))
    as Hat1.
  { intros x. apply eq_true_iff_eq.
    rewrite andb_true_iff, negb_true_iff, bool_decide_eq_false,
      !attached_follows.
    setoid_rewrite Hf1. split.
    - intros (b & ? & ?). eauto.
    - intros [[b ?] ?]. eauto. }
  set (l := match objects w1 !! this with Some c1 => _ | None => _ end).
  assert (∀ a, a ∈ l ↔ along w1 a this) as Hl.
  { intros a. unfold l, along. destruct (objects w1 !! this) as [c1|].
    - split; [eauto|]. by intros (? & [= <-] & ?).
    - rewrite elem_of_nil. split; [done|]. by intros (? & ? & ?). }
  exists l. split_and!.
  - intros a. by rewrite Hl, Ha1.
  - intros a b. by rewrite hostGone_follows, Hf1.
  - intros a b. rewrite hostGone_along, Ha1, Hf1. tauto.
  - intros x. by rewrite hostGone_sentTo, Hs1, Hat1.
  - intros x. eapply same_trans; [|apply hostGone_same].
    unfold w1. case_bool_decide; [apply stopListeningAlong_same|].
    apply same_refl.
Qed.

Lemma follows_ext w w' a b :
  objects w = objects w' → follows w a b ↔ follows w' a b.
Proof. unfold follows. by intros ->. Qed.

Lemma along_ext w w' a b :
  objects w = objects w' → along w a b ↔ along w' a b.
Proof. unfold along. by intros ->. Qed.

Lemma handleClose_forward now this w :
  forward w → forward (handleClose now this w).
Proof.
  intros Hf. destruct (objects w !! this) as [c|] eqn:Hc;
    [|by unfold handleClose; rewrite Hc].
  destruct (handleClose_unlink now this c w Hc) as [Hobj _].
  destruct (unlink_spec now this c w Hc) as (l & Hl & Hfol & Hal & _).
  intros a b. rewrite (follows_ext _ _ a b Hobj), (along_ext _ _ a b Hobj).
  rewrite Hfol, Hal. intros (? & ? & Hab). split; [by apply Hf|tauto].
Qed.

Lemma handleClose_backward now this w :
  backward w → backward (handleClose now this w).
Proof.
  intros Hb. destruct (objects w !! this) as [c|] eqn:Hc;
    [|by unfold handleClose; rewrite Hc].
  destruct (handleClose_unlink now this c w Hc) as [Hobj _].
  destruct (unlink_spec now this c w Hc) as (l & Hl & Hfol & Hal & _).
  intros a b. rewrite (follows_ext _ _ a b Hobj), (along_ext _ _ a b Hobj).
  rewrite Hfol, Hal. intros (Hab & Hthis & Hl').
  pose proof (Hb _ _ Hab) as Hab'.
  destruct (decide (a = this)) as [->|Hne]; [tauto|].
  split; [|done]. intros Hin. tauto.
Qed.

(** C4, as the gateway has it.  That a client which has a host is in the
    [listeningAlong] of that host is kept by [stopListeningAlong], by
    [handleClose] and by [listenAlong].  The converse, that an entry of
    [listeningAlong] has that client as its host, is kept by
    [stopListeningAlong] and by [handleClose], and by [listenAlong] when the
    follower has no host or already has the target as its host. *)
Theorem listening_relations_kept now w :
  (forward w →
   (∀ host this, forward (stopListeningAlong now host this w))
   ∧ (∀ this, forward (handleClose now this w))
   ∧ (∀ client this,
        is_Some (objects w !! client) →
        forward (listenAlong now client this w)))
  ∧ (backward w →
     (∀ host this, backward (stopListeningAlong now host this w))
     ∧ (∀ this, backward (handleClose now this w))
     ∧ (∀ client this c,
          objects w !! this = Some c →
          listeningWith c = None ∨ listeningWith c = Some client →
          backward (listenAlong now client this w))).
Proof.
  split; intros H; split_and!.
  - intros host this. by apply stopListeningAlong_forward.
  - intros this. by apply handleClose_forward.
  - intros client this Hcl. by apply listenAlong_forward.
  - intros host this. by apply stopListeningAlong_backward.
  - intros this. by apply handleClose_backward.
  - intros client this c Hc Hfree. by apply (listenAlong_backward _ _ _ _ c).
Qed.

(** C3. A host closes; the entries of its [listeningAlong], which is not
    empty, are other sessions, and they are its followers.  Then every
    follower is sent exactly one frame, the sync frame with no track,
    progress -1 and paused; afterwards no follower has a [listeningWith],
    and the [listeningAlong] of the host is empty. *)
Theorem handleClose_host now this c w :
  objects w !! this = Some c →
  listeningAlong c ≠ [] →
  this ∉ listeningAlong c →
  (∀ f, f ∈ listeningAlong c → follows w f this) →
  (∀ f, f ∈ listeningAlong c →
        sentTo f (effects (handleClose now this w))
        = sentTo f (effects w) ++ [hostLeft now])
  ∧ (∀ f, f ∈ listeningAlong c →
          ∃ fc, objects (handleClose now this w) !! f = Some fc
                ∧ listeningWith fc = None)
  ∧ (∃ c', objects (handleClose now this w) !! this = Some c'
           ∧ listeningAlong c' = []).
Proof.
  intros Hc _ Hself Hfol.
  destruct (handleClose_unlink now this c w Hc) as [Hobj Heff].
  destruct (unlink_spec now this c w Hc) as (l & Hl & Hf & Ha & Hs & Hsame).
  assert (∀ f, f ∈ listeningAlong c → f ≠ this) as Hne
    by (intros f Hin ->; contradiction).
  assert (∀ f, f ∈ listeningAlong c → f ∈ l) as Hin.
  { intros f Hf'. apply Hl. split; [by exists c|].
    intros [-> _]. contradiction. }
  assert (∀ f, f ∈ listeningAlong c →
               ∀ b, ¬ follows (unlink now this c w) f b) as Hnone.
  { intros f Hf' b. rewrite Hf. intros (Hnl & _). by apply Hnl, Hin. }
  split_and!.
  - intros f Hf'. rewrite Heff, sentTo_app, Hs. simpl. rewrite app_nil_r.
    assert (attached w f = true) as ->
      by (apply attached_follows; eauto).
    rewrite (bool_decide_false (f = this)), (bool_decide_true (f ∈ l));
      auto.
  - intros f Hf'. rewrite Hobj.
    destruct (Hfol f Hf') as (fc & Hfc & _).
    pose proof (Hsame f) as Hrel. rewrite Hfc in Hrel.
    inversion Hrel as [? fc' _ E1 E2|]; subst. exists fc'. split; [done|].
    destruct (listeningWith fc') as [b|] eqn:Hb; [|done].
    destruct (Hnone f Hf' b). exists fc'. by rewrite <- E2.
  - rewrite Hobj. pose proof (Hsame this) as Hrel. rewrite Hc in Hrel.
    inversion Hrel as [? c' _ E1 E2|]; subst. exists c'. split; [done|].
    destruct (listeningAlong c') as [|a rest] eqn:Hl'; [done|].
    assert (along (unlink now this c w) a this) as Hala.
    { exists c'. rewrite <- E2, Hl'. split; [done|]. by left. }
    apply Ha in Hala as ((c0 & Hc0 & Hin0) & Hthis & Hrest). simplify_eq.
    destruct Hrest. split_and!; auto.
Qed.

(** C9. Closing a session whose [userId] is still [null] leaves the user
    index, the online directory and the recent directory as they were, as
    well as the bot flag, the user directory and the pending timers.  The
    session leaves the connection registry, and every client object keeps
    all its fields but the two listen-along ones.  Where the listening
    relations are mutual inverses, the relations afterwards are the ones
    before without the pairs of the session: its edges are removed, and
    only they. *)
Theorem handleClose_before_login now this c w :
  objects w !! this = Some c →
  userId c = None →
  let w' := handleClose now this w in
  users w' = users w
  ∧ onlineUsers w' = onlineUsers w
  ∧ recentUsers w' = recentUsers w
  ∧ hasBot w' = hasBot w
  ∧ directory w' = directory w
  ∧ timers w' = timers w
  ∧ clients w' = clients w ∖ {[this]}
  ∧ (∀ x, option_Forall2 sameButListening (objects w !! x) (objects w' !! x))
  ∧ (inverse w →
     ∀ a b,
       (follows w' a b ↔ follows w a b ∧ a ≠ this ∧ b ≠ this)
       ∧ (along w' a b ↔ along w a b ∧ a ≠ this ∧ b ≠ this)).
Proof.
  intros Hc Hu w'. unfold w'. clear w'.
  rewrite (handleClose_anonymous now this c w Hc Hu).
  destruct (registries_eq _ _ (unlink_registries now this c w))
    as (Hbot & Hcl & Hus & Hon & Hre & Hdi & Hti).
  destruct (unlink_spec now this c w Hc) as (l & Hl & Hf & Ha & _ & Hsame).
  split_and!; try done.
  intros [Hfw Hbw] a b.
  assert (∀ x, follows w a x → follows w a b → x = b) as Hfun.
  { intros x (c1 & ? & ?) (c2 & ? & ?). congruence. }
  split.
  - unfold follows. simpl. fold (follows (unlink now this c w) a b).
    fold (follows w a b). rewrite Hf, Hl. split.
    + intros (Hnl & Hne & Hab). split_and!; [done|done|].
      intros ->. apply Hnl. split; [by apply Hfw|]. tauto.
    + intros (Hab & Hne & Hnb). split_and!; [|done|done].
      intros [Hal _]. apply Hnb. symmetry. apply Hfun; [|done]. by apply Hbw.
  - unfold along. simpl. fold (along (unlink now this c w) a b).
    fold (along w a b). rewrite Ha, Hl. split.
    + intros (Hab & Hthis & Hrest). pose proof (Hbw _ _ Hab) as Hfol.
      assert (a ≠ this) as Hne by (intros ->; tauto).
      split_and!; [done|done|]. intros ->. apply Hrest.
      split_and!; [done|tauto|done|done].
    + intros (Hab & Hne & Hnb). split_and!; [done|tauto|].
      intros ([Hal _] & _ & Hfol). apply Hnb. symmetry.
      apply Hfun; [|done]. by apply Hbw.
Qed.

(** ** The presence debounce *)

Section Debounce.

Variable constants : Constants.

Lemma updatePresence_cases now this w :
  updatePresence constants now this w = w
  ∨ ((pushes (effects (updatePresence constants now this w))
      ≤ pushes (effects w) + 1)%nat
     ∧ ∀ c, objects (updatePresence constants now this w) !! this = Some c →
            lastUpdate c = now).
Proof.
  unfold updatePresence.
  destruct (objects w !! this) as [c|] eqn:Hc; [|by left].
  destruct (now - lastUpdate c <? 4000); [by left|]. right.
  assert (∀ c', objects (assign this (set_lastUpdate now) w) !! this = Some c'
                → lastUpdate c' = now) as Hlast.
  { intros c'. rewrite assign_lookup, decide_True, Hc by done.
    by intros [= <-]. }
  repeat case_match; simpl; rewrite ?pushes_app; simpl; split; try lia;
    exact Hlast.
Qed.

Lemma playback_settled t0 this evs w :
  (∀ c, objects w !! this = Some c → t0 ≤ lastUpdate c) →
  Forall (λ e, t0 ≤ e.1 < t0 + 4000 ∧ presenceNeutral this e.2) evs →
  pushes (effects (foldl (playback constants this) w evs))
  = pushes (effects w).
Proof.
  intros Hw Hevs. revert w Hw.
  induction Hevs as [|[t work] evs [Ht Hwork] _ IH]; intros w Hw; [done|].
  simpl in *. unfold playback at 2. simpl.
  destruct (Hwork w) as [Hpush Hkeep].
  assert (∀ c, objects (work w) !! this = Some c → t0 ≤ lastUpdate c) as Hw'.
  { intros c' (c & Hc & ->)%Hkeep. by apply Hw. }
  assert (updatePresence constants t this (work w) = work w) as ->.
  { unfold updatePresence.
    destruct (objects (work w) !! this) as [c'|] eqn:Hc'; [|done].
    specialize (Hw' c' eq_refl).
    destruct (t - lastUpdate c' <? 4000) eqn:Hlt; [done|].
    apply Z.ltb_ge in Hlt. lia. }
  by rewrite IH.
Qed.

(** C6. A call of [updatePresence] less than 4000 ms after the last push
    time of the session returns the world as it was: nothing is published
    and nothing is queued.  Hence a run of playback-changing events of one
    session whose clock values all lie in one interval of 4000 ms adds at
    most one call of the presence publisher. *)
Theorem updatePresence_debounce this w :
  (∀ now c,
     objects w !! this = Some c →
     now - lastUpdate c < 4000 →
     updatePresence constants now this w = w)
  ∧ (∀ t0 evs,
       Forall (λ e, t0 ≤ e.1 < t0 + 4000 ∧ presenceNeutral this e.2) evs →
       (pushes (effects (foldl (playback constants this) w evs))
        ≤ pushes (effects w) + 1)%nat).
Proof.
  split.
  - intros now c Hc Hlt. unfold updatePresence. rewrite Hc.
    apply Z.ltb_lt in Hlt. by rewrite Hlt.
  - intros t0 evs Hevs. revert w.
    induction Hevs as [|[t work] evs [Ht Hwork] Hevs IH]; intros w;
      simpl; [lia|].
    unfold playback at 2. simpl in *.
    destruct (Hwork w) as [Hpush _]. rewrite <- Hpush.
    destruct (updatePresence_cases t this (work w))
      as [->|[Hle Hlast]]; [apply (IH (work w))|].
    rewrite (playback_settled t0); [exact Hle| |done].
    intros c Hc. rewrite (Hlast c Hc). lia.
Qed.

End Debounce.

(** ** The user index and the two directories *)

Section Directories.

Variable constants : Constants.
Variable getUserByToken : gmap string User.t → string → option User.t.

Lemma updatePresence_registries now this w :
  registries (updatePresence constants now this w) = registries w.
Proof. unfold updatePresence. by repeat case_match. Qed.

Lemma asUser_unknown now token b p this w :
  getUserByToken (directory w) token = None →
  registries (asUser constants getUserByToken now token b p this w)
  = registries w.
Proof. intros Hu. unfold asUser. by rewrite Hu. Qed.

Lemma asUser_found now token b p this w user :
  getUserByToken (directory w) token = Some user →
  users (asUser constants getUserByToken now token b p this w)
  = <[User.userId user :=
        default [] (users w !! User.userId user) ++ [this]]> (users w)
  ∧ recentUsers (asUser constants getUserByToken now token b p this w)
    = delete (User.userId user) (recentUsers w)
  ∧ ((objects w !! this = None
      ∧ onlineUsers (asUser constants getUserByToken now token b p this w)
        = onlineUsers w)
     ∨ ∃ online,
         is_Some (objects w !! this)
         ∧ onlineUsers (asUser constants getUserByToken now token b p this w)
           = <[User.userId user := online]> (onlineUsers w)).
Proof.
  intros Hu. unfold asUser. rewrite Hu.
  set (w5 := set_recentUsers _ _).
  set (w6 := match asOnlineUser _ _ _ with Some _ => _ | None => _ end).
  assert (registries
            (if truthy_opt (User.presenceToken user)
             then updatePresence constants now this w6 else w6)
          = registries w6) as Hr.
  { destruct (truthy_opt _); [apply updatePresence_registries|done]. }
  apply registries_eq in Hr as (_ & _ & -> & -> & -> & _ & _).
  assert (users w6 = users w5 ∧ recentUsers w6 = recentUsers w5) as [-> ->].
  { unfold w6. by destruct (asOnlineUser _ _ _). }
  split_and!; [done|done|].
  unfold w6, asOnlineUser. simpl. rewrite !lookup_alter_eq.
  destruct (objects w !! this) as [c|]; simpl.
  - right. eexists. split; [eauto|]. done.
  - left. done.
Qed.

Lemma handleClose_registered now this c id sessions w :
  objects w !! this = Some c →
  userId c = Some id →
  truthy id = true →
  users w !! id = Some sessions →
  clients (handleClose now this w) = clients w ∖ {[this]}
  ∧ onlineUsers (handleClose now this w) = delete id (onlineUsers w)
  ∧ users (handleClose now this w)
    = (if (length sessions <? 2)%nat then delete id (users w)
       else <[id := splice1 (indexOf this sessions) sessions]> (users w))
  ∧ recentUsers (handleClose now this w)
    = (if bool_decide (recentUsers w !! id = None)
          && bool_decide (is_Some (listeningTo c))
       then match directory w !! id with
            | Some user => <[id := recentEntry now c user]> (recentUsers w)
            | None => recentUsers w
            end
       else recentUsers w).
Proof.
  intros Hc Hu Ht Hs. unfold handleClose. rewrite Hc, Hu.
  fold_unlink now this c w.
  pose proof (unlink_registries now this c w) as Hr.
  destruct (unlink_spec now this c w Hc) as (_ & _ & _ & _ & _ & Hsame).
  specialize (Hsame this). rewrite Hc in Hsame.
  inversion Hsame as [? c2 Hrel E1 E2|]; subst.
  set (w2 := unlink now this c w) in *.
  apply registries_eq in Hr as (_ & Hcl & Hus & Hon & Hre & Hdi & _). simpl.
  rewrite Hus, Hs, Ht.
  unfold asOfflineUser, getUser. simpl. rewrite <- E2.
  assert (userId c2 = Some id ∧ socialStatus c2 = socialStatus c
          ∧ listeningTo c2 = listeningTo c) as (Hu2 & Hs2 & Hl2).
  { rewrite Hrel. by destruct c. }
  rewrite Hu2. simpl. rewrite ?Hcl, ?Hon, ?Hre, ?Hdi, ?Hus.
  destruct (bool_decide (recentUsers w !! id = None)
            && bool_decide (is_Some (listeningTo c))) eqn:Hb;
    [destruct (directory w !! id) as [user|]|];
    destruct (length sessions <? 2)%nat; simpl;
    unfold recentEntry; rewrite ?Hs2, ?Hon, ?Hus, ?Hre; done.
Qed.

Lemma handleClose_directories now this w :
  (users (handleClose now this w) = users w
   ∧ onlineUsers (handleClose now this w) = onlineUsers w
   ∧ recentUsers (handleClose now this w) = recentUsers w)
  ∨ ∃ c id sessions,
      objects w !! this = Some c ∧ userId c = Some id ∧ truthy id = true
      ∧ users w !! id = Some sessions.
Proof.
  destruct (objects w !! this) as [c|] eqn:Hc;
    [|left; by unfold handleClose; rewrite Hc].
  destruct (userId c) as [id|] eqn:Hu;
    [destruct (users w !! id) as [sessions|] eqn:Hs;
     [destruct (truthy id) eqn:Ht|]|].
  - right. by exists c, id, sessions.
  - left. unfold handleClose. rewrite Hc, Hu.
    fold_unlink now this c w.
    pose proof (unlink_registries now this c w) as Hr.
    apply registries_eq in Hr as (_ & _ & Hus & Hon & Hre & _ & _). simpl.
    by rewrite Hus, Hs, Ht.
  - left. unfold handleClose. rewrite Hc, Hu.
    fold_unlink now this c w.
    pose proof (unlink_registries now this c w) as Hr.
    apply registries_eq in Hr as (_ & _ & Hus & Hon & Hre & _ & _). simpl.
    by rewrite Hus, Hs.
  - left. rewrite (handleClose_anonymous now this c w Hc Hu).
    by destruct (registries_eq _ _ (unlink_registries now this c w))
      as (_ & _ & ? & ? & ? & _).
Qed.

Lemma asUser_onlineIndexed now token b p this w :
  onlineIndexed w →
  onlineIndexed (asUser constants getUserByToken now token b p this w).
Proof.
  intros Hw u. destruct (getUserByToken (directory w) token) as [user|] eqn:Hu.
  - destruct (asUser_found now token b p this w user Hu)
      as (-> & _ & [[_ ->]|(online & _ & ->)]).
    + intros Ho. destruct (decide (User.userId user = u)) as [->|Hne].
      * rewrite lookup_insert_eq. eauto.
      * rewrite lookup_insert_ne by done. by apply Hw.
    + destruct (decide (User.userId user = u)) as [->|Hne].
      * rewrite !lookup_insert_eq. eauto.
      * rewrite !lookup_insert_ne by done. by apply Hw.
  - destruct (registries_eq _ _ (asUser_unknown now token b p this w Hu))
      as (_ & _ & -> & -> & _). apply Hw.
Qed.

Lemma handleClose_onlineIndexed now this w :
  onlineIndexed w → onlineIndexed (handleClose now this w).
Proof.
  intros Hw u.
  destruct (handleClose_directories now this w)
    as [(-> & -> & _)|(c & id & sessions & Hc & Hu & Ht & Hs)]; [apply Hw|].
  destruct (handleClose_registered now this c id sessions w Hc Hu Ht Hs)
    as (_ & -> & -> & _).
  destruct (decide (id = u)) as [->|Hne].
  - rewrite lookup_delete_eq. by intros [? ?].
  - rewrite lookup_delete_ne by done. intros Ho%Hw.
    destruct (length sessions <? 2)%nat.
    + by rewrite lookup_delete_ne.
    + by rewrite lookup_insert_ne.
Qed.

(** C2, as the gateway has it.  An online entry exists only for a user id
    that the user index knows, and the resolution of a handshake and the
    close of a session keep it so.  A handshake that resolves to a user
    writes the online entry of that user and appends the session to the
    index entry of the user.  The close of a session of a user that the
    index knows removes the online entry of the user, whether or not other
    sessions of the user remain in the index: the index entry is removed
    when it held less than two sessions, and loses one session otherwise. *)
Theorem online_directory_kept now w :
  (onlineIndexed w →
   (∀ token b p this,
      onlineIndexed (asUser constants getUserByToken now token b p this w))
   ∧ (∀ this, onlineIndexed (handleClose now this w)))
  ∧ (∀ token b p this c user,
       objects w !! this = Some c →
       getUserByToken (directory w) token = Some user →
       is_Some
         (onlineUsers (asUser constants getUserByToken now token b p this w)
          !! User.userId user)
       ∧ users (asUser constants getUserByToken now token b p this w)
         !! User.userId user
         = Some (default [] (users w !! User.userId user) ++ [this]))
  ∧ (∀ this c id sessions,
       objects w !! this = Some c →
       userId c = Some id →
       truthy id = true →
       users w !! id = Some sessions →
       onlineUsers (handleClose now this w) !! id = None
       ∧ users (handleClose now this w) !! id
         = (if (length sessions <? 2)%nat then None
            else Some (splice1 (indexOf this sessions) sessions))).
Proof.
  split_and!.
  - intros Hw. split.
    + intros token b p this. by apply asUser_onlineIndexed.
    + intros this. by apply handleClose_onlineIndexed.
  - intros token b p this c user Hc Hu.
    destruct (asUser_found now token b p this w user Hu)
      as (-> & _ & [[Hn _]|(online & _ & ->)]); [congruence|].
    rewrite !lookup_insert_eq. eauto.
  - intros this c id sessions Hc Hu Ht Hs.
    destruct (handleClose_registered now this c id sessions w Hc Hu Ht Hs)
      as (_ & -> & -> & _).
    rewrite lookup_delete_eq. split; [done|].
    destruct (length sessions <? 2)%nat.
    + by rewrite lookup_delete_eq.
    + by rewrite lookup_insert_eq.
Qed.

Lemma asUser_exclusive now token b p this w :
  exclusive w →
  exclusive (asUser constants getUserByToken now token b p this w).
Proof.
  intros Hw u. destruct (getUserByToken (directory w) token) as [user|] eqn:Hu.
  - destruct (asUser_found now token b p this w user Hu)
      as (_ & -> & [[_ ->]|(online & _ & ->)]);
      (destruct (decide (User.userId user = u)) as [->|Hne];
       [by rewrite lookup_delete_eq|]).
    + rewrite lookup_delete_ne by done. apply Hw.
    + rewrite lookup_insert_ne, lookup_delete_ne by done. apply Hw.
  - destruct (registries_eq _ _ (asUser_unknown now token b p this w Hu))
      as (_ & _ & _ & -> & -> & _). apply Hw.
Qed.

Lemma handleClose_exclusive now this w :
  exclusive w → exclusive (handleClose now this w).
Proof.
  intros Hw u.
  destruct (handleClose_directories now this w)
    as [(_ & -> & ->)|(c & id & sessions & Hc & Hu & Ht & Hs)]; [apply Hw|].
  destruct (handleClose_registered now this c id sessions w Hc Hu Ht Hs)
    as (_ & -> & _ & ->).
  destruct (decide (id = u)) as [->|Hne].
  - rewrite lookup_delete_eq. by intros [? ?].
  - rewrite lookup_delete_ne by done. intros Ho%Hw.
    repeat case_match; by rewrite ?lookup_insert_ne.
Qed.

(** C5, as the gateway has it.  The close of a session of a user that the
    index knows writes a recent entry for the user when the session has a
    current track, the directory has the user and no recent entry exists,
    whatever the number of sessions in the index entry; in every other case
    the recent directory stays as it was.  A handshake that resolves to a
    user removes the recent entry of that user.  The resolution of a
    handshake and the close of a session keep the online and the recent
    directory disjoint. *)
Theorem recent_directory_kept now w :
  (∀ this c id sessions,
     objects w !! this = Some c →
     userId c = Some id →
     truthy id = true →
     users w !! id = Some sessions →
     recentUsers (handleClose now this w)
     = (if bool_decide (recentUsers w !! id = None)
           && bool_decide (is_Some (listeningTo c))
        then match directory w !! id with
             | Some user => <[id := recentEntry now c user]> (recentUsers w)
             | None => recentUsers w
             end
        else recentUsers w))
  ∧ (∀ this,
       (∀ c id sessions,
          ¬ (objects w !! this = Some c ∧ userId c = Some id
             ∧ truthy id = true ∧ users w !! id = Some sessions)) →
       recentUsers (handleClose now this w) = recentUsers w)
  ∧ (∀ token b p this user,
       getUserByToken (directory w) token = Some user →
       recentUsers (asUser constants getUserByToken now token b p this w)
       !! User.userId user = None)
  ∧ (exclusive w →
     (∀ token b p this,
        exclusive (asUser constants getUserByToken now token b p this w))
     ∧ (∀ this, exclusive (handleClose now this w))).
Proof.
  split_and!.
  - intros this c id sessions Hc Hu Ht Hs.
    by destruct (handleClose_registered now this c id sessions w Hc Hu Ht Hs)
      as (_ & _ & _ & ->).
  - intros this Hnot.
    destruct (handleClose_directories now this w)
      as [(_ & _ & ->)|(c & id & sessions & H)]; [done|].
    by destruct (Hnot c id sessions).
  - intros token b p this user Hu.
    destruct (asUser_found now token b p this w user Hu) as (_ & -> & _).
    apply lookup_delete_eq.
  - intros Hw. split.
    + intros token b p this. by apply asUser_exclusive.
    + intros this. by apply handleClose_exclusive.
Qed.

End Directories.

(** ** The bot identity *)

Section BotIdentity.

Variable constants : Constants.
Variable getUserByToken : gmap string User.t → string → option User.t.
Variable handler : string → string → GatewayMessage.t → Z → World → World.

(** The first handshake frame of a session defers one callback by 1000 ms:
    the bot callback when the flag is unset and the token is the secret,
    the user callback otherwise.  The flag itself is not touched. *)
Lemma initialized_defers now data this c w :
  objects w !! this = Some c →
  hasInitialized c = false →
  GatewayMessage.type data = "initialize" →
  timers (initialized constants now data this w).2
  = timers w
    ++ [ (now + 1000,
          if negb (hasBot w)
             && String.eqb (GatewayMessage.token data)
                  (DISCORD_TOKEN constants)
          then AsBot this
          else AsUser this (GatewayMessage.token data)
                 (GatewayMessage.broadcast data)
                 (GatewayMessage.presence data)) ]
  ∧ hasBot (initialized constants now data this w).2 = hasBot w.
Proof.
  intros Hc Hinit Hty. unfold initialized. rewrite Hc, Hinit, Hty.
  unfold ping. rewrite assign_lookup, decide_True, Hc by done. done.
Qed.

Lemma initialized_hasBot now data this w :
  hasBot (initialized constants now data this w).2 = hasBot w.
Proof. unfold initialized, ping. by repeat case_match. Qed.

Lemma handleClose_hasBot now this w :
  hasBot (handleClose now this w) = hasBot w.
Proof.
  destruct (objects w !! this) as [c|] eqn:Hc;
    [|by unfold handleClose; rewrite Hc].
  unfold handleClose. rewrite Hc.
  fold_unlink now this c w.
  destruct (registries_eq _ _ (unlink_registries now this c w)) as [Hb _].
  by repeat case_match.
Qed.

Lemma asUser_hasBot now token b p this w :
  hasBot (asUser constants getUserByToken now token b p this w) = hasBot w.
Proof.
  unfold asUser. destruct (getUserByToken (directory w) token); [|done].
  set (w6 := match asOnlineUser _ _ _ with Some _ => _ | None => _ end).
  assert (hasBot w6 = hasBot w) as <-
    by (unfold w6; by destruct (asOnlineUser _ _ _)).
  destruct (truthy_opt _); [|done].
  by destruct (registries_eq _ _ (updatePresence_registries constants now
                                    this w6)).
Qed.

(** Once the flag is set, no turn of the event loop clears it, provided
    the handlers of [messages/*] do not. *)
Lemma turn_keeps_flag w e :
  (∀ module client json now w,
     hasBot w = true → hasBot (handler module client json now w) = true) →
  hasBot w = true →
  hasBot (turn constants getUserByToken handler w e) = true.
Proof.
  intros Hh Hw. destruct e as [now [id|id data|id|]]; unfold turn.
  - done.
  - unfold handleMessage. destruct data as [json| |text]; [|done..].
    pose proof (initialized_hasBot now json id w) as Hi.
    destruct (initialized constants now json id w) as [ok w1].
    unfold snd in Hi. rewrite <- Hi in Hw.
    destruct ok; [|done]. unfold negb.
    destruct (String.eqb (GatewayMessage.type json) "initialize"); [done|].
    destruct (assoc (GatewayMessage.type json) handlers); [by apply Hh|].
    by case_bool_decide.
  - by rewrite handleClose_hasBot.
  - destruct (timers w) as [|[due cb] rest]; [done|].
    destruct (due <=? now); [|done].
    destruct cb; unfold runCallback; [done|]. by rewrite asUser_hasBot.
Qed.

End BotIdentity.

(** ** The recently-played list *)

Lemma findIndex_ge track l : -1 ≤ findIndex track l.
Proof.
  induction l as [|t l IH]; simpl; [done|].
  destruct (String.eqb _ _); [done|].
  destruct (findIndex track l <? 0) eqn:Hlt; [done|]. lia.
Qed.

Lemma splice1_cons {A} (i : Z) (x : A) (l : list A) :
  0 ≤ i → splice1 (i + 1) (x :: l) = x :: splice1 i l.
Proof.
  intros Hi. unfold splice1.
  rewrite (proj2 (Z.ltb_ge (i + 1) 0)), (proj2 (Z.ltb_ge i 0)) by lia.
  simpl length.
  replace (Z.to_nat (Z.min (i + 1) (Z.of_nat (S (length l)))))
    with (S (Z.to_nat (Z.min i (Z.of_nat (length l))))) by lia.
  done.
Qed.

Lemma splice_removeFirst track l :
  (if negb (findIndex track l =? -1) then splice1 (findIndex track l) l else l)
  = removeFirst track l.
Proof.
  induction l as [|t l IH]; simpl; [done|].
  destruct (String.eqb _ _); [done|].
  pose proof (findIndex_ge track l) as Hge.
  destruct (findIndex track l <? 0) eqn:Hlt.
  - apply Z.ltb_lt in Hlt.
    replace (findIndex track l) with (-1) in IH by lia.
    simpl in *. by rewrite <- IH.
  - apply Z.ltb_ge in Hlt.
    rewrite (proj2 (Z.eqb_neq _ _)) in IH by lia.
    rewrite (proj2 (Z.eqb_neq _ _)) by lia. simpl in *.
    by rewrite splice1_cons, IH.
Qed.

Lemma recents_removeFirst track l :
  recents track l = track :: take 8 (removeFirst track l).
Proof. unfold recents. by rewrite splice_removeFirst. Qed.

Lemma occurrences_removeFirst track l t :
  (occurrences track l ≤ 1)%nat →
  t ∈ removeFirst track l → Track.id t ≠ Track.id track.
Proof.
  unfold occurrences. induction l as [|t' l IH]; simpl; [by intros _ ?%elem_of_nil|].
  rewrite filter_cons. destruct (String.eqb_spec (Track.id t') (Track.id track)).
  - rewrite decide_True by done. simpl. intros Hle Hin.
    assert (filter (λ t, Track.id t = Track.id track) l = []) as Hnil
      by (apply length_zero_iff_nil; lia).
    intros Heq.
    assert (t ∈ filter (λ t, Track.id t = Track.id track) l) as Hf
      by by apply list_elem_of_filter.
    rewrite Hnil in Hf. by apply elem_of_nil in Hf.
  - rewrite decide_False by done. intros Hle [->|Hin]%elem_of_cons; [done|].
    by apply IH.
Qed.


Lemma removeFirst_sublist track l : removeFirst track l `sublist_of` l.
Proof.
  induction l as [|t l IH]; simpl; [done|].
  destruct (String.eqb _ _); [by apply sublist_cons|by apply sublist_skip].
Qed.

Lemma occurrences_absent track l :
  Track.id track ∉ map Track.id l → occurrences track l = 0%nat.
Proof.
  unfold occurrences. induction l as [|t l IH]; simpl; [done|].
  intros [Hne Hl]%not_elem_of_cons. rewrite filter_cons.
  rewrite decide_False by done. by apply IH.
Qed.

Lemma NoDup_occurrences track l :
  NoDup (map Track.id l) → (occurrences track l ≤ 1)%nat.
Proof.
  induction l as [|t l IH]; simpl; [unfold occurrences; simpl; lia|].
  intros [Hnotin Hl]%NoDup_cons. unfold occurrences in *.
  rewrite filter_cons. case_decide as Ht; [|by apply IH].
  simpl. rewrite Ht in Hnotin.
  pose proof (occurrences_absent track l Hnotin) as H0.
  unfold occurrences in H0. lia.
Qed.

(** The one writer of the list keeps the track ids of a list distinct. *)
Lemma recents_NoDup track l :
  NoDup (map Track.id l) → NoDup (map Track.id (recents track l)).
Proof.
  intros Hl. rewrite recents_removeFirst. simpl. apply NoDup_cons. split.
  - intros (t & Hid & Hin)%list_elem_of_fmap.
    apply (occurrences_removeFirst track l t); [by apply NoDup_occurrences| |done].
    by apply (subseteq_take 8).
  - apply (sublist_NoDup _ (map Track.id l)); [done|].
    apply (fmap_sublist Track.id). etrans; [apply sublist_take|].
    apply removeFirst_sublist.
Qed.

(** Every list that a history of calls builds from a record without a list
    has its track ids distinct. *)
Lemma recents_history tracks :
  NoDup (map Track.id (foldl (λ l track, recents track l) [] tracks)).
Proof.
  induction tracks as [|track tracks IH] using rev_ind; [constructor|].
  rewrite foldl_app. simpl. by apply recents_NoDup.
Qed.


(** ** The checks of the listening relations *)

Lemma forwardb_sound w : forwardb w = true → forward w.
Proof.
  unfold forwardb. rewrite forallb_forall.
  intros H a b (ac & Hac & Hb).
  apply elem_of_map_to_list, list_elem_of_In, H in Hac. simpl in Hac.
  rewrite Hb in Hac. unfold along.
  destruct (objects w !! b) as [bc|]; [|done].
  apply bool_decide_eq_true in Hac. eauto.
Qed.

Lemma backwardb_sound w : backwardb w = true → backward w.
Proof.
  unfold backwardb. rewrite forallb_forall.
  intros H a b (bc & Hbc & Ha).
  apply elem_of_map_to_list, list_elem_of_In, H in Hbc. simpl in Hbc.
  rewrite forallb_forall in Hbc.
  apply list_elem_of_In, Hbc in Ha. unfold follows.
  destruct (objects w !! a) as [ac|]; [|done].
  apply bool_decide_eq_true in Ha. eauto.
Qed.

(** ** Sufficient checks on the domains of the directories *)

Lemma onlineIndexed_dom w :
  dom (onlineUsers w) ⊆ dom (users w) → onlineIndexed w.
Proof. intros H u Hu. by apply elem_of_dom, H, elem_of_dom. Qed.

Lemma exclusive_dom w :
  dom (onlineUsers w) ∩ dom (recentUsers w) = ∅ → exclusive w.
Proof.
  intros H u Hu. apply not_elem_of_dom. intros Hr.
  apply elem_of_dom in Hu. set_solver.
Qed.

(** ** The handshake, frame by frame *)

Lemma assign_insert this f c w :
  objects w !! this = Some c →
  assign this f w = set_objects (<[this := f c]> (objects w)) w.
Proof.
  intros Hc. unfold assign. f_equal. apply map_eq. intros x.
  destruct (decide (x = this)) as [->|Hne].
  - by rewrite lookup_alter_eq, lookup_insert_eq, Hc.
  - by rewrite lookup_alter_ne, lookup_insert_ne.
Qed.

Lemma handlers_not_initialize ty module :
  assoc ty handlers = Some module → String.eqb ty "initialize" = false.
Proof.
  intros H. destruct (String.eqb_spec ty "initialize") as [->|]; [|done].
  vm_compute in H. discriminate H.
Qed.

Section Handshake.

Variable constants : Constants.
Variable getUserByToken : gmap string User.t → string → option User.t.
Variable handler : string → string → GatewayMessage.t → Z → World → World.

(** The first handshake frame of a session marks the session, pings it with
    the time since it connected, and defers one callback; the registries
    and the user of the session are as before. *)
Lemma initialized_first now data this c w :
  objects w !! this = Some c →
  hasInitialized c = false →
  GatewayMessage.type data = "initialize" →
  initialized constants now data this w
  = (true,
     mkWorld (hasBot w) (clients w) (users w) (onlineUsers w) (recentUsers w)
       (<[this := set_hasInitialized true c]> (objects w)) (directory w)
       (timers w ++ [(now + 1000, deferred constants this data w)])
       (effects w
        ++ [Send this
              (stamp now (GATEWAY_PING constants now (now - lastPing c)))])).
Proof.
  intros Hc Hinit Hty. unfold initialized. rewrite Hc, Hinit, Hty. simpl.
  rewrite (assign_insert _ _ c) by done.
  unfold ping. simpl. rewrite lookup_insert_eq. done.
Qed.

Lemma handleMessage_first now json this c w :
  objects w !! this = Some c →
  hasInitialized c = false →
  GatewayMessage.type json = "initialize" →
  handleMessage constants handler now (Json json) this w
  = mkWorld (hasBot w) (clients w) (users w) (onlineUsers w) (recentUsers w)
      (<[this := set_hasInitialized true c]> (objects w)) (directory w)
      (timers w ++ [(now + 1000, deferred constants this json w)])
      (effects w
       ++ [Send this
             (stamp now (GATEWAY_PING constants now (now - lastPing c)))]).
Proof.
  intros Hc Hinit Hty. unfold handleMessage.
  rewrite (initialized_first now json this c w Hc Hinit Hty).
  by rewrite Hty.
Qed.

Lemma handleMessage_again now json this c w :
  objects w !! this = Some c →
  hasInitialized c = true →
  GatewayMessage.type json = "initialize" →
  handleMessage constants handler now (Json json) this w = w.
Proof.
  intros Hc Hinit Hty. unfold handleMessage, initialized.
  by rewrite Hc, Hinit, Hty.
Qed.

Lemma handleMessage_handshaken now json this w :
  is_Some (objects w !! this) →
  GatewayMessage.type json = "initialize" →
  ∃ c, objects (handleMessage constants handler now (Json json) this w) !! this
       = Some c ∧ hasInitialized c = true.
Proof.
  intros [c Hc] Hty. destruct (hasInitialized c) eqn:Hinit.
  - rewrite (handleMessage_again now json this c w) by done. eauto.
  - rewrite (handleMessage_first now json this c w) by done. simpl.
    rewrite lookup_insert_eq. eauto.
Qed.

(** X1. A session takes one handshake: after a frame of type ["initialize"],
    any further frames of that type on the session, whatever token they
    carry and whenever they arrive, leave the gateway as the first one left
    it; no second ping is sent and no second callback is deferred. *)
Theorem handshake_once now json this w more :
  is_Some (objects w !! this) →
  GatewayMessage.type json = "initialize" →
  Forall (λ e : Z * GatewayMessage.t, GatewayMessage.type e.2 = "initialize")
    more →
  foldl (λ w e, handleMessage constants handler e.1 (Json e.2) this w)
    (handleMessage constants handler now (Json json) this w) more
  = handleMessage constants handler now (Json json) this w.
Proof.
  intros Hc Hty Hmore.
  destruct (handleMessage_handshaken now json this w Hc Hty) as (c' & Hc' & Hi).
  induction Hmore as [|e more He _ IH]; [done|]. cbn [foldl].
  by rewrite (handleMessage_again e.1 e.2 this c' _ Hc' Hi He).
Qed.

(** X2. Between the handshake frame of a session and the callback that
    resolves its token, a frame of a type of the table [handlers] is passed
    to its handler: the handshake frame alone makes [initialized] answer
    [true], while the session is logged in no more than before and the
    user index is unchanged. *)
Theorem handleMessage_before_login now now' hello json module this c w :
  objects w !! this = Some c →
  hasInitialized c = false →
  GatewayMessage.type hello = "initialize" →
  assoc (GatewayMessage.type json) handlers = Some module →
  let w1 := handleMessage constants handler now (Json hello) this w in
  handleMessage constants handler now' (Json json) this w1
  = handler module this json now' (effect (Handle module this json) w1)
  ∧ isLoggedIn this w1 = isLoggedIn this w
  ∧ users w1 = users w.
Proof.
  intros Hc Hinit Hty Hm w1. unfold w1.
  rewrite (handleMessage_first now hello this c w Hc Hinit Hty).
  split_and!; [|unfold isLoggedIn; simpl; by rewrite lookup_insert_eq, Hc|done].
  unfold handleMessage, initialized. cbn [objects].
  rewrite lookup_insert_eq. cbn [hasInitialized set_hasInitialized negb].
  by rewrite (handlers_not_initialize _ _ Hm), Hm.
Qed.

Lemma turn_timeout now due cb rest w :
  timers w = (due, cb) :: rest →
  due ≤ now →
  turn constants getUserByToken handler w (now, Timeout)
  = runCallback constants getUserByToken now cb (set_timers rest w).
Proof.
  intros Ht Hdue. unfold turn. rewrite Ht.
  by rewrite (proj2 (Z.leb_le due now)).
Qed.

Lemma deferred_user this data w :
  hasBot w = true
  ∨ GatewayMessage.token data ≠ DISCORD_TOKEN constants →
  deferred constants this data w
  = AsUser this (GatewayMessage.token data) (GatewayMessage.broadcast data)
      (GatewayMessage.presence data).
Proof.
  unfold deferred. intros [-> | Hne]; [done|].
  apply String.eqb_neq in Hne. rewrite Hne. by rewrite andb_false_r.
Qed.

(** X3. A handshake with a token that is not the secret of the bot (or that
    comes when the bot flag is set) and that the directory does not know:
    the session is pinged at once; when the deferred callback runs, 1000 ms
    later or more, the session is sent the invalid-token error and its
    socket is closed.  Nothing is registered: the user index, the two
    directories and the user of the session are as before. *)
Theorem handshake_unknown_token now due hello this c w :
  objects w !! this = Some c →
  hasInitialized c = false →
  GatewayMessage.type hello = "initialize" →
  timers w = [] →
  now + 1000 ≤ due →
  hasBot w = true
  ∨ GatewayMessage.token hello ≠ DISCORD_TOKEN constants →
  getUserByToken (directory w) (GatewayMessage.token hello) = None →
  run constants getUserByToken handler
    [(now, Message this (Json hello)); (due, Timeout)] w
  = mkWorld (hasBot w) (clients w) (users w) (onlineUsers w) (recentUsers w)
      (<[this := set_hasInitialized true c]> (objects w)) (directory w) []
      (effects w
       ++ [ Send this
              (stamp now (GATEWAY_PING constants now (now - lastPing c)));
            Send this (stamp due (GATEWAY_INVALID_TOKEN constants due));
            SocketClose this None ]).
Proof.
  intros Hc Hinit Hty Htm Hdue Hbot Hu. unfold run. cbn [foldl].
  change (turn constants getUserByToken handler w
            (now, Message this (Json hello)))
    with (handleMessage constants handler now (Json hello) this w).
  rewrite (handleMessage_first now hello this c w Hc Hinit Hty).
  rewrite Htm, (deferred_user this hello w Hbot). cbn [app].
  erewrite turn_timeout; [|reflexivity|done].
  unfold runCallback, asUser. cbn [directory set_timers].
  rewrite Hu. unfold send, disconnect, effect, set_effects. cbn.
  by rewrite <- !app_assoc.
Qed.

(** X4. A handshake with the secret of the bot while the bot flag is unset:
    when the deferred callback runs, the session gets the user id ["bot"],
    the flag is set and the session is sent the fetch request.  The secret
    is compared before the directory is asked, and the session of the bot
    is entered neither in the user index nor in the online directory. *)
Theorem handshake_bot now due hello this c w :
  objects w !! this = Some c →
  hasInitialized c = false →
  GatewayMessage.type hello = "initialize" →
  timers w = [] →
  now + 1000 ≤ due →
  hasBot w = false →
  GatewayMessage.token hello = DISCORD_TOKEN constants →
  run constants getUserByToken handler
    [(now, Message this (Json hello)); (due, Timeout)] w
  = mkWorld true (clients w) (users w) (onlineUsers w) (recentUsers w)
      (<[this := set_userId (Some "bot") (set_hasInitialized true c)]>
         (objects w))
      (directory w) []
      (effects w
       ++ [ Send this
              (stamp now (GATEWAY_PING constants now (now - lastPing c)));
            Send this
              (stamp due (SUCCESS constants due (mkFrame FetchRequest None)))
          ]).
Proof.
  intros Hc Hinit Hty Htm Hdue Hbot Htok. unfold run. cbn [foldl].
  change (turn constants getUserByToken handler w
            (now, Message this (Json hello)))
    with (handleMessage constants handler now (Json hello) this w).
  rewrite (handleMessage_first now hello this c w Hc Hinit Hty).
  unfold deferred. rewrite Htm, Hbot, Htok, String.eqb_refl.
  cbn [app negb andb].
  erewrite turn_timeout; [|reflexivity|done].
  unfold runCallback, asBot.
  erewrite assign_insert by (cbn; apply lookup_insert_eq).
  unfold send, effect, set_effects. cbn.
  by rewrite insert_insert_eq, <- !app_assoc.
Qed.

Lemma asUser_clients now token b p this w :
  clients (asUser constants getUserByToken now token b p this w) = clients w.
Proof.
  unfold asUser. destruct (getUserByToken (directory w) token); [|done].
  set (w6 := match asOnlineUser _ _ _ with Some _ => _ | None => _ end).
  assert (clients w6 = clients w) as <-
    by (unfold w6; by destruct (asOnlineUser _ _ _)).
  destruct (truthy_opt _); [|done].
  by destruct (registries_eq _ _ (updatePresence_registries constants now
                                    this w6)) as (_ & ? & _).
Qed.

Lemma run_keeps_flag es w :
  (∀ module client json now w,
     hasBot w = true → hasBot (handler module client json now w) = true) →
  hasBot w = true →
  hasBot (run constants getUserByToken handler es w) = true.
Proof.
  intros Hh. revert w. unfold run.
  induction es as [|e es IH]; intros w Hw; [done|]. cbn [foldl].
  apply IH. by apply turn_keeps_flag.
Qed.

(** X5. The bot flag is never cleared: once it is set, it is set after any
    sequence of events, the close of the session of the bot included,
    provided the handlers of [messages/*] do not clear it.  From then on a
    handshake with the secret of the bot is deferred as the handshake of a
    user, so no later session gets the bot identity. *)
Theorem bot_flag_kept es w :
  (∀ module client json now w,
     hasBot w = true → hasBot (handler module client json now w) = true) →
  hasBot w = true →
  let w' := run constants getUserByToken handler es w in
  hasBot w' = true
  ∧ ∀ now hello this c,
      objects w' !! this = Some c →
      hasInitialized c = false →
      GatewayMessage.type hello = "initialize" →
      timers (handleMessage constants handler now (Json hello) this w')
      = timers w'
        ++ [(now + 1000,
             AsUser this (GatewayMessage.token hello)
               (GatewayMessage.broadcast hello)
               (GatewayMessage.presence hello))].
Proof.
  intros Hh Hw w'. pose proof (run_keeps_flag es w Hh Hw) as Hw'.
  split; [done|]. intros now hello this c Hc Hinit Hty.
  rewrite (handleMessage_first now hello this c w' Hc Hinit Hty).
  cbn [timers]. rewrite deferred_user; [done|by left].
Qed.

(** X6. A session that closes before the callback of its handshake has run
    is registered all the same when the callback runs: it has left the
    [clients] registry, and it is appended to the index entry of the user
    of its token, which gets an online entry.  A later broadcast to that
    user writes to the closed socket. *)
Theorem login_after_close now t due hello this c user w :
  objects w !! this = Some c →
  hasInitialized c = false →
  userId c = None →
  GatewayMessage.type hello = "initialize" →
  timers w = [] →
  now + 1000 ≤ due →
  hasBot w = true
  ∨ GatewayMessage.token hello ≠ DISCORD_TOKEN constants →
  getUserByToken (directory w) (GatewayMessage.token hello) = Some user →
  let w' := run constants getUserByToken handler
              [ (now, Message this (Json hello)); (t, Close this);
                (due, Timeout) ] w in
  (this ∉ clients w')
  ∧ users w' !! User.userId user
    = Some (default [] (users w !! User.userId user) ++ [this])
  ∧ is_Some (onlineUsers w' !! User.userId user).
Proof.
  intros Hc Hinit Hu Hty Htm Hdue Hbot Hfound w'. unfold w', run.
  cbn [foldl].
  change (turn constants getUserByToken handler w
            (now, Message this (Json hello)))
    with (handleMessage constants handler now (Json hello) this w).
  rewrite (handleMessage_first now hello this c w Hc Hinit Hty).
  rewrite Htm, (deferred_user this hello w Hbot). cbn [app].
  set (w1 := mkWorld _ _ _ _ _ _ _ _ _).
  set (c1 := set_hasInitialized true c).
  assert (objects w1 !! this = Some c1) as Hc1 by apply lookup_insert_eq.
  change (turn constants getUserByToken handler w1 (t, Close this))
    with (handleClose t this w1).
  rewrite (handleClose_anonymous t this c1 w1 Hc1 Hu).
  destruct (registries_eq _ _ (unlink_registries t this c1 w1))
    as (_ & Hcl & Hus & Hon & _ & Hdi & Hti).
  destruct (unlink_spec t this c1 w1 Hc1) as (_ & _ & _ & _ & _ & Hsame).
  specialize (Hsame this). rewrite Hc1 in Hsame.
  inversion Hsame as [? c2 _ E1 E2|]; subst. symmetry in E2.
  set (w2 := unlink t this c1 w1) in *.
  erewrite turn_timeout; [|exact Hti|done].
  unfold runCallback.
  set (w3 := set_timers [] _).
  assert (getUserByToken (directory w3) (GatewayMessage.token hello)
          = Some user) as Hfound3 by (cbn; by rewrite Hdi).
  rewrite asUser_clients.
  destruct (asUser_found constants getUserByToken due
              (GatewayMessage.token hello) (GatewayMessage.broadcast hello)
              (GatewayMessage.presence hello) this w3 user Hfound3)
    as (-> & _ & [[Hno _]|(online & _ & ->)]).
  { cbn in Hno. by rewrite E2 in Hno. }
  split_and!.
  - cbn. apply not_elem_of_difference. right. by apply elem_of_singleton.
  - rewrite lookup_insert_eq. cbn. by rewrite Hus.
  - rewrite lookup_insert_eq. eauto.
Qed.

End Handshake.

(** ** Listening along, further *)

Lemma syncWith_follower now seek this c h hc w :
  objects w !! this = Some c →
  listeningWith c = Some h →
  objects w !! h = Some hc →
  syncWith now seek this w
  = set_effects (effects w ++ [Send this (syncFrame now seek hc)]) w.
Proof. intros Hc Hh Hhc. unfold syncWith. by rewrite Hc, Hh, Hhc. Qed.

Lemma listenAlong_registries now client this w :
  registries (listenAlong now client this w) = registries w.
Proof. unfold listenAlong, syncWith. by repeat case_match. Qed.

Lemma listenAlong_effects now client this hc w :
  objects w !! client = Some hc →
  is_Some (objects w !! this) →
  effects (listenAlong now client this w)
  = effects w ++ [Send this (syncFrame now true hc)].
Proof.
  intros Hhc [c Hc]. unfold listenAlong.
  set (w2 := assign this _ _).
  pose proof (listenAlong_objects now client this w) as Ho.
  unfold listenAlong in Ho. fold w2 in Ho.
  rewrite syncWith_objects in Ho.
  pose proof (Ho this) as Hthis. pose proof (Ho client) as Hclient.
  rewrite Hc in Hthis. rewrite Hhc in Hclient. simpl in Hthis, Hclient.
  erewrite syncWith_follower; [|exact Hthis| |exact Hclient].
  - unfold syncFrame, joined. by destruct hc.
  - unfold joined. simpl. by rewrite decide_True.
Qed.

(** X7. [listenAlong] writes one frame, to the follower: a sync frame with
    the track, the progress and the paused flag of the host, with [seek]
    set.  Afterwards the follower follows the host and is listed by it; the
    registries are untouched, and the host is sent nothing. *)
Theorem listenAlong_sync now client this hc w :
  objects w !! client = Some hc →
  is_Some (objects w !! this) →
  effects (listenAlong now client this w)
  = effects w ++ [Send this (syncFrame now true hc)]
  ∧ follows (listenAlong now client this w) this client
  ∧ along (listenAlong now client this w) this client
  ∧ registries (listenAlong now client this w) = registries w.
Proof.
  intros Hhc Hc. split_and!.
  - by apply listenAlong_effects.
  - apply follows_join. left. done.
  - apply along_join. right. split_and!; [done|done|by eexists].
  - apply listenAlong_registries.
Qed.

Lemma objDelete_absent k l : k ∉ l → objDelete k l = l.
Proof.
  unfold objDelete. induction l as [|x l IH]; [done|].
  intros [Hx Hl]%not_elem_of_cons.
  rewrite filter_cons, decide_True by done. by rewrite IH.
Qed.

Lemma objDelete_objSet k l : k ∉ l → objDelete k (objSet k l) = l.
Proof.
  intros Hk. unfold objSet. rewrite decide_False by done.
  unfold objDelete. rewrite filter_app, filter_cons, decide_False by tauto.
  rewrite filter_nil, app_nil_r. by apply objDelete_absent.
Qed.

(** X8. [stopListeningAlong] undoes [listenAlong]: for a client that
    followed nobody and was not listed by the host, joining the host and
    leaving it again gives every client object back as it was, and the
    registries as they were. *)
Theorem listenAlong_undone now now' host client this c hc w :
  objects w !! this = Some c →
  listeningWith c = None →
  objects w !! client = Some hc →
  this ∉ listeningAlong hc →
  objects (stopListeningAlong now' host this (listenAlong now client this w))
  = objects w
  ∧ registries
      (stopListeningAlong now' host this (listenAlong now client this w))
    = registries w.
Proof.
  intros Hc Hnone Hhc Hnot. split.
  - apply map_eq. intros x.
    pose proof (listenAlong_objects now client this w this) as Hthis.
    rewrite Hc in Hthis. simpl in Hthis.
    erewrite stopListeningAlong_objects; [|exact Hthis|].
    2:{ unfold joined. simpl. by rewrite decide_True. }
    rewrite listenAlong_objects.
    destruct (objects w !! x) as [xc|] eqn:Hx; [|done]. simpl. f_equal.
    unfold stopped, joined. simpl.
    destruct xc. repeat case_decide; simplify_eq; simpl in *; subst;
      rewrite ?objDelete_objSet by done; done.
  - by rewrite stopListeningAlong_registries, listenAlong_registries.
Qed.

Lemma stopListeningAlong_detached now host this w c :
  objects (stopListeningAlong now host this w) !! this = Some c →
  listeningWith c = None.
Proof.
  destruct (objects w !! this) as [c0|] eqn:Hc0.
  - destruct (listeningWith c0) as [h|] eqn:Hh.
    + rewrite (stopListeningAlong_objects now host this w c0 h this Hc0 Hh).
      rewrite Hc0. simpl. intros [= <-]. unfold stopped. simpl.
      by rewrite decide_True.
    + rewrite stopListeningAlong_idle; [congruence|].
      intros ? ?. congruence.
  - rewrite stopListeningAlong_idle; [congruence|]. intros ? ?. congruence.
Qed.

(** X9. [stopListeningAlong] is idempotent: a second call on the same
    client, with either value of [host], changes nothing, so a follower is
    told at most once that its host left. *)
Theorem stopListeningAlong_twice now now' host host' this w :
  stopListeningAlong now' host' this (stopListeningAlong now host this w)
  = stopListeningAlong now host this w.
Proof.
  apply stopListeningAlong_idle. intros c.
  apply stopListeningAlong_detached.
Qed.

Lemma syncAll now this c l w :
  objects w !! this = Some c →
  (∀ f, f ∈ l → follows w f this) →
  foldl (λ w listener, syncWith now true listener w) w l
  = set_effects
      (effects w ++ map (λ f, Send f (syncFrame now true c)) l) w.
Proof.
  revert w. induction l as [|f l IH]; intros w Hc Hl.
  - cbn. rewrite app_nil_r. by destruct w.
  - cbn [foldl map].
    destruct (Hl f) as (fc & Hfc & Hfh); [by left|].
    rewrite (syncWith_follower now true f fc this c w Hfc Hfh Hc).
    rewrite IH; [|done|].
    + unfold set_effects. cbn. by rewrite <- app_assoc.
    + intros f' Hf'. destruct (Hl f') as (fc' & ? & ?); [by right|].
      by exists fc'.
Qed.

(** X10. [updateListeners] on a host whose listed clients all follow it:
    every listed client is sent one sync frame with the state of the host
    and [seek] set, in the order in which the clients joined; nothing else
    changes, and a host without listed clients causes no frame. *)
Theorem updateListeners_sync now this c w :
  objects w !! this = Some c →
  (∀ f, f ∈ listeningAlong c → follows w f this) →
  updateListeners now this w
  = set_effects
      (effects w
       ++ map (λ f, Send f (syncFrame now true c)) (listeningAlong c)) w.
Proof.
  intros Hc Hl. unfold updateListeners. rewrite Hc.
  destruct (listeningAlong c) as [|f l] eqn:E.
  - cbn. rewrite app_nil_r. by destruct w.
  - cbn [length Nat.ltb Nat.leb]. by apply (syncAll now this c).
Qed.

(** X11. [handleClose] writes only to the clients that the closing client
    lists: the frames written to any other socket are as before.  In
    particular the host of a follower that closes is not told. *)
Theorem handleClose_writes now this c w x :
  objects w !! this = Some c →
  x ∉ listeningAlong c →
  sentTo x (effects (handleClose now this w)) = sentTo x (effects w).
Proof.
  intros Hc Hx.
  destruct (handleClose_unlink now this c w Hc) as [_ ->].
  rewrite sentTo_app. cbn [sentTo]. rewrite app_nil_r.
  destruct (unlink_spec now this c w Hc) as (l & Hl & _ & _ & Hsent & _).
  rewrite Hsent.
  assert (bool_decide (x ∈ l) = false) as ->.
  { apply bool_decide_eq_false. intros [(bc & Hbc & Hin) _]%Hl. congruence. }
  by rewrite andb_false_r, app_nil_r.
Qed.

(** ** The close of a session and the user index *)

Lemma indexOf_ge x l : -1 ≤ indexOf x l.
Proof.
  induction l as [|y l IH]; simpl; [done|].
  destruct (String.eqb _ _); [done|].
  destruct (indexOf x l <? 0) eqn:Hlt; [done|]. lia.
Qed.

Lemma indexOf_absent x l : x ∉ l → indexOf x l = -1.
Proof.
  induction l as [|y l IH]; simpl; [done|].
  intros [Hx Hl]%not_elem_of_cons.
  destruct (String.eqb_spec y x) as [->|_]; [done|].
  by rewrite IH.
Qed.

Lemma indexOf_elem x l : x ∈ l → 0 ≤ indexOf x l.
Proof.
  induction l as [|y l IH]; simpl; [by intros ?%elem_of_nil|].
  destruct (String.eqb_spec y x) as [->|Hne]; [done|].
  intros [->|Hin]%elem_of_cons; [done|]. specialize (IH Hin).
  rewrite (proj2 (Z.ltb_ge _ _)) by done. lia.
Qed.

Lemma splice_withoutFirst x l :
  x ∈ l → splice1 (indexOf x l) l = withoutFirst x l.
Proof.
  induction l as [|y l IH]; simpl; [by intros ?%elem_of_nil|].
  destruct (String.eqb_spec y x) as [->|Hne].
  - intros _. unfold splice1. simpl. by rewrite drop_0.
  - intros [->|Hin]%elem_of_cons; [done|].
    pose proof (indexOf_elem x l Hin) as Hge.
    rewrite (proj2 (Z.ltb_ge _ _)) by done.
    by rewrite splice1_cons, IH.
Qed.

Lemma splice_last {A} (l : list A) :
  splice1 (-1) l = take (length l - 1) l.
Proof.
  unfold splice1. simpl.
  destruct l as [|x l]; [done|].
  replace (Z.to_nat (Z.max (Z.of_nat (length (x :: l)) + -1) 0))
    with (length l) by (simpl; lia).
  replace (length (x :: l) - 1)%nat with (length l) by (simpl; lia).
  rewrite (drop_ge (x :: l)) by (simpl; lia). by rewrite app_nil_r.
Qed.

Lemma splice1_sublist {A} (i : Z) (l : list A) : splice1 i l `sublist_of` l.
Proof. unfold splice1. rewrite <- delete_take_drop. apply sublist_delete. Qed.

Lemma withoutFirst_single x l :
  x ∈ l → (length l < 2)%nat → withoutFirst x l = [].
Proof.
  destruct l as [|y [|z l]]; simpl; [by intros ?%elem_of_nil| |lia].
  intros ->%list_elem_of_singleton _. by rewrite String.eqb_refl.
Qed.

Lemma withoutFirst_NoDup x l : NoDup l → x ∉ withoutFirst x l.
Proof.
  induction l as [|y l IH]; simpl; [by intros _ ?%elem_of_nil|].
  intros [Hy Hl]%NoDup_cons.
  destruct (String.eqb_spec y x) as [->|Hne]; [done|].
  intros [->|Hin]%elem_of_cons; [done|]. by apply IH.
Qed.

(** X12. After the close of a session that its user's index entry lists, a
    broadcast to the user is written to the other sessions of the entry, in
    their order, the closed session being taken out at its first
    occurrence; after the close of the only session it is written to
    nobody: the entry is deleted, and the broadcast does nothing, or, for
    an id that names a property of [Object.prototype], throws. *)
Theorem broadcast_after_close now now' this c id sessions payload w :
  objects w !! this = Some c →
  userId c = Some id →
  truthy id = true →
  users w !! id = Some sessions →
  this ∈ sessions →
  effects (broadcast now' id payload (handleClose now this w))
  = effects (handleClose now this w)
    ++ (if (length sessions <? 2)%nat && bool_decide (id ∈ objectPrototype)
        then [Throw "TypeError: clients is not iterable"]
        else map (λ s, Send s (stamp now' payload))
               (withoutFirst this sessions)).
Proof.
  intros Hc Hu Ht Hs Hin. rewrite broadcast_trace. cbn [effects set_effects].
  f_equal.
  destruct (handleClose_registered now this c id sessions w Hc Hu Ht Hs)
    as (_ & _ & -> & _).
  destruct (length sessions <? 2)%nat eqn:Hlen.
  - rewrite lookup_delete_eq. apply Nat.ltb_lt in Hlen. simpl.
    case_bool_decide; [done|]. by rewrite withoutFirst_single.
  - rewrite lookup_insert_eq. cbn. f_equal. by apply splice_withoutFirst.
Qed.

(** X13. The close of a session that has a user id but is not in the index
    entry of that id, as the session of the bot is when a user has the id
    ["bot"]: [indexOf] answers [-1] and [splice(-1, 1)] removes the last
    session of the entry, which is another session; an entry of less than
    two sessions is deleted.  The online entry of the id is removed. *)
Theorem handleClose_unlisted now this c id sessions w :
  objects w !! this = Some c →
  userId c = Some id →
  truthy id = true →
  users w !! id = Some sessions →
  this ∉ sessions →
  users (handleClose now this w) !! id
  = (if (length sessions <? 2)%nat then None
     else Some (take (length sessions - 1) sessions))
  ∧ onlineUsers (handleClose now this w) !! id = None.
Proof.
  intros Hc Hu Ht Hs Hin.
  destruct (handleClose_registered now this c id sessions w Hc Hu Ht Hs)
    as (_ & -> & -> & _).
  split; [|apply lookup_delete_eq].
  destruct (length sessions <? 2)%nat.
  - apply lookup_delete_eq.
  - by rewrite lookup_insert_eq, indexOf_absent, splice_last.
Qed.

(** ** A session from its connection to its login *)

Lemma unlink_idle now this c w :
  objects w !! this = Some c →
  listeningWith c = None →
  listeningAlong c = [] →
  unlink now this c w = w.
Proof.
  intros Hc Hw Ha. unfold unlink. rewrite Hw. cbn.
  by rewrite Hc, Ha.
Qed.

Lemma added_app w w' l :
  effects w' = effects w ++ l → added w w' = l.
Proof. intros E. unfold added. by rewrite E, drop_app_length. Qed.

Lemma added_refl w w' : effects w' = effects w → added w w' = [].
Proof. intros E. unfold added. rewrite E. apply drop_all. Qed.

Section Session.

Variable constants : Constants.
Variable getUserByToken : gmap string User.t → string → option User.t.

(** X14. A connection that is accepted and closed without a handshake: the
    [clients] registry, the user index, the directories and the timers are
    as before the connection.  Its socket was sent the init frame, and the
    close calls the presence publisher with no user id. *)
Theorem connection_closed now t id w :
  objects w !! id = None →
  id ∉ clients w →
  handleClose t id (handleConnection constants now id w)
  = mkWorld (hasBot w) (clients w) (users w) (onlineUsers w) (recentUsers w)
      (<[id := newClient now]> (objects w)) (directory w) (timers w)
      (effects w
       ++ [ Send id (stamp now (GATEWAY_INIT constants now));
            Publish (ById None) None ]).
Proof.
  intros Ho Hcl.
  assert (objects (handleConnection constants now id w) !! id
          = Some (newClient now)) as Hc by apply lookup_insert_eq.
  rewrite (handleClose_anonymous t id _ _ Hc eq_refl).
  rewrite (unlink_idle t id _ _ Hc eq_refl eq_refl).
  unfold handleConnection, send, effect, set_effects, set_clients. cbn.
  rewrite <- app_assoc. f_equal. apply set_eq. intros x.
  rewrite elem_of_difference, elem_of_union, elem_of_singleton.
  split; [by intros [[->|?] ?]|]. intros Hx. split; [by right|by intros ->].
Qed.

Lemma updatePresence_debounced now this c w :
  objects w !! this = Some c →
  now - lastUpdate c < 4000 →
  updatePresence constants now this w = w.
Proof.
  intros Hc Hlt. unfold updatePresence. rewrite Hc.
  by rewrite (proj2 (Z.ltb_lt _ _)).
Qed.

Lemma updatePresence_objects now this w x :
  x ≠ this →
  objects (updatePresence constants now this w) !! x = objects w !! x.
Proof.
  intros Hx. unfold updatePresence.
  repeat case_match; try done; cbn; by rewrite lookup_alter_ne.
Qed.

Lemma updatePresence_fields now this w c :
  objects w !! this = Some c →
  ∃ c', objects (updatePresence constants now this w) !! this = Some c'
        ∧ c' = set_lastUpdate (lastUpdate c') c.
Proof.
  intros Hc. unfold updatePresence. rewrite Hc.
  destruct (now - lastUpdate c <? 4000).
  { exists c. split; [done|by destruct c]. }
  exists (set_lastUpdate now c).
  split; [|done].
  repeat case_match; cbn; by rewrite lookup_alter_eq, Hc.
Qed.

(** The world that [asUser] hands to [updatePresence] for a token of the
    directory. *)
Lemma asUser_resolved now token b p this c user w :
  objects w !! this = Some c →
  getUserByToken (directory w) token = Some user →
  ∃ w6,
    asUser constants getUserByToken now token b p this w
    = (if truthy_opt (User.presenceToken user)
       then updatePresence constants now this w6 else w6)
    ∧ objects w6 !! this
      = Some (set_presenceMode (default "None" p)
                (set_socialStatus (default "Everyone" b)
                   (set_userId (Some (User.userId user)) c)))
    ∧ (∀ x, x ≠ this → objects w6 !! x = objects w !! x)
    ∧ effects w6 = effects w
    ∧ timers w6 = timers w
    ∧ onlineUsers w6 !! User.userId user
      = Some {| OnlineUser.socialStatus := default "Everyone" b;
                OnlineUser.username := User.username user;
                OnlineUser.discriminator := User.discriminator user;
                OnlineUser.userId := User.userId user;
                OnlineUser.avatar := User.avatar user;
                OnlineUser.progress := progress c;
                OnlineUser.listeningTo := listeningTo c |}.
Proof.
  intros Hc Hu. unfold asUser. rewrite Hu.
  set (c4 := set_presenceMode (default "None" p)
               (set_socialStatus (default "Everyone" b)
                  (set_userId (Some (User.userId user)) c))).
  set (w5 := set_recentUsers _ _).
  assert (∀ x, objects w5 !! x
               = objects
                   (assign this (set_presenceMode (default "None" p))
                      (assign this (set_socialStatus (default "Everyone" b))
                         (assign this (set_userId (Some (User.userId user)))
                            w))) !! x) as Ho by done.
  assert (objects w5 !! this = Some c4) as Hc5.
  { rewrite Ho, !assign_lookup, !decide_True, Hc by done. done. }
  unfold asOnlineUser. rewrite Hc5.
  eexists. split; [done|]. split_and!; [done| |done|done|].
  - intros x Hx. cbn [objects set_onlineUsers].
    rewrite Ho, !assign_lookup. by rewrite !decide_False.
  - cbn. by rewrite lookup_insert_eq.
Qed.

Lemma asUser_session now token b p this c user w :
  objects w !! this = Some c →
  getUserByToken (directory w) token = Some user →
  ∃ c', objects (asUser constants getUserByToken now token b p this w) !! this
        = Some c'
        ∧ userId c' = Some (User.userId user)
        ∧ hasInitialized c' = hasInitialized c
        ∧ socialStatus c' = default "Everyone" b
        ∧ presenceMode c' = default "None" p.
Proof.
  intros Hc Hu.
  destruct (asUser_resolved now token b p this c user w Hc Hu)
    as (w6 & -> & Hc6 & _).
  destruct (truthy_opt _); [|by eexists].
  destruct (updatePresence_fields now this w6 _ Hc6) as (c' & -> & E).
  exists c'. split; [done|]. by rewrite E.
Qed.

Lemma asUser_others now token b p this w x :
  is_Some (objects w !! this) →
  x ≠ this →
  objects (asUser constants getUserByToken now token b p this w) !! x
  = objects w !! x.
Proof.
  intros [c Hc] Hx.
  destruct (getUserByToken (directory w) token) as [user|] eqn:Hu;
    [|by unfold asUser; rewrite Hu].
  destruct (asUser_resolved now token b p this c user w Hc Hu)
    as (w6 & -> & _ & Ho & _).
  destruct (truthy_opt _); [|by apply Ho].
  rewrite updatePresence_objects by done. by apply Ho.
Qed.

Lemma asUser_timers now token b p this w :
  timers (asUser constants getUserByToken now token b p this w) = timers w.
Proof.
  unfold asUser. destruct (getUserByToken (directory w) token); [|done].
  set (w6 := match asOnlineUser _ _ _ with Some _ => _ | None => _ end).
  assert (timers w6 = timers w) as <-
    by (unfold w6; by destruct (asOnlineUser _ _ _)).
  destruct (truthy_opt _); [|done].
  by destruct (registries_eq _ _ (updatePresence_registries constants now
                                    this w6)) as (_ & _ & _ & _ & _ & _ & ?).
Qed.

(** X15. The login of a session, when the callback finds the user of the
    token: the session gets the id of the user, the social status of the
    handshake, ["Everyone"] when it named none, and the presence mode of
    the handshake, ["None"] when it named none.  The online entry of the
    user is written anew from the user record and from the track and the
    progress of this session, whatever entry another session of the user
    had left. *)
Theorem asUser_login now token b p this c user w :
  objects w !! this = Some c →
  getUserByToken (directory w) token = Some user →
  let w' := asUser constants getUserByToken now token b p this w in
  onlineUsers w' !! User.userId user
  = Some {| OnlineUser.socialStatus := default "Everyone" b;
            OnlineUser.username := User.username user;
            OnlineUser.discriminator := User.discriminator user;
            OnlineUser.userId := User.userId user;
            OnlineUser.avatar := User.avatar user;
            OnlineUser.progress := progress c;
            OnlineUser.listeningTo := listeningTo c |}
  ∧ ∃ c', objects w' !! this = Some c'
          ∧ userId c' = Some (User.userId user)
          ∧ socialStatus c' = default "Everyone" b
          ∧ presenceMode c' = default "None" p.
Proof.
  intros Hc Hu w'. split.
  - unfold w'.
    destruct (asUser_resolved now token b p this c user w Hc Hu)
      as (w6 & -> & _ & _ & _ & _ & Hon).
    destruct (truthy_opt _); [|done].
    by destruct (registries_eq _ _ (updatePresence_registries constants now
                                      this w6)) as (_ & _ & _ & -> & _).
  - destruct (asUser_session now token b p this c user w Hc Hu)
      as (c' & ? & ? & _ & ? & ?).
    by exists c'.
Qed.

(** X16. The presence push of a login is debounced like any other: when
    the callback finds the user less than 4000 ms after the last presence
    update of the session, which a new session counts from its connection,
    the login calls the presence publisher not at all and writes no frame,
    also for a user with a presence token. *)
Theorem asUser_presence_debounced now token b p this c user w :
  objects w !! this = Some c →
  getUserByToken (directory w) token = Some user →
  now - lastUpdate c < 4000 →
  effects (asUser constants getUserByToken now token b p this w) = effects w.
Proof.
  intros Hc Hu Hlt.
  destruct (asUser_resolved now token b p this c user w Hc Hu)
    as (w6 & -> & Hc6 & _ & He & _).
  destruct (truthy_opt _); [|done].
  by rewrite (updatePresence_debounced now this _ w6 Hc6).
Qed.

(** X17. [updatePresence] publishes a presence that is not [null] only for
    a session of a user of the directory that plays a track, has a presence
    mode other than ["None"], and had its last update 4000 ms ago or more.
    The presence is of type Listening in mode ["Simple"] and Playing
    otherwise; in every mode its state is the artist, its large image the
    icon of the track, its time window starts when the session started
    listening and spans the duration of the track in ms, and its two
    buttons link to the track and to the listen-along page of the user. *)
Theorem updatePresence_payload now this c subject presence w :
  objects w !! this = Some c →
  Publish subject (Some presence)
  ∈ added w (updatePresence constants now this w) →
  ∃ user track,
    subject = ByUser user
    ∧ getUser this w = Some user
    ∧ listeningTo c = Some track
    ∧ presenceMode c ≠ "None"
    ∧ 4000 ≤ now - lastUpdate c
    ∧ Presence.type presence
      = (if String.eqb (presenceMode c) "Simple"
         then Presence.Listening else Presence.Playing)
    ∧ Presence.state presence = Track.artist track
    ∧ Presence.large_image presence = Track.icon track
    ∧ Presence.timestamps presence
      = (startedListening c,
         default 0 (startedListening c) + Track.duration track * 1000)
    ∧ Presence.buttons presence
      = [ ("Play on Laudiolin",
           String.append (WEB_TARGET constants)
             (String.append "/track/" (Track.id track)));
          ("Listen Along",
           String.append (WEB_TARGET constants)
             (String.append "/listen/" (User.userId user))) ].
Proof.
  intros Hc. unfold updatePresence. rewrite Hc.
  destruct (now - lastUpdate c <? 4000) eqn:Hlt.
  { rewrite added_refl by done. by intros ?%elem_of_nil. }
  apply Z.ltb_ge in Hlt.
  assert (getUser this (assign this (set_lastUpdate now) w) = getUser this w)
    as ->.
  { unfold getUser. cbn. rewrite lookup_alter_eq, Hc. by destruct c. }
  destruct (getUser this w) as [user|] eqn:Hu.
  2:{ rewrite added_refl by done. by intros ?%elem_of_nil. }
  destruct (String.eqb_spec (presenceMode c) "None") as [Hm|Hm].
  { destruct (truthy_opt _).
    - erewrite added_app by done. by intros [=]%list_elem_of_singleton.
    - rewrite added_refl by done. by intros ?%elem_of_nil. }
  destruct (listeningTo c) as [track|] eqn:Hl.
  2:{ erewrite added_app by done. by intros [=]%list_elem_of_singleton. }
  erewrite added_app by done. intros [= -> ->]%list_elem_of_singleton.
  exists user, track. split_and!; try done.
  all: unfold simplePresence; destruct (String.eqb _ "Simple"); [|done];
    by destruct (CUSTOM_LISTENING constants).
Qed.

End Session.

(** ** The online status and the recently-played list, further *)

Lemma updateOnlineStatus_found sync this c id w :
  objects w !! this = Some c →
  userId c = Some id →
  is_Some (onlineUsers w !! id) ∨ is_Some (directory w !! id) →
  ∃ online,
    updateOnlineStatus sync this w
    = Some (set_onlineUsers (<[id := online]> (onlineUsers w)) w)
    ∧ OnlineUser.listeningTo online = listeningTo c
    ∧ OnlineUser.progress online = default (progress c) sync
    ∧ match onlineUsers w !! id with
      | Some before =>
          OnlineUser.socialStatus online = OnlineUser.socialStatus before
          ∧ OnlineUser.username online = OnlineUser.username before
          ∧ OnlineUser.userId online = OnlineUser.userId before
      | None =>
          OnlineUser.socialStatus online = socialStatus c
          ∧ ∃ user, directory w !! id = Some user
                    ∧ OnlineUser.username online = User.username user
                    ∧ OnlineUser.userId online = User.userId user
      end.
Proof.
  intros Hc Hu Hsome. unfold updateOnlineStatus. rewrite Hc, Hu. cbn.
  destruct (onlineUsers w !! id) as [before|] eqn:Hon.
  - eexists. split; [done|]. done.
  - destruct Hsome as [[? [=]]|[user Hd]].
    unfold asOnlineUser, getUser. rewrite Hc, Hu. cbn. rewrite Hd.
    eexists. split; [done|]. split_and!; try done. by exists user.
Qed.

(** X18. [updateOnlineStatus] on a session of a user that has an online
    entry or a record in the directory: afterwards the user has an online
    entry with the track of this session and with the progress [sync], the
    progress of the session when [sync] is not given; nothing else in the
    gateway changes.  An entry that existed keeps its social status and its
    name, also when another session of the user wrote them; an entry that
    did not exist is made from the directory record and this session. *)
Theorem updateOnlineStatus_entry sync this c id w :
  objects w !! this = Some c →
  userId c = Some id →
  is_Some (onlineUsers w !! id) ∨ is_Some (directory w !! id) →
  ∃ online,
    updateOnlineStatus sync this w
    = Some (set_onlineUsers (<[id := online]> (onlineUsers w)) w)
    ∧ OnlineUser.listeningTo online = listeningTo c
    ∧ OnlineUser.progress online = default (progress c) sync
    ∧ match onlineUsers w !! id with
      | Some before =>
          OnlineUser.socialStatus online = OnlineUser.socialStatus before
          ∧ OnlineUser.username online = OnlineUser.username before
          ∧ OnlineUser.userId online = OnlineUser.userId before
      | None =>
          OnlineUser.socialStatus online = socialStatus c
          ∧ ∃ user, directory w !! id = Some user
                    ∧ OnlineUser.username online = User.username user
                    ∧ OnlineUser.userId online = User.userId user
      end.
Proof. apply updateOnlineStatus_found. Qed.

(** X19. [updateOnlineStatus] does not look at the recent directory: on a
    session of a user with a recent entry, as a device has that stays
    connected after another device of the user closed while it played, the
    user is afterwards in the online and in the recent directory. *)
Theorem updateOnlineStatus_recent sync this c id w :
  objects w !! this = Some c →
  userId c = Some id →
  is_Some (directory w !! id) →
  is_Some (recentUsers w !! id) →
  ∃ w', updateOnlineStatus sync this w = Some w' ∧ ¬ exclusive w'.
Proof.
  intros Hc Hu Hd Hr.
  destruct (updateOnlineStatus_found sync this c id w Hc Hu) as (o & -> & _);
    [by right|].
  eexists. split; [done|]. intros Hex. specialize (Hex id). cbn in Hex.
  rewrite lookup_insert_eq in Hex. destruct Hr as [r Hr].
  rewrite Hex in Hr; [done|eauto].
Qed.

Lemma recents_again track l : recents track (recents track l) = recents track l.
Proof.
  rewrite !recents_removeFirst. cbn. rewrite String.eqb_refl.
  by rewrite take_take.
Qed.

Lemma addRecentlyPlayed_some now track this c id user w :
  objects w !! this = Some c →
  userId c = Some id →
  directory w !! id = Some user →
  addRecentlyPlayed now track this w
  = Some
      (broadcast now id
         (mkFrame
            (RecentsMessage
               (recents track (default [] (User.recentlyPlayed user))))
            None)
         (set_directory
            (<[User.userId user :=
                 User.set_recentlyPlayed
                   (recents track (default [] (User.recentlyPlayed user)))
                   user]> (directory w)) w)).
Proof.
  intros Hc Hu Hd. unfold addRecentlyPlayed, getUser. rewrite Hc, Hu.
  cbn [database_getUser default]. rewrite Hd. reflexivity.
Qed.

Lemma addRecentlyPlayed_inv now track this w w1 :
  addRecentlyPlayed now track this w = Some w1 →
  ∃ c id user,
    objects w !! this = Some c ∧ userId c = Some id
    ∧ directory w !! id = Some user.
Proof.
  unfold addRecentlyPlayed, getUser.
  destruct (objects w !! this) as [c|] eqn:Hc; [|done].
  destruct (userId c) as [id|] eqn:Hu; [|done]. cbn [database_getUser].
  destruct (directory w !! id) as [user|] eqn:Hd; [|done].
  intros _. by exists c, id, user.
Qed.

(** X20. Reporting the same track twice stores what reporting it once
    stores: a second [addRecentlyPlayed] with the track succeeds and leaves
    the directory as the first call left it. *)
Theorem addRecentlyPlayed_again now now' track this w w1 :
  addRecentlyPlayed now track this w = Some w1 →
  ∃ w2, addRecentlyPlayed now' track this w1 = Some w2
        ∧ directory w2 = directory w1.
Proof.
  intros H.
  destruct (addRecentlyPlayed_inv now track this w w1 H)
    as (c & id & user & Hc & Hu & Hd).
  rewrite (addRecentlyPlayed_some now track this c id user w Hc Hu Hd) in H.
  injection H as <-.
  remember (recents track (default [] (User.recentlyPlayed user))) as stored
    eqn:Hst.
  rewrite !broadcast_trace.
  set (user' := User.set_recentlyPlayed stored user).
  set (w1 := set_effects _ _).
  assert (objects w1 !! this = Some c) as Hc1 by done.
  assert (directory w1 = <[User.userId user := user']> (directory w))
    as Hd1 by done.
  destruct (decide (User.userId user = id)) as [E|E].
  - assert (directory w1 !! id = Some user') as Hd1'
      by (by rewrite Hd1, E, lookup_insert_eq).
    rewrite (addRecentlyPlayed_some now' track this c id user' w1 Hc1 Hu Hd1').
    eexists. split; [done|]. rewrite broadcast_trace.
    change (directory (set_effects ?l ?w)) with (directory w).
    change (directory (set_directory ?m ?w)) with m.
    change (default [] (User.recentlyPlayed user')) with stored.
    rewrite Hst, recents_again, <- Hst, Hd1.
    change (User.userId user') with (User.userId user).
    by rewrite insert_insert_eq.
  - assert (directory w1 !! id = Some user) as Hd1'
      by (by rewrite Hd1, lookup_insert_ne).
    rewrite (addRecentlyPlayed_some now' track this c id user w1 Hc1 Hu Hd1').
    eexists. split; [done|]. rewrite broadcast_trace.
    change (directory (set_effects ?l ?w)) with (directory w).
    change (directory (set_directory ?m ?w)) with m.
    rewrite <- Hst, Hd1. fold user'.
    by rewrite insert_insert_eq.
Qed.

(** ** The listening relations along the event loop *)

Lemma sameLinks_refl w : sameLinks w w.
Proof. intros x. by destruct (objects w !! x); constructor. Qed.

Lemma sameLinks_objects w w' : objects w' = objects w → sameLinks w w'.
Proof. intros E x. rewrite E. by destruct (objects w !! x); constructor. Qed.

Lemma sameLinks_trans w1 w2 w3 :
  sameLinks w1 w2 → sameLinks w2 w3 → sameLinks w1 w3.
Proof.
  intros H12 H23 x. specialize (H12 x). specialize (H23 x).
  destruct H12 as [c1 c2 [E1 E2]|]; inversion H23 as [? c3 [E3 E4]|]; subst;
    constructor. split; congruence.
Qed.

Lemma sameLinks_assign this f w :
  (∀ c, sameListening c (f c)) → sameLinks w (assign this f w).
Proof.
  intros Hf x. rewrite assign_lookup. case_decide; [|apply sameLinks_refl].
  destruct (objects w !! x); constructor. apply Hf.
Qed.

Lemma sameLinks_follows w w' a b :
  sameLinks w w' → follows w' a b ↔ follows w a b.
Proof.
  intros H. specialize (H a). unfold follows.
  destruct H as [c c' [E1 E2]|].
  - split; intros (? & [= <-] & ?); eexists; (split; [done|]); congruence.
  - split; intros (? & [=] & _).
Qed.

Lemma sameLinks_along w w' a b :
  sameLinks w w' → along w' a b ↔ along w a b.
Proof.
  intros H. specialize (H b). unfold along.
  destruct H as [c c' [E1 E2]|].
  - split; intros (? & [= <-] & ?); eexists; (split; [done|]); congruence.
  - split; intros (? & [=] & _).
Qed.

Lemma sameLinks_inverse w w' : sameLinks w w' → inverse w → inverse w'.
Proof.
  intros H [Hf Hb]. split; intros a b.
  - rewrite (sameLinks_follows w w'), (sameLinks_along w w') by done. apply Hf.
  - rewrite (sameLinks_follows w w'), (sameLinks_along w w') by done. apply Hb.
Qed.

Section Links.

Variable constants : Constants.
Variable getUserByToken : gmap string User.t → string → option User.t.
Variable handler : string → string → GatewayMessage.t → Z → World → World.

Lemma updatePresence_sameLinks now this w :
  sameLinks w (updatePresence constants now this w).
Proof.
  unfold updatePresence.
  repeat case_match; try apply sameLinks_refl;
    by apply (sameLinks_assign this (set_lastUpdate now)).
Qed.

Lemma initialized_sameLinks now data this w :
  sameLinks w (initialized constants now data this w).2.
Proof.
  unfold initialized, ping.
  repeat case_match; try apply sameLinks_refl;
    by apply (sameLinks_assign this (set_hasInitialized true)).
Qed.

Lemma asBot_sameLinks now this w : sameLinks w (asBot constants now this w).
Proof. by apply (sameLinks_assign this (set_userId (Some "bot"))). Qed.

Lemma asUser_sameLinks now token b p this w :
  sameLinks w (asUser constants getUserByToken now token b p this w).
Proof.
  unfold asUser. destruct (getUserByToken (directory w) token) as [user|];
    [|by apply sameLinks_objects].
  set (w4 := assign this (set_presenceMode _) _).
  assert (sameLinks w w4) as H4.
  { unfold w4.
    eapply sameLinks_trans; [|by apply sameLinks_assign].
    eapply sameLinks_trans; [|by apply sameLinks_assign].
    apply (sameLinks_trans _
             (assign this (set_userId (Some (User.userId user))) w));
      [by apply sameLinks_assign|by apply sameLinks_objects]. }
  set (w6 := match asOnlineUser _ _ _ with Some _ => _ | None => _ end).
  assert (sameLinks w w6) as H6.
  { eapply sameLinks_trans; [exact H4|]. apply sameLinks_objects.
    unfold w6. by destruct (asOnlineUser _ _ _). }
  destruct (truthy_opt _); [|done].
  eapply sameLinks_trans; [exact H6|]. apply updatePresence_sameLinks.
Qed.

Lemma handleConnection_inverse now id w :
  objects w !! id = None →
  inverse w → inverse (handleConnection constants now id w).
Proof.
  intros Hid [Hf Hb].
  assert (∀ a b, follows (handleConnection constants now id w) a b
                 ↔ follows w a b) as Hfo.
  { intros a b. unfold follows, handleConnection. cbn.
    destruct (decide (a = id)) as [->|Hne].
    - rewrite lookup_insert_eq, Hid. split; [by intros (? & [= <-] & ?)|].
      by intros (? & [=] & _).
    - by rewrite lookup_insert_ne. }
  assert (∀ a b, along (handleConnection constants now id w) a b
                 ↔ along w a b) as Hal.
  { intros a b. unfold along, handleConnection. cbn.
    destruct (decide (b = id)) as [->|Hne].
    - rewrite lookup_insert_eq, Hid.
      split; [by intros (? & [= <-] & ?%elem_of_nil)|].
      by intros (? & [=] & _).
    - by rewrite lookup_insert_ne. }
  split; intros a b; rewrite Hfo, Hal; [apply Hf|apply Hb].
Qed.

(** X21. The two listening relations stay mutual inverses over every turn
    of the event loop, provided the handlers of [messages/*] keep them so
    and the id of a new connection is new: a connection, a handshake, an
    error reply, the two deferred callbacks and the close of a session all
    keep them. *)
Theorem turn_keeps_inverse w e :
  (∀ module client json now w,
     inverse w → inverse (handler module client json now w)) →
  newId w e.2 →
  inverse w →
  inverse (turn constants getUserByToken handler w e).
Proof.
  intros Hh Hid Hw. destruct e as [now [id|id data|id|]]; unfold turn.
  - by apply handleConnection_inverse.
  - unfold handleMessage. destruct data as [json| |text].
    2,3: (eapply sameLinks_inverse; [|exact Hw]); by apply sameLinks_objects.
    pose proof (initialized_sameLinks now json id w) as Hi.
    destruct (initialized constants now json id w) as [ok w1].
    unfold snd in Hi. apply (sameLinks_inverse _ _ Hi) in Hw.
    destruct ok; unfold negb.
    2:{ eapply sameLinks_inverse; [|exact Hw]. by apply sameLinks_objects. }
    destruct (String.eqb (GatewayMessage.type json) "initialize"); [done|].
    destruct (assoc (GatewayMessage.type json) handlers).
    { apply Hh. eapply sameLinks_inverse; [|exact Hw].
      by apply sameLinks_objects. }
    case_bool_decide;
      (eapply sameLinks_inverse; [|exact Hw]); by apply sameLinks_objects.
  - destruct Hw.
    split; [by apply handleClose_forward|by apply handleClose_backward].
  - destruct (timers w) as [|[due cb] rest]; [done|].
    destruct (due <=? now); [|done].
    assert (inverse (set_timers rest w)) as Hw'.
    { eapply sameLinks_inverse; [|exact Hw]. by apply sameLinks_objects. }
    destruct cb; unfold runCallback.
    + eapply sameLinks_inverse; [apply asBot_sameLinks|done].
    + eapply sameLinks_inverse; [apply asUser_sameLinks|done].
Qed.

End Links.

(** ** The user index along the event loop *)

Lemma consistent_ext w w' :
  users w' = users w → objects w' = objects w → timers w' = timers w →
  consistent w → consistent w'.
Proof.
  intros Hu Ho Ht.
  unfold consistent, indexSound, indexOnce, handshakes, pending.
  by rewrite Hu, Ho, Ht.
Qed.

Lemma start_consistent db : consistent (start db).
Proof.
  unfold consistent, handshakes. split_and!.
  - intros id sessions s H. unfold start in H. cbn [users] in H.
    by rewrite lookup_empty in H.
  - intros id sessions H. unfold start in H. cbn [users] in H.
    by rewrite lookup_empty in H.
  - apply NoDup_nil_2.
  - by intros s ?%elem_of_nil.
  - intros s c H. unfold start in H. cbn [objects] in H.
    by rewrite lookup_empty in H.
Qed.

Lemma handleClose_same now this w x :
  option_Forall2 sameButListening
    (objects w !! x) (objects (handleClose now this w) !! x).
Proof.
  destruct (objects w !! this) as [c|] eqn:Hc.
  - destruct (handleClose_unlink now this c w Hc) as [-> _].
    by destruct (unlink_spec now this c w Hc) as (_ & _ & _ & _ & _ & H).
  - unfold handleClose. rewrite Hc. apply same_refl.
Qed.

Lemma handleClose_timers now this w :
  timers (handleClose now this w) = timers w.
Proof.
  destruct (objects w !! this) as [c|] eqn:Hc;
    [|by unfold handleClose; rewrite Hc].
  unfold handleClose. rewrite Hc.
  fold_unlink now this c w.
  destruct (registries_eq _ _ (unlink_registries now this c w))
    as (_ & _ & _ & _ & _ & _ & Ht).
  by repeat case_match.
Qed.

Lemma sameButListening_session c c' :
  sameButListening c c' →
  userId c' = userId c ∧ hasInitialized c' = hasInitialized c.
Proof. intros ->. done. Qed.

Lemma handleClose_index now this w id sessions :
  users (handleClose now this w) !! id = Some sessions →
  ∃ old, users w !! id = Some old ∧ sessions `sublist_of` old.
Proof.
  destruct (handleClose_directories now this w)
    as [(-> & _ & _)|(c & id0 & sessions0 & Hc & Hu & Ht & Hs)].
  { intros H. by exists sessions. }
  destruct (handleClose_registered now this c id0 sessions0 w Hc Hu Ht Hs)
    as (_ & _ & -> & _).
  destruct (decide (id = id0)) as [->|Hne].
  - destruct (length sessions0 <? 2)%nat.
    + by rewrite lookup_delete_eq.
    + rewrite lookup_insert_eq. intros [= <-]. exists sessions0.
      split; [done|apply splice1_sublist].
  - destruct (length sessions0 <? 2)%nat.
    + rewrite lookup_delete_ne by done. intros H. by exists sessions.
    + rewrite lookup_insert_ne by done. intros H. by exists sessions.
Qed.

Lemma handleClose_consistent now this w :
  consistent w → consistent (handleClose now this w).
Proof.
  intros (Hs & Ho & Hn & Hp & Hi).
  unfold consistent, indexSound, indexOnce, handshakes, pending.
  rewrite handleClose_timers. split_and!; [| |done| |].
  - intros id sessions s (old & Hold & Hsub)%handleClose_index Hin.
    destruct (Hs id old s Hold) as (c & Hc & Hu);
      [by apply (elem_of_sublist sessions)|].
    pose proof (handleClose_same now this w s) as Hsame.
    rewrite Hc in Hsame. inversion Hsame as [? c' Hrel|]; subst.
    exists c'. split; [done|].
    destruct (sameButListening_session c c' Hrel). congruence.
  - intros id sessions (old & Hold & Hsub)%handleClose_index.
    apply (sublist_NoDup sessions old); [by apply (Ho id)|done].
  - intros s (c & Hc & Hinit & Hu)%Hp.
    pose proof (handleClose_same now this w s) as Hsame.
    rewrite Hc in Hsame. inversion Hsame as [? c' Hrel|]; subst.
    exists c'. destruct (sameButListening_session c c' Hrel).
    split_and!; congruence.
  - intros s c' Hc' Hinit.
    pose proof (handleClose_same now this w s) as Hsame.
    rewrite Hc' in Hsame. inversion Hsame as [c ? Hrel E|]; subst.
    destruct (sameButListening_session c c' Hrel) as [-> E'].
    apply (Hi s); [done|congruence].
Qed.

Lemma handleClose_unlists now this id sessions w :
  consistent w →
  id ≠ "" →
  users (handleClose now this w) !! id = Some sessions →
  this ∉ sessions.
Proof.
  intros (Hs & Ho & _) Hid Hl Hin.
  destruct (handleClose_index now this w id sessions Hl) as (old & Hold & Hsub).
  assert (this ∈ old) as Hino by by apply (elem_of_sublist sessions).
  destruct (Hs id old this Hold Hino) as (c & Hc & Hu).
  assert (truthy id = true) as Ht.
  { unfold truthy. by destruct (String.eqb_spec id ""). }
  destruct (handleClose_registered now this c id old w Hc Hu Ht Hold)
    as (_ & _ & Hus & _).
  rewrite Hus in Hl. destruct (length old <? 2)%nat.
  - by rewrite lookup_delete_eq in Hl.
  - rewrite lookup_insert_eq, splice_withoutFirst in Hl by done.
    injection Hl as <-.
    apply (withoutFirst_NoDup this old); [by apply (Ho id)|done].
Qed.

Lemma pop_consistent due cb rest w :
  timers w = (due, cb) :: rest →
  consistent w →
  consistent (set_timers rest w)
  ∧ (target cb ∉ pending (set_timers rest w))
  ∧ ∃ c, objects w !! target cb = Some c
         ∧ hasInitialized c = true ∧ userId c = None.
Proof.
  intros Ht (Hs & Ho & Hn & Hp & Hi). unfold pending in Hn, Hp.
  rewrite Ht in Hn, Hp. cbn in Hn, Hp. apply NoDup_cons in Hn as [Hnot Hn].
  split; [|split].
  - unfold consistent, handshakes, pending. cbn.
    split_and!; [done|done|done| |done].
    intros s Hin. apply Hp. by right.
  - done.
  - apply Hp. by left.
Qed.

Section Index.

Variable constants : Constants.
Variable getUserByToken : gmap string User.t → string → option User.t.
Variable handler : string → string → GatewayMessage.t → Z → World → World.

Lemma handleConnection_consistent now id w :
  objects w !! id = None →
  consistent w → consistent (handleConnection constants now id w).
Proof.
  intros Hid (Hs & Ho & Hn & Hp & Hi).
  unfold consistent, indexSound, indexOnce, handshakes, pending,
    handleConnection. cbn.
  split_and!; [|done|done| |].
  - intros u sessions s Hu Hs'.
    destruct (Hs u sessions s Hu Hs') as (c & Hc & ?).
    exists c. rewrite lookup_insert_ne; [done|]. intros ->. congruence.
  - intros s Hs'. destruct (Hp s Hs') as (c & Hc & ?).
    exists c. rewrite lookup_insert_ne; [done|]. intros ->. congruence.
  - intros s c. destruct (decide (s = id)) as [->|Hne].
    + rewrite lookup_insert_eq. by intros [= <-].
    + rewrite lookup_insert_ne by done. apply Hi.
Qed.

Lemma initialized_consistent now data this w :
  consistent w → consistent (initialized constants now data this w).2.
Proof.
  intros Hw. destruct (objects w !! this) as [c|] eqn:Hc;
    [|by unfold initialized; rewrite Hc].
  destruct (hasInitialized c) eqn:Hinit;
    [by unfold initialized; rewrite Hc, Hinit|].
  destruct (String.eqb_spec (GatewayMessage.type data) "initialize")
    as [Hty|Hty].
  2:{ unfold initialized. rewrite Hc, Hinit.
      apply String.eqb_neq in Hty. by rewrite Hty. }
  rewrite (initialized_first constants now data this c w Hc Hinit Hty).
  destruct Hw as (Hs & Ho & Hn & Hp & Hi).
  assert (userId c = None) as Hnone by by apply (Hi this).
  assert (this ∉ pending w) as Hnp.
  { intros (c' & Hc' & Hi' & _)%Hp. congruence. }
  assert (target (deferred constants this data w) = this) as Ht
    by (unfold deferred; by destruct (_ && _)).
  unfold consistent, indexSound, indexOnce, handshakes, pending. cbn.
  rewrite map_app. cbn. rewrite Ht.
  split_and!; [|done| | |].
  - intros u sessions s Hu Hs'.
    destruct (Hs u sessions s Hu Hs') as (c' & Hc' & Hu').
    destruct (decide (s = this)) as [->|Hne].
    + rewrite lookup_insert_eq. eexists. split; [done|]. cbn. congruence.
    + rewrite lookup_insert_ne by done. eauto.
  - apply NoDup_app. split_and!; [done| |apply NoDup_singleton].
    intros x Hx ->%list_elem_of_singleton. done.
  - intros s [Hs'| ->%list_elem_of_singleton]%elem_of_app.
    + destruct (Hp s Hs') as (c' & Hc' & ? & ?).
      destruct (decide (s = this)) as [->|Hne]; [done|].
      rewrite lookup_insert_ne by done. eauto.
    + rewrite lookup_insert_eq. eexists. split; [done|]. done.
  - intros s c'. destruct (decide (s = this)) as [->|Hne].
    + rewrite lookup_insert_eq. by intros [= <-].
    + rewrite lookup_insert_ne by done. apply Hi.
Qed.

Lemma handleMessage_consistent now data this w :
  (∀ module client json now w,
     consistent w → consistent (handler module client json now w)) →
  consistent w → consistent (handleMessage constants handler now data this w).
Proof.
  intros Hh Hw. unfold handleMessage. destruct data as [json| |text].
  2,3: by apply (consistent_ext w).
  pose proof (initialized_consistent now json this w Hw) as Hi.
  destruct (initialized constants now json this w) as [ok w1].
  unfold snd in Hi. destruct ok; unfold negb.
  2:{ by apply (consistent_ext w1). }
  destruct (String.eqb (GatewayMessage.type json) "initialize"); [done|].
  destruct (assoc (GatewayMessage.type json) handlers).
  { apply Hh. by apply (consistent_ext w1). }
  case_bool_decide; by apply (consistent_ext w1).
Qed.

Lemma runCallback_consistent now due cb rest w :
  timers w = (due, cb) :: rest →
  consistent w →
  consistent (runCallback constants getUserByToken now cb (set_timers rest w)).
Proof.
  intros Ht Hw.
  destruct (pop_consistent due cb rest w Ht Hw)
    as (Hw0 & Hnot & c & Hc & Hinit & Hnone).
  set (w0 := set_timers rest w) in *.
  pose proof Hw0 as (Hs & Ho & Hn & Hp & Hi).
  assert (∀ id sessions, users w0 !! id = Some sessions →
                         target cb ∉ sessions) as Hfree.
  { intros id sessions Hu Hin.
    destruct (Hs id sessions _ Hu Hin) as (c' & Hc' & Hu').
    change (objects w0) with (objects w) in Hc'. congruence. }
  destruct cb as [this|this token b p]; cbn [target] in *; unfold runCallback.
  - unfold asBot. rewrite (assign_insert this _ c) by done.
    unfold consistent, indexSound, indexOnce, handshakes, pending. cbn.
    split_and!; [|done|done| |].
    + intros id sessions s Hu Hin.
      destruct (Hs id sessions s Hu Hin) as (c' & Hc' & Hu').
      exists c'. rewrite lookup_insert_ne; [done|].
      intros <-. by apply (Hfree id sessions Hu).
    + intros s Hin. destruct (Hp s Hin) as (c' & Hc' & ?).
      exists c'. rewrite lookup_insert_ne; [done|]. by intros <-.
    + intros s c'. destruct (decide (s = this)) as [->|Hne].
      * rewrite lookup_insert_eq. intros [= <-]. cbn. congruence.
      * rewrite lookup_insert_ne by done. apply Hi.
  - destruct (getUserByToken (directory w0) token) as [user|] eqn:Hu.
    2:{ apply (consistent_ext w0); [..|done]; unfold asUser; by rewrite Hu. }
    destruct (asUser_found constants getUserByToken now token b p this w0
                user Hu) as (Hus & _ & _).
    destruct (asUser_session constants getUserByToken now token b p this c
                user w0 Hc Hu) as (c' & Hc' & Hu' & Hi' & _).
    assert (∀ x, x ≠ this →
                 objects (asUser constants getUserByToken now token b p
                            this w0) !! x
                 = objects w0 !! x) as Hothers
      by (intros x; apply asUser_others; by exists c).
    change (users w0) with (users w) in *.
    change (objects w0) with (objects w) in *.
    unfold consistent, indexSound, indexOnce, handshakes, pending.
    rewrite asUser_timers, Hus.
    set (w' := asUser _ _ _ _ _ _ _ _) in *.
    split_and!; [| |done| |].
    + intros id sessions s Hl Hin.
      destruct (decide (s = this)) as [->|Hne].
      * exists c'. split; [done|].
        destruct (decide (id = User.userId user)) as [->|Hid]; [done|].
        rewrite lookup_insert_ne in Hl by done.
        by destruct (Hfree id sessions Hl).
      * rewrite Hothers by done.
        destruct (decide (id = User.userId user)) as [->|Hid].
        -- rewrite lookup_insert_eq in Hl. injection Hl as <-.
           apply elem_of_app in Hin as [Hin|Hin%list_elem_of_singleton];
             [|done].
           destruct (users w !! User.userId user) as [old|] eqn:Hold;
             [|by apply elem_of_nil in Hin].
           by apply (Hs (User.userId user) old).
        -- rewrite lookup_insert_ne in Hl by done. by apply (Hs id sessions).
    + intros id sessions Hl.
      destruct (decide (id = User.userId user)) as [->|Hid].
      * rewrite lookup_insert_eq in Hl. injection Hl as <-.
        destruct (users w !! User.userId user) as [old|] eqn:Hold; cbn.
        -- apply NoDup_app.
           split_and!;
             [by apply (Ho (User.userId user) old)| |apply NoDup_singleton].
           intros x Hx ->%list_elem_of_singleton.
           by apply (Hfree (User.userId user) old Hold).
        -- apply NoDup_singleton.
      * rewrite lookup_insert_ne in Hl by done. by apply (Ho id).
    + intros s Hin. destruct (Hp s Hin) as (c0 & Hc0 & ?).
      exists c0. rewrite Hothers; [done|]. by intros ->.
    + intros s c0. destruct (decide (s = this)) as [->|Hne].
      * rewrite Hc'. intros [= <-]. congruence.
      * rewrite Hothers by done. apply Hi.
Qed.

Lemma turn_consistent w e :
  (∀ module client json now w,
     consistent w → consistent (handler module client json now w)) →
  newId w e.2 →
  consistent w →
  consistent (turn constants getUserByToken handler w e).
Proof.
  intros Hh Hid Hw. destruct e as [now [id|id data|id|]]; unfold turn.
  - by apply handleConnection_consistent.
  - by apply handleMessage_consistent.
  - by apply handleClose_consistent.
  - destruct (timers w) as [|[due cb] rest] eqn:Ht; [done|].
    destruct (due <=? now); [|done].
    by apply (runCallback_consistent now due).
Qed.

(** In every state that the gateway reaches from its start, the user index
    and the handshakes are consistent, provided the handlers of
    [messages/*] keep them so and the ids of the connections are new. *)
Lemma run_consistent es w :
  (∀ module client json now w,
     consistent w → consistent (handler module client json now w)) →
  newIds (turn constants getUserByToken handler) es w →
  consistent w →
  consistent (run constants getUserByToken handler es w).
Proof.
  intros Hh. revert w. unfold run.
  induction es as [|e es IH]; intros w Hid Hw; [done|].
  destruct Hid as [Hid Hrest]. cbn [foldl].
  apply IH; [done|]. by apply turn_consistent.
Qed.

(** X22. In every state that the gateway reaches from its start, a
    broadcast to a user id writes only to sessions that are logged in with
    that id: no frame meant for one user is written to a session of
    another user or to a session that is not logged in.  The handlers of
    [messages/*] are assumed to keep the user index and the handshakes
    consistent, and the ids of the connections to be new. *)
Theorem broadcast_reaches_user es db now id payload s data :
  (∀ module client json now w,
     consistent w → consistent (handler module client json now w)) →
  newIds (turn constants getUserByToken handler) es (start db) →
  let w := run constants getUserByToken handler es (start db) in
  Send s data ∈ added w (broadcast now id payload w) →
  ∃ c, objects w !! s = Some c ∧ userId c = Some id.
Proof.
  intros Hh Hids w.
  destruct (run_consistent es (start db) Hh Hids (start_consistent db))
    as (Hs & _). fold w in Hs.
  rewrite (added_app w _ _
             (f_equal effects (broadcast_trace now id payload w))).
  destruct (users w !! id) as [sessions|] eqn:Hu.
  - intros (s' & [= <- _] & Hin)%list_elem_of_fmap.
    by apply (Hs id sessions).
  - case_bool_decide; [by intros [=]%list_elem_of_singleton|].
    by intros ?%elem_of_nil.
Qed.

(** X23. In every state that the gateway reaches from its start, the close
    of a session leaves the session in no index entry of a user id other
    than the empty string: a broadcast right after the close is not written
    to the closed socket.  The handlers of [messages/*] are assumed to keep
    the user index and the handshakes consistent, and the ids of the
    connections to be new. *)
Theorem closed_session_unlisted es db now this id sessions :
  (∀ module client json now w,
     consistent w → consistent (handler module client json now w)) →
  newIds (turn constants getUserByToken handler) es (start db) →
  let w := run constants getUserByToken handler es (start db) in
  id ≠ "" →
  users (handleClose now this w) !! id = Some sessions →
  this ∉ sessions.
Proof.
  intros Hh Hids w. apply handleClose_unlists.
  by apply run_consistent; [| |apply start_consistent].
Qed.

(** X24. In every state that the gateway reaches from its start, a session
    that has not sent its handshake has no user and is in no entry of the
    user index, so that it is logged in nowhere and no broadcast is written
    to it.  The handlers of [messages/*] are assumed to keep the user index
    and the handshakes consistent, and the ids of the connections to be
    new. *)
Theorem login_requires_handshake es db s c :
  (∀ module client json now w,
     consistent w → consistent (handler module client json now w)) →
  newIds (turn constants getUserByToken handler) es (start db) →
  let w := run constants getUserByToken handler es (start db) in
  objects w !! s = Some c →
  hasInitialized c = false →
  userId c = None
  ∧ ∀ id sessions, users w !! id = Some sessions → s ∉ sessions.
Proof.
  intros Hh Hids w Hc Hinit.
  destruct (run_consistent es (start db) Hh Hids (start_consistent db))
    as (Hs & _ & _ & _ & Hi). fold w in Hs, Hi.
  assert (userId c = None) as Hnone by by apply (Hi s).
  split; [done|]. intros id sessions Hu Hin.
  destruct (Hs id sessions s Hu Hin) as (c' & Hc' & Hu'). congruence.
Qed.

End Index.

(** ** [app/utils] *)

Lemma insert_head_Permutation {A} (x y : A) (j : nat) (l : list A) :
  l !! j = Some y → y :: <[j := x]> l ≡ₚ x :: l.
Proof.
  revert j. induction l as [|b l IH]; intros [|j] Hj; try done.
  - injection Hj as ->. apply Permutation_swap.
  - cbn in Hj. change (y :: b :: <[j:=x]> l ≡ₚ x :: b :: l).
    etrans; [apply Permutation_swap|].
    etrans; [apply Permutation_skip, (IH j Hj)|]. apply Permutation_swap.
Qed.

Lemma swap_Permutation {A} (i j : nat) (l l' : list A) :
  Utils.swap i j l = Some l' → l' ≡ₚ l.
Proof.
  unfold Utils.swap.
  destruct (l !! i) as [x|] eqn:Hi; [|done].
  destruct (l !! j) as [y|] eqn:Hj; [|done]. intros [= <-].
  revert i j Hi Hj.
  induction l as [|a l IH]; intros [|i] [|j] Hi Hj; simplify_eq/=;
    [done|by apply insert_head_Permutation|by apply insert_head_Permutation|].
  apply Permutation_skip. by apply IH.
Qed.

Lemma swap_in_range {A} (i j : nat) (l : list A) :
  (i < length l)%nat → (j < length l)%nat →
  ∃ l', Utils.swap i j l = Some l' ∧ length l' = length l.
Proof.
  intros [x Hx]%lookup_lt_is_Some [y Hy]%lookup_lt_is_Some.
  unfold Utils.swap. rewrite Hx, Hy. eexists. split; [done|].
  by rewrite !length_insert.
Qed.

Lemma length_append (s t : string) :
  String.length (String.append s t) = (String.length s + String.length t)%nat.
Proof. induction s as [|c s IH]; simpl; [done|]. by rewrite IH. Qed.

Lemma get_lt (s : string) (i : nat) :
  (i < String.length s)%nat → ∃ c, String.get i s = Some c.
Proof.
  revert i. induction s as [|c s IH]; intros i Hi; simpl in *; [lia|].
  destruct i as [|i]; [by exists c|]. apply IH. lia.
Qed.

Lemma get_elem_of (s : string) (i : nat) (c : Ascii.ascii) :
  String.get i s = Some c → c ∈ String.list_ascii_of_string s.
Proof.
  revert i. induction s as [|b s IH]; intros i Hi; simpl in *; [done|].
  destruct i as [|i]; [injection Hi as ->; by left|]. right. by apply (IH i).
Qed.

Lemma list_ascii_append (s t : string) :
  String.list_ascii_of_string (String.append s t)
  = String.list_ascii_of_string s ++ String.list_ascii_of_string t.
Proof. induction s as [|c s IH]; simpl; [done|]. by rewrite IH. Qed.

Section Draws.

(** A draw [Math.floor(Math.random() * n)] is below [n]. *)
Variable pick : nat → nat → nat.
Hypothesis pick_lt : ∀ k n, (0 < n)%nat → (pick k n < n)%nat.

Lemma shuffleFrom_Permutation {A} (k n : nat) (array : list A) :
  (n ≤ length array)%nat →
  ∃ result, Utils.shuffleFrom pick k n array = Some result
            ∧ result ≡ₚ array.
Proof using pick_lt.
  revert k array. induction n as [|n IH]; intros k array Hn.
  - by exists array.
  - cbn [Utils.shuffleFrom].
    destruct (swap_in_range n (pick k (S n)) array) as (l' & Hs & Hlen);
      [lia|specialize (pick_lt k (S n)); lia|].
    rewrite Hs. destruct (IH (S k) l') as (result & Hr & Hp); [lia|].
    exists result. split; [done|]. rewrite Hp.
    by apply (swap_Permutation n (pick k (S n))).
Qed.

(** X25. [shuffle] returns a permutation of the array: with draws below
    their bounds every swap is inside the array, the loop ends with a
    result, and the result has the elements of the array, each as often as
    the array has it. *)
Theorem shuffle_Permutation {A} (array : list A) :
  ∃ result, Utils.shuffle pick array = Some result ∧ result ≡ₚ array.
Proof using pick_lt. by apply shuffleFrom_Permutation. Qed.

Lemma randomFrom_spec (k n : nat) (characters result : string) :
  characters ≠ EmptyString →
  String.length (Utils.randomFrom pick k n characters result)
  = (String.length result + n)%nat
  ∧ ∀ c, c ∈ String.list_ascii_of_string
               (Utils.randomFrom pick k n characters result) →
         c ∈ String.list_ascii_of_string result
         ∨ c ∈ String.list_ascii_of_string characters.
Proof using pick_lt.
  intros Hne. revert k result.
  induction n as [|n IH]; intros k result; cbn [Utils.randomFrom].
  { split; [lia|]. intros c Hc. by left. }
  assert (0 < String.length characters)%nat as Hpos
    by (destruct characters; [done|simpl; lia]).
  destruct (get_lt characters (pick k (String.length characters)))
    as (c0 & Hc0); [by apply pick_lt|].
  destruct (IH (S k)
              (String.append result
                 (Utils.charAt characters
                    (pick k (String.length characters))))) as [Hlen Hin].
  unfold Utils.charAt in *. rewrite Hc0 in *.
  split.
  - rewrite Hlen, length_append. simpl. lia.
  - intros c Hc. destruct (Hin c Hc) as [Hr|Hr]; [|by right].
    rewrite list_ascii_append in Hr.
    apply elem_of_app in Hr as [Hr|Hr]; [by left|]. right.
    simpl in Hr. apply list_elem_of_singleton in Hr as ->.
    by apply (get_elem_of _ (pick k (String.length characters))).
Qed.

(** X26. [randomString] with a character set that is not empty, the
    62 letters and digits when none is given, returns a string of the
    length asked for, the empty string for a length below 1, and every
    character of the string is a character of the set. *)
Theorem randomString_spec (length : Z) (charset : option string) :
  default Utils.alphabet charset ≠ EmptyString →
  String.length (Utils.randomString pick length charset) = Z.to_nat length
  ∧ ∀ c, c ∈ String.list_ascii_of_string
               (Utils.randomString pick length charset) →
         c ∈ String.list_ascii_of_string (default Utils.alphabet charset).
Proof using pick_lt.
  intros Hne. unfold Utils.randomString.
  destruct (randomFrom_spec 0 (Z.to_nat length)
              (default Utils.alphabet charset) EmptyString Hne) as [Hlen Hin].
  split; [by rewrite Hlen|].
  intros c Hc. destruct (Hin c Hc) as [Hr|Hr]; [|done].
  by apply elem_of_nil in Hr.
Qed.

End Draws.

Lemma includes_false sub s :
  Utils.includes sub s = false → Utils.cut sub s = None.
Proof. unfold Utils.includes. by destruct (Utils.cut sub s). Qed.

(** X27. [extractPlaylistId] gives back the id of a YouTube playlist link:
    for an [id] in which the text ["playlist?list="] does not occur, the
    link made of the playlist address of YouTube and the [id] has the
    playlist id [id]. *)
Theorem extractPlaylistId_youtube id :
  Utils.includes "playlist?list=" id = false →
  Utils.extractPlaylistId
    (String.append "https://www.youtube.com/playlist?list=" id)
  = Some id.
Proof.
  intros H%includes_false. unfold Utils.extractPlaylistId, Utils.identifyUrl.
  assert (Utils.includes "https://www.youtube.com"
            (String.append "https://www.youtube.com/playlist?list=" id)
          = true) as -> by (unfold Utils.includes; by cbn).
  rewrite orb_true_r. unfold Utils.includes, Utils.second.
  lazy [String.append]. cbn. by rewrite H.
Qed.

(** X28. [extractPlaylistId] gives back the id of a Spotify playlist link,
    provided the id holds none of the three YouTube addresses, for which
    [identifyUrl] looks first: for such an [id] in which the text
    ["playlist/"] does not occur, the link made of the playlist address of
    Spotify and the [id] has the playlist id [id]. *)
Theorem extractPlaylistId_spotify id :
  Utils.includes "https://youtu.be" id = false →
  Utils.includes "https://youtube.com" id = false →
  Utils.includes "https://www.youtube.com" id = false →
  Utils.includes "playlist/" id = false →
  Utils.extractPlaylistId
    (String.append "https://open.spotify.com/playlist/" id)
  = Some id.
Proof.
  intros H1%includes_false H2%includes_false H3%includes_false
    H4%includes_false.
  unfold Utils.extractPlaylistId, Utils.identifyUrl, Utils.includes,
    Utils.second.
  lazy [String.append]. cbn. rewrite H1, H2, H3. cbn. by rewrite H4.
Qed.

(** X29. [extractPlaylistId] has no result for the link of a YouTube video:
    a link made of the watch address of YouTube and an [id] that holds
    neither ["playlist?list="] nor the short address of YouTube is
    identified as a YouTube link and split at the short address, which it
    does not hold. *)
Theorem extractPlaylistId_watch id :
  Utils.includes "playlist?list=" id = false →
  Utils.includes "https://youtu.be/" id = false →
  Utils.extractPlaylistId
    (String.append "https://www.youtube.com/watch?v=" id)
  = None.
Proof.
  intros H1%includes_false H2%includes_false.
  unfold Utils.extractPlaylistId, Utils.identifyUrl.
  assert (Utils.includes "https://www.youtube.com"
            (String.append "https://www.youtube.com/watch?v=" id)
          = true) as -> by (unfold Utils.includes; by cbn).
  rewrite orb_true_r. unfold Utils.includes, Utils.second.
  lazy [String.append]. cbn. rewrite H1. cbn. by rewrite H2.
Qed.

End Properties.

(** * The properties on the concrete gateway *)

(** C1 fails on the gateway.  The text [null] is valid JSON, so [isJson]
    accepts it, and it decodes to [null]; on a session that has not
    initialized, [initialized] reads [data.type] of it, which throws: no
    not-initialized frame is written, and the socket is not closed. *)
Theorem handleMessage_null_frame :
  objects Demo.connected !! "a" = Some (newClient 0)
  ∧ hasInitialized (newClient 0) = false
  ∧ handleMessage Demo.constants Demo.handler 3 Null "a" Demo.connected
    = effect
        (Throw "TypeError: Cannot read properties of null (reading 'type')")
        Demo.connected
  ∧ sentTo "a"
      (effects
         (handleMessage Demo.constants Demo.handler 3 Null "a" Demo.connected))
    = sentTo "a" (effects Demo.connected)
  ∧ SocketClose "a" None
    ∉ effects
        (handleMessage Demo.constants Demo.handler 3 Null "a" Demo.connected).
Proof.
  split_and!; [vm_compute; reflexivity|reflexivity|vm_compute; reflexivity
              |vm_compute; reflexivity|].
  intros H. apply list_elem_of_In in H. vm_compute in H.
  repeat (destruct H as [H|H]; [discriminate H|]). exact H.
Qed.

(** The reply to a frame that has a type, on a connection that sends a
    player frame before any handshake. *)
Lemma handleMessage_before_handshake_example :
  (objects Demo.connected !! "a" = Some (newClient 0)
   ∧ hasInitialized (newClient 0) = false
   ∧ "player" ≠ "initialize")
  ∧ handleMessage Demo.constants Demo.handler 3
      (Json (GatewayMessage.mk "player" "" None None [])) "a" Demo.connected
    = set_effects
        (effects Demo.connected
         ++ [ Send "a" (mkFrame (Constant "not-initialized") (Some 3));
              SocketClose "a" None ])
        Demo.connected.
Proof.
  split; [split_and!; [by vm_compute|done|done]|].
  apply (handleMessage_before_handshake Demo.constants Demo.handler 3
           (GatewayMessage.mk "player" "" None None []) "a" (newClient 0));
    [by vm_compute|done|done].
Defined.

(** C3 as the specification states it fails, in two ways.  In the state
    that [listenAlong] with a second host leaves, the first host [h1]
    still lists [a], which follows [h2]: the close of [h1] detaches [a]
    from [h2], and the [listeningAlong] of [h1] keeps [a].  A host that
    lists itself leaves its own list without a frame. *)
Lemma handleClose_stale_host :
  ¬ hostClosed 30 "h1" Scene.secondHost ∧ ¬ hostClosed 30 "h" Scene.ownHost.
Proof.
  split; intros H.
  - assert (objects Scene.secondHost !! "h1"
            = Some (set_listeningAlong ["a"] (newClient 1))) as Hc
      by (vm_compute; reflexivity).
    destruct (H _ Hc ltac:(discriminate)) as (_ & _ & c' & Hc' & Hl).
    vm_compute in Hc'. injection Hc' as <-. discriminate Hl.
  - assert (objects Scene.ownHost !! "h"
            = Some (set_listeningWith (Some "h")
                      (set_listeningAlong ["h"] (newClient 0)))) as Hc
      by (vm_compute; reflexivity).
    destruct (H _ Hc ltac:(discriminate)) as (Hsent & _).
    specialize (Hsent "h" ltac:(left)). vm_compute in Hsent.
    discriminate Hsent.
Qed.

(** C3, on the host [h] with its two followers. *)
Lemma handleClose_host_example :
  (objects Demo.party !! "h"
   = Some (set_listeningAlong ["a"; "b"] (newClient 2))
   ∧ ["a"; "b"] ≠ []
   ∧ ("h" ∉ ["a"; "b"])
   ∧ ∀ f, f ∈ ["a"; "b"] → follows Demo.party f "h")
  ∧ sentTo "a" (effects (handleClose 30 "h" Demo.party))
    = sentTo "a" (effects Demo.party) ++ [hostLeft 30]
  ∧ (∃ fc, objects (handleClose 30 "h" Demo.party) !! "b" = Some fc
           ∧ listeningWith fc = None)
  ∧ (∃ c', objects (handleClose 30 "h" Demo.party) !! "h" = Some c'
           ∧ listeningAlong c' = []).
Proof.
  assert (objects Demo.party !! "h"
          = Some (set_listeningAlong ["a"; "b"] (newClient 2))) as Hc
    by (vm_compute; reflexivity).
  assert ("h" ∉ ["a"; "b"]) as Hself.
  { intros [?|[?|[]%elem_of_nil]%elem_of_cons]%elem_of_cons; discriminate. }
  assert (∀ f, f ∈ ["a"; "b"] → follows Demo.party f "h") as Hfol.
  { intros f [->|[->|[]%elem_of_nil]%elem_of_cons]%elem_of_cons;
      eexists; split; vm_compute; reflexivity. }
  split; [split_and!; [exact Hc|discriminate|exact Hself|exact Hfol]|].
  destruct (handleClose_host 30 "h" _ Demo.party Hc ltac:(discriminate)
              Hself Hfol) as (Hsent & Hwith & Hhost).
  split_and!; [|apply Hwith|exact Hhost].
  - apply Hsent. left.
  - right. left.
Defined.

(** C6, on a session of a user with a presence token: a call 3000 ms after
    the connection was made changes nothing, and three playback events
    within 2000 ms add at most one push. *)
Lemma updatePresence_debounce_example :
  (objects Demo.carolOnline !! "a"
   = Some (set_presenceMode "Full"
             (set_socialStatus "Everyone"
                (set_userId (Some "carol")
                   (set_hasInitialized true (newClient 0)))))
   ∧ 3000 - 0 < 4000
   ∧ Forall (λ e : Z * (World → World),
               5000 ≤ e.1 < 5000 + 4000 ∧ presenceNeutral "a" e.2)
       Demo.burst)
  ∧ updatePresence Demo.constants 3000 "a" Demo.carolOnline
    = Demo.carolOnline
  ∧ (pushes
       (effects
          (foldl (playback Demo.constants "a") Demo.carolOnline Demo.burst))
     ≤ pushes (effects Demo.carolOnline) + 1)%nat.
Proof.
  assert (∀ track, presenceNeutral "a" (assign "a" (Demo.playing track)))
    as Hwork.
  { intros track w. split; [reflexivity|]. intros c'.
    rewrite assign_lookup, decide_True by reflexivity.
    intros (c & Hc & ->)%fmap_Some. exists c. split; [exact Hc|reflexivity]. }
  assert (Forall (λ e : Z * (World → World),
                    5000 ≤ e.1 < 5000 + 4000 ∧ presenceNeutral "a" e.2)
            Demo.burst) as Hevs.
  { repeat constructor; simpl; try lia; apply Hwork. }
  destruct (updatePresence_debounce Demo.constants "a" Demo.carolOnline)
    as [Hskip Hone].
  split; [split_and!; [vm_compute; reflexivity|lia|exact Hevs]|]. split.
  - eapply Hskip; [vm_compute; reflexivity|]. simpl. lia.
  - exact (Hone 5000 Demo.burst Hevs).
Defined.

(** The three events do add one push: the bound is met. *)
Lemma burst_pushes_once :
  pushes
    (effects (foldl (playback Demo.constants "a") Demo.carolOnline Demo.burst))
  = S (pushes (effects Demo.carolOnline)).
Proof. vm_compute. reflexivity. Qed.

(** C9 as the specification states it fails on the listening relations.
    In the state that [listenAlong] with a second host leaves, [h1], which
    never logged in, still lists [a], which follows [h2]: the close of
    [h1] removes the pair of [a] and [h2], which is no edge of [h1]. *)
Lemma handleClose_foreign_edge : ¬ closedBeforeLogin 30 "h1" Scene.secondHost.
Proof.
  intros H.
  assert (objects Scene.secondHost !! "h1"
          = Some (set_listeningAlong ["a"] (newClient 1))) as Hc
    by (vm_compute; reflexivity).
  destruct (H _ Hc eq_refl) as (_ & _ & _ & _ & Hedges).
  destruct (Hedges "a" "h2") as [[_ Hback] _].
  destruct Hback as (ac & Hac & Hwith).
  - split; [|done].
    eexists. split; vm_compute; reflexivity.
  - vm_compute in Hac. injection Hac as <-. discriminate Hwith.
Qed.

(** C9, on a follower that closes before any handshake. *)
Lemma handleClose_before_login_example :
  (objects Demo.listening !! "a"
   = Some (set_listeningWith (Some "h1") (newClient 0))
   ∧ userId (set_listeningWith (Some "h1") (newClient 0)) = None
   ∧ inverse Demo.listening)
  ∧ users (handleClose 20 "a" Demo.listening) = users Demo.listening
  ∧ onlineUsers (handleClose 20 "a" Demo.listening)
    = onlineUsers Demo.listening
  ∧ recentUsers (handleClose 20 "a" Demo.listening)
    = recentUsers Demo.listening
  ∧ clients (handleClose 20 "a" Demo.listening)
    = clients Demo.listening ∖ {["a"]}
  ∧ ¬ follows (handleClose 20 "a" Demo.listening) "a" "h1"
  ∧ ¬ along (handleClose 20 "a" Demo.listening) "a" "h1".
Proof.
  assert (objects Demo.listening !! "a"
          = Some (set_listeningWith (Some "h1") (newClient 0))) as Hc
    by (vm_compute; reflexivity).
  assert (inverse Demo.listening) as Hinv.
  { split; [apply forwardb_sound|apply backwardb_sound]; vm_compute;
      reflexivity. }
  split; [exact (conj Hc (conj eq_refl Hinv))|].
  destruct (handleClose_before_login 20 "a" _ Demo.listening Hc eq_refl)
    as (Hu & Ho & Hr & _ & _ & _ & Hcl & _ & Hedges).
  destruct (Hedges Hinv "a" "h1") as [Hfol Hal].
  split_and!; [exact Hu|exact Ho|exact Hr|exact Hcl| |].
  - intros (_ & Hne & _)%Hfol. by apply Hne.
  - intros (_ & Hne & _)%Hal. by apply Hne.
Defined.

(** C4 as the specification states it fails: [a] follows [h1], and
    [listenAlong] with the other host [h2] leaves [a] in the
    [listeningAlong] of [h1]. *)
Lemma listenAlong_second_host :
  inverse Demo.listening
  ∧ ¬ inverse (listenAlong 20 "h2" "a" Demo.listening).
Proof.
  split.
  - split; [apply forwardb_sound|apply backwardb_sound]; vm_compute;
      reflexivity.
  - intros [_ Hb]. destruct (Hb "a" "h1") as (ac & Hac & Hh).
    + eexists. split; [vm_compute; reflexivity|]. by left.
    + vm_compute in Hac. injection Hac as <-. discriminate Hh.
Qed.

(** C4, on the world where [a] follows [h1]: the close of the host, and
    [listenAlong] with the host that [a] has already. *)
Lemma listening_relations_kept_example :
  (forward Demo.listening
   ∧ backward Demo.listening
   ∧ is_Some (objects Demo.listening !! "h1")
   ∧ objects Demo.listening !! "a"
     = Some (set_listeningWith (Some "h1") (newClient 0)))
  ∧ inverse (handleClose 20 "h1" Demo.listening)
  ∧ inverse (stopListeningAlong 20 false "a" Demo.listening)
  ∧ inverse (listenAlong 20 "h1" "a" Demo.listening).
Proof.
  assert (forward Demo.listening) as Hf
    by (apply forwardb_sound; vm_compute; reflexivity).
  assert (backward Demo.listening) as Hb
    by (apply backwardb_sound; vm_compute; reflexivity).
  assert (is_Some (objects Demo.listening !! "h1")) as Hh
    by (eexists; vm_compute; reflexivity).
  assert (objects Demo.listening !! "a"
          = Some (set_listeningWith (Some "h1") (newClient 0))) as Ha
    by (vm_compute; reflexivity).
  split; [exact (conj Hf (conj Hb (conj Hh Ha)))|].
  destruct (listening_relations_kept 20 Demo.listening) as [Hfw Hbw].
  destruct (Hfw Hf) as (Hf1 & Hf2 & Hf3).
  destruct (Hbw Hb) as (Hb1 & Hb2 & Hb3).
  split_and!; split.
  - apply Hf2.
  - apply Hb2.
  - apply Hf1.
  - apply Hb1.
  - apply Hf3, Hh.
  - eapply Hb3; [exact Ha|]. right. reflexivity.
Defined.

(** C2 as the specification states it fails: with the two devices of a
    user past the handshake the online directory is as stated; then one
    device closes, the other stays active, and the user has no online
    entry. *)
Lemma online_entry_lost :
  onlineExactly Demo.twoDevices
  ∧ ¬ onlineExactly (Demo.steps [ (3000, Close "a") ] Demo.twoDevices).
Proof.
  split.
  - assert (dom (onlineUsers Demo.twoDevices) = {["alice"]}) as Hdom
      by (vm_compute; reflexivity).
    assert (clients Demo.twoDevices = {["a"; "b"]}) as Hcl
      by (vm_compute; reflexivity).
    intros u. rewrite <- elem_of_dom, Hdom, elem_of_singleton. split.
    + intros ->. exists "a". split.
      * apply (bool_decide_unpack _). vm_compute. exact I.
      * eexists. split; vm_compute; reflexivity.
    + intros (s & Hs & c & Hc & Hu). rewrite Hcl in Hs.
      apply elem_of_union in Hs as [->%elem_of_singleton| ->%elem_of_singleton];
        vm_compute in Hc; injection Hc as <-; vm_compute in Hu;
        by injection Hu.
  - intros H. destruct (H "alice") as [_ [o Ho]].
    + exists "b". split; [apply (bool_decide_unpack _); vm_compute; exact I|].
      eexists. split; vm_compute; reflexivity.
    + vm_compute in Ho. discriminate Ho.
Qed.

(** C2, on the two devices of one user: a third handshake of the user, and
    the close of one device. *)
Lemma online_directory_kept_example :
  (onlineIndexed Demo.twoDevices
   ∧ objects Demo.twoDevices !! "a"
     = Some (set_socialStatus "Everyone"
               (set_userId (Some "alice")
                  (set_hasInitialized true (newClient 0))))
   ∧ Demo.getUserByToken (directory Demo.twoDevices) "T1"
     = Some Demo.alice
   ∧ truthy "alice" = true
   ∧ users Demo.twoDevices !! "alice" = Some ["a"; "b"])
  ∧ onlineIndexed (handleClose 3000 "a" Demo.twoDevices)
  ∧ is_Some
      (onlineUsers
         (asUser Demo.constants Demo.getUserByToken 3000 "T1" None None
            "a" Demo.twoDevices) !! "alice")
  ∧ onlineUsers (handleClose 3000 "a" Demo.twoDevices) !! "alice" = None
  ∧ users (handleClose 3000 "a" Demo.twoDevices) !! "alice" = Some ["b"].
Proof.
  assert (onlineIndexed Demo.twoDevices) as Hw.
  { apply onlineIndexed_dom. apply (bool_decide_unpack _); vm_compute; exact I. }
  assert (objects Demo.twoDevices !! "a"
          = Some (set_socialStatus "Everyone"
                    (set_userId (Some "alice")
                       (set_hasInitialized true (newClient 0))))) as Hc
    by (vm_compute; reflexivity).
  assert (Demo.getUserByToken (directory Demo.twoDevices) "T1"
          = Some Demo.alice) as Hu by (vm_compute; reflexivity).
  assert (users Demo.twoDevices !! "alice" = Some ["a"; "b"]) as Hs
    by (vm_compute; reflexivity).
  split; [exact (conj Hw (conj Hc (conj Hu (conj eq_refl Hs))))|].
  destruct (online_directory_kept Demo.constants Demo.getUserByToken
              3000 Demo.twoDevices) as (Hkept & Hin & Hout).
  destruct (Hkept Hw) as [_ Hclose].
  destruct (Hin "T1" None None "a" _ _ Hc Hu) as [Hon _].
  destruct (Hout "a" _ "alice" _ Hc eq_refl eq_refl Hs) as [Hoff Hidx].
  split_and!; [apply Hclose|exact Hon|exact Hoff|exact Hidx].
Defined.

(** C5 as the specification states it fails: the close of one of two
    devices, which plays a track, creates the recent entry of the user
    while the other device stays active. *)
Lemma recent_entry_early :
  ¬ recentOnLastClose 3000 "a" Demo.twoDevicesPlaying.
Proof.
  intros H. apply (H "alice").
  - vm_compute; reflexivity.
  - eexists. vm_compute; reflexivity.
  - exists "b". split; [apply (bool_decide_unpack _); vm_compute; exact I|].
    eexists. split; vm_compute; reflexivity.
Qed.

(** C5, on the two devices of one user, one of which plays a track. *)
Lemma recent_directory_kept_example :
  (exclusive Demo.twoDevicesPlaying
   ∧ objects Demo.twoDevicesPlaying !! "a"
     = Some (Demo.playing Demo.song
               (set_socialStatus "Everyone"
                  (set_userId (Some "alice")
                     (set_hasInitialized true (newClient 0)))))
   ∧ Demo.getUserByToken (directory Demo.twoDevicesPlaying) "T1"
     = Some Demo.alice
   ∧ truthy "alice" = true
   ∧ users Demo.twoDevicesPlaying !! "alice" = Some ["a"; "b"])
  ∧ is_Some (recentUsers (handleClose 3000 "a" Demo.twoDevicesPlaying)
             !! "alice")
  ∧ recentUsers (handleClose 3000 "c" Demo.twoDevicesPlaying)
    = recentUsers Demo.twoDevicesPlaying
  ∧ recentUsers
      (asUser Demo.constants Demo.getUserByToken 3000 "T1" None None
         "a" Demo.twoDevicesPlaying) !! "alice" = None
  ∧ exclusive (handleClose 3000 "a" Demo.twoDevicesPlaying).
Proof.
  assert (exclusive Demo.twoDevicesPlaying) as Hw.
  { apply exclusive_dom. apply (bool_decide_unpack _); vm_compute; exact I. }
  assert (objects Demo.twoDevicesPlaying !! "a"
          = Some (Demo.playing Demo.song
                    (set_socialStatus "Everyone"
                       (set_userId (Some "alice")
                          (set_hasInitialized true (newClient 0)))))) as Hc
    by (vm_compute; reflexivity).
  assert (Demo.getUserByToken (directory Demo.twoDevicesPlaying) "T1"
          = Some Demo.alice) as Hu by (vm_compute; reflexivity).
  assert (users Demo.twoDevicesPlaying !! "alice" = Some ["a"; "b"]) as Hs
    by (vm_compute; reflexivity).
  split; [exact (conj Hw (conj Hc (conj Hu (conj eq_refl Hs))))|].
  destruct (recent_directory_kept Demo.constants Demo.getUserByToken
              3000 Demo.twoDevicesPlaying) as (Hclose & Hnone & Hin & Hkept).
  destruct (Hkept Hw) as [_ Hex].
  split_and!; [| |exact (Hin "T1" None None "a" Demo.alice Hu)|apply Hex];
    [|apply Hnone; intros c id sessions [Hno _]; vm_compute in Hno;
      discriminate Hno].
  rewrite (Hclose "a" _ "alice" _ Hc eq_refl eq_refl Hs).
  eexists. vm_compute; reflexivity.
Defined.


(** C7 fails on the gateway: two sessions that present the token of the bot
    within the 1000 ms that the first callback is deferred both get the bot
    identity. *)
Theorem bot_identity_twice :
  active Demo.twoBots "a" "bot"
  ∧ active Demo.twoBots "b" "bot"
  ∧ ¬ oneBot Demo.twoBots.
Proof.
  assert (∀ s, s = "a" ∨ s = "b" → active Demo.twoBots s "bot") as Hact.
  { intros s [-> | ->];
      (split; [apply (bool_decide_unpack _); vm_compute; exact I|]);
      eexists; split; vm_compute; reflexivity. }
  split_and!; [apply Hact; by left|apply Hact; by right|].
  intros H.
  destruct (Hact "a") as (_ & ca & Hca & Hua); [by left|].
  destruct (Hact "b") as (_ & cb & Hcb & Hub); [by right|].
  by pose proof (H "a" "b" ca cb Hca Hcb Hua Hub).
Qed.

(** The hypothesis of C10 on the list read is needed: from a list that
    holds the id of the track twice, which no call of [addRecentlyPlayed]
    stores, the call removes one entry and the list stored holds the id
    twice. *)
Lemma addRecentlyPlayed_twice :
  ∃ w',
    addRecentlyPlayed 2000 Demo.song "a" Demo.bobOnline = Some w'
    ∧ directory w' !! "bob"
      = Some (User.set_recentlyPlayed [Demo.song; Demo.song]
                Demo.bob)
    ∧ ¬ freshRecents Demo.song [Demo.song; Demo.song].
Proof.
  eexists. split_and!; [vm_compute; reflexivity|vm_compute; reflexivity|].
  intros (_ & Hother & _). by apply (Hother 0%nat Demo.song).
Qed.


(** * The further properties on the concrete gateway *)

(** X1, on a connection that sends its handshake three times, with three
    tokens. *)
Lemma handshake_once_example :
  (is_Some (objects Demo.connected !! "a")
   ∧ GatewayMessage.type (Scene.login "T1") = "initialize"
   ∧ Forall (λ e : Z * GatewayMessage.t,
               GatewayMessage.type e.2 = "initialize")
       [ (6, Scene.login "nope"); (7, Scene.login "bot-secret") ])
  ∧ foldl
      (λ w e, handleMessage Demo.constants Demo.handler e.1 (Json e.2) "a" w)
      (handleMessage Demo.constants Demo.handler 5 (Json (Scene.login "T1"))
         "a" Demo.connected)
      [ (6, Scene.login "nope"); (7, Scene.login "bot-secret") ]
    = handleMessage Demo.constants Demo.handler 5 (Json (Scene.login "T1"))
        "a" Demo.connected.
Proof.
  assert (is_Some (objects Demo.connected !! "a")) as Hc
    by (eexists; vm_compute; reflexivity).
  assert (Forall (λ e : Z * GatewayMessage.t,
                    GatewayMessage.type e.2 = "initialize")
            [ (6, Scene.login "nope"); (7, Scene.login "bot-secret") ])
    as Hmore by (repeat constructor).
  split; [exact (conj Hc (conj eq_refl Hmore))|].
  exact (handshake_once Demo.constants Demo.handler 5 (Scene.login "T1") "a"
           Demo.connected _ Hc eq_refl Hmore).
Defined.

(** X2, on a connection that sends a player frame right after its
    handshake. *)
Lemma handleMessage_before_login_example :
  (objects Demo.connected !! "a" = Some (newClient 0)
   ∧ hasInitialized (newClient 0) = false
   ∧ GatewayMessage.type (Scene.login "T1") = "initialize"
   ∧ assoc (GatewayMessage.type Scene.player) handlers
     = Some "messages/player")
  ∧ effects
      (handleMessage Demo.constants Demo.handler 6 (Json Scene.player) "a"
         (handleMessage Demo.constants Demo.handler 5
            (Json (Scene.login "T1")) "a" Demo.connected))
    = effects
        (handleMessage Demo.constants Demo.handler 5
           (Json (Scene.login "T1")) "a" Demo.connected)
      ++ [Handle "messages/player" "a" Scene.player]
  ∧ isLoggedIn "a"
      (handleMessage Demo.constants Demo.handler 5
         (Json (Scene.login "T1")) "a" Demo.connected)
    = false.
Proof.
  assert (objects Demo.connected !! "a" = Some (newClient 0)) as Hc
    by (vm_compute; reflexivity).
  split; [exact (conj Hc (conj eq_refl (conj eq_refl eq_refl)))|].
  destruct (handleMessage_before_login Demo.constants Demo.handler 5 6
              (Scene.login "T1") Scene.player "messages/player" "a" _
              Demo.connected Hc eq_refl eq_refl eq_refl) as (Hrun & Hlog & _).
  split.
  - rewrite Hrun. reflexivity.
  - rewrite Hlog. vm_compute. reflexivity.
Defined.

(** X3, on a connection that presents a token that nobody has. *)
Lemma handshake_unknown_token_example :
  (objects Demo.connected !! "a" = Some (newClient 0)
   ∧ hasInitialized (newClient 0) = false
   ∧ GatewayMessage.type (Scene.login "nope") = "initialize"
   ∧ timers Demo.connected = []
   ∧ 5 + 1000 ≤ 1005
   ∧ GatewayMessage.token (Scene.login "nope")
     ≠ DISCORD_TOKEN Demo.constants
   ∧ Demo.getUserByToken (directory Demo.connected)
       (GatewayMessage.token (Scene.login "nope")) = None)
  ∧ sentTo "a"
      (effects
         (Demo.steps [ (5, Message "a" (Json (Scene.login "nope")));
                       (1005, Timeout) ] Demo.connected))
    = [ mkFrame (Constant "init") (Some 0);
        mkFrame (Constant "ping") (Some 5);
        mkFrame (Constant "invalid-token") (Some 1005) ]
  ∧ users
      (Demo.steps [ (5, Message "a" (Json (Scene.login "nope")));
                    (1005, Timeout) ] Demo.connected)
    = users Demo.connected.
Proof.
  assert (objects Demo.connected !! "a" = Some (newClient 0)) as Hc
    by (vm_compute; reflexivity).
  assert (timers Demo.connected = []) as Ht by (vm_compute; reflexivity).
  assert (5 + 1000 ≤ 1005) as Hdue by lia.
  assert (GatewayMessage.token (Scene.login "nope")
          ≠ DISCORD_TOKEN Demo.constants) as Hne by discriminate.
  assert (Demo.getUserByToken (directory Demo.connected)
            (GatewayMessage.token (Scene.login "nope")) = None) as Hu
    by (vm_compute; reflexivity).
  split;
    [exact (conj Hc (conj eq_refl (conj eq_refl
              (conj Ht (conj Hdue (conj Hne Hu))))))|].
  unfold Demo.steps.
  rewrite (handshake_unknown_token Demo.constants Demo.getUserByToken
             Demo.handler 5 1005 (Scene.login "nope") "a" _ Demo.connected
             Hc eq_refl eq_refl Ht Hdue (or_intror Hne) Hu).
  split; vm_compute; reflexivity.
Defined.

(** X4, on a connection that presents the secret of the bot. *)
Lemma handshake_bot_example :
  (objects Demo.connected !! "a" = Some (newClient 0)
   ∧ hasInitialized (newClient 0) = false
   ∧ GatewayMessage.type (Scene.login "bot-secret") = "initialize"
   ∧ timers Demo.connected = []
   ∧ 5 + 1000 ≤ 1005
   ∧ hasBot Demo.connected = false
   ∧ GatewayMessage.token (Scene.login "bot-secret")
     = DISCORD_TOKEN Demo.constants)
  ∧ sentTo "a"
      (effects
         (Demo.steps [ (5, Message "a" (Json (Scene.login "bot-secret")));
                       (1005, Timeout) ] Demo.connected))
    = [ mkFrame (Constant "init") (Some 0);
        mkFrame (Constant "ping") (Some 5);
        mkFrame FetchRequest (Some 1005) ]
  ∧ hasBot
      (Demo.steps [ (5, Message "a" (Json (Scene.login "bot-secret")));
                    (1005, Timeout) ] Demo.connected)
    = true
  ∧ users
      (Demo.steps [ (5, Message "a" (Json (Scene.login "bot-secret")));
                    (1005, Timeout) ] Demo.connected)
    = users Demo.connected.
Proof.
  assert (objects Demo.connected !! "a" = Some (newClient 0)) as Hc
    by (vm_compute; reflexivity).
  assert (timers Demo.connected = []) as Ht by (vm_compute; reflexivity).
  assert (5 + 1000 ≤ 1005) as Hdue by lia.
  assert (hasBot Demo.connected = false) as Hb by (vm_compute; reflexivity).
  split;
    [exact (conj Hc (conj eq_refl (conj eq_refl
              (conj Ht (conj Hdue (conj Hb eq_refl))))))|].
  unfold Demo.steps.
  rewrite (handshake_bot Demo.constants Demo.getUserByToken
             Demo.handler 5 1005 (Scene.login "bot-secret") "a" _
             Demo.connected Hc eq_refl eq_refl Ht Hdue Hb eq_refl).
  split_and!; vm_compute; reflexivity.
Defined.

(** X5, after the two sessions of [Demo.twoBots] closed: a third connection
    that presents the secret is deferred as a user. *)
Lemma bot_flag_kept_example :
  ((∀ module client json now w,
      hasBot w = true → hasBot (Demo.handler module client json now w) = true)
   ∧ hasBot Demo.twoBots = true)
  ∧ hasBot
      (Demo.steps [ (3000, Close "a"); (3001, Close "b");
                    (3002, Connection "c") ] Demo.twoBots)
    = true
  ∧ timers
      (handleMessage Demo.constants Demo.handler 3005
         (Json (Scene.login "bot-secret")) "c"
         (Demo.steps [ (3000, Close "a"); (3001, Close "b");
                       (3002, Connection "c") ] Demo.twoBots))
    = [ (4005, AsUser "c" "bot-secret" None None) ].
Proof.
  assert (∀ module client json now w,
            hasBot w = true
            → hasBot (Demo.handler module client json now w) = true) as Hh
    by (intros module client json now w H; exact H).
  assert (hasBot Demo.twoBots = true) as Hb by (vm_compute; reflexivity).
  split; [exact (conj Hh Hb)|].
  destruct (bot_flag_kept Demo.constants Demo.getUserByToken Demo.handler
              [ (3000, Close "a"); (3001, Close "b");
                (3002, Connection "c") ] Demo.twoBots Hh Hb) as [Hflag Hnext].
  split; [exact Hflag|]. unfold Demo.steps.
  rewrite (Hnext 3005 (Scene.login "bot-secret") "c" (newClient 3002));
    vm_compute; reflexivity.
Defined.

(** X6, on a connection that closes 500 ms after it connected, and 495 ms
    before the callback of its handshake runs. *)
Lemma login_after_close_example :
  (objects Demo.connected !! "a" = Some (newClient 0)
   ∧ hasInitialized (newClient 0) = false
   ∧ userId (newClient 0) = None
   ∧ GatewayMessage.type (Scene.login "T1") = "initialize"
   ∧ timers Demo.connected = []
   ∧ 5 + 1000 ≤ 1005
   ∧ GatewayMessage.token (Scene.login "T1") ≠ DISCORD_TOKEN Demo.constants
   ∧ Demo.getUserByToken (directory Demo.connected)
       (GatewayMessage.token (Scene.login "T1")) = Some Demo.alice)
  ∧ ("a" ∉ clients
             (Demo.steps [ (5, Message "a" (Json (Scene.login "T1")));
                           (500, Close "a"); (1005, Timeout) ]
                Demo.connected))
  ∧ users
      (Demo.steps [ (5, Message "a" (Json (Scene.login "T1")));
                    (500, Close "a"); (1005, Timeout) ] Demo.connected)
    !! "alice" = Some ["a"]
  ∧ is_Some
      (onlineUsers
         (Demo.steps [ (5, Message "a" (Json (Scene.login "T1")));
                       (500, Close "a"); (1005, Timeout) ] Demo.connected)
       !! "alice").
Proof.
  assert (objects Demo.connected !! "a" = Some (newClient 0)) as Hc
    by (vm_compute; reflexivity).
  assert (timers Demo.connected = []) as Ht by (vm_compute; reflexivity).
  assert (5 + 1000 ≤ 1005) as Hdue by lia.
  assert (GatewayMessage.token (Scene.login "T1")
          ≠ DISCORD_TOKEN Demo.constants) as Hne by discriminate.
  assert (Demo.getUserByToken (directory Demo.connected)
            (GatewayMessage.token (Scene.login "T1")) = Some Demo.alice)
    as Hu by (vm_compute; reflexivity).
  split;
    [exact (conj Hc (conj eq_refl (conj eq_refl (conj eq_refl
              (conj Ht (conj Hdue (conj Hne Hu)))))))|].
  exact (login_after_close Demo.constants Demo.getUserByToken Demo.handler
           5 500 1005 (Scene.login "T1") "a" _ Demo.alice Demo.connected
           Hc eq_refl eq_refl eq_refl Ht Hdue (or_intror Hne) Hu).
Defined.

(** X7, on the host [h1] of [Demo.listening] joining [h2]. *)
Lemma listenAlong_sync_example :
  (objects Demo.listening !! "h2" = Some (newClient 2)
   ∧ is_Some (objects Demo.listening !! "h1"))
  ∧ effects (listenAlong 20 "h2" "h1" Demo.listening)
    = effects Demo.listening
      ++ [Send "h1" (mkFrame (SyncMessage None 0 true (Some true)) (Some 20))]
  ∧ follows (listenAlong 20 "h2" "h1" Demo.listening) "h1" "h2"
  ∧ along (listenAlong 20 "h2" "h1" Demo.listening) "h1" "h2"
  ∧ registries (listenAlong 20 "h2" "h1" Demo.listening)
    = registries Demo.listening.
Proof.
  assert (objects Demo.listening !! "h2" = Some (newClient 2)) as Hh
    by (vm_compute; reflexivity).
  assert (is_Some (objects Demo.listening !! "h1")) as Hc
    by (eexists; vm_compute; reflexivity).
  split; [exact (conj Hh Hc)|].
  exact (listenAlong_sync 20 "h2" "h1" (newClient 2) Demo.listening Hh Hc).
Defined.

(** X8, on the client [h2] of [Demo.listening] joining the host [h1], which
    lists [a], and leaving it. *)
Lemma listenAlong_undone_example :
  (objects Demo.listening !! "h2" = Some (newClient 2)
   ∧ listeningWith (newClient 2) = None
   ∧ objects Demo.listening !! "h1"
     = Some (set_listeningAlong ["a"] (newClient 1))
   ∧ ("h2" ∉ listeningAlong (set_listeningAlong ["a"] (newClient 1))))
  ∧ objects
      (stopListeningAlong 30 false "h2"
         (listenAlong 20 "h1" "h2" Demo.listening))
    = objects Demo.listening
  ∧ registries
      (stopListeningAlong 30 false "h2"
         (listenAlong 20 "h1" "h2" Demo.listening))
    = registries Demo.listening.
Proof.
  assert (objects Demo.listening !! "h2" = Some (newClient 2)) as Hc
    by (vm_compute; reflexivity).
  assert (objects Demo.listening !! "h1"
          = Some (set_listeningAlong ["a"] (newClient 1))) as Hh
    by (vm_compute; reflexivity).
  assert ("h2" ∉ listeningAlong (set_listeningAlong ["a"] (newClient 1)))
    as Hnot.
  { intros [?|[]%elem_of_nil]%elem_of_cons; discriminate. }
  split; [exact (conj Hc (conj eq_refl (conj Hh Hnot)))|].
  exact (listenAlong_undone 20 30 false "h1" "h2" _ _ Demo.listening
           Hc eq_refl Hh Hnot).
Defined.

(** X10, on the host of [Demo.party]. *)
Lemma updateListeners_sync_example :
  (objects Demo.party !! "h"
   = Some (set_listeningAlong ["a"; "b"] (newClient 2))
   ∧ ∀ f, f ∈ listeningAlong (set_listeningAlong ["a"; "b"] (newClient 2)) →
          follows Demo.party f "h")
  ∧ updateListeners 40 "h" Demo.party
    = set_effects
        (effects Demo.party
         ++ [ Send "a"
                (mkFrame (SyncMessage None 0 true (Some true)) (Some 40));
              Send "b"
                (mkFrame (SyncMessage None 0 true (Some true)) (Some 40)) ])
        Demo.party.
Proof.
  assert (objects Demo.party !! "h"
          = Some (set_listeningAlong ["a"; "b"] (newClient 2))) as Hc
    by (vm_compute; reflexivity).
  assert (∀ f,
            f ∈ listeningAlong (set_listeningAlong ["a"; "b"] (newClient 2)) →
            follows Demo.party f "h") as Hfol.
  { intros f [->|[->|[]%elem_of_nil]%elem_of_cons]%elem_of_cons;
      eexists; split; vm_compute; reflexivity. }
  split; [exact (conj Hc Hfol)|].
  exact (updateListeners_sync 40 "h" _ Demo.party Hc Hfol).
Defined.

(** X11, on the follower [a] of [Demo.party]: its host is not told that it
    closed. *)
Lemma handleClose_writes_example :
  (objects Demo.party !! "a"
   = Some (set_listeningWith (Some "h") (newClient 0))
   ∧ ("h" ∉ listeningAlong (set_listeningWith (Some "h") (newClient 0))))
  ∧ sentTo "h" (effects (handleClose 30 "a" Demo.party))
    = sentTo "h" (effects Demo.party).
Proof.
  assert (objects Demo.party !! "a"
          = Some (set_listeningWith (Some "h") (newClient 0))) as Hc
    by (vm_compute; reflexivity).
  assert ("h" ∉ listeningAlong (set_listeningWith (Some "h") (newClient 0)))
    as Hnot by (intros []%elem_of_nil).
  split; [exact (conj Hc Hnot)|].
  exact (handleClose_writes 30 "a" _ Demo.party "h" Hc Hnot).
Defined.

(** X12, on the first of the two devices of [Demo.twoDevices]. *)
Lemma broadcast_after_close_example :
  (objects Demo.twoDevices !! "a"
   = Some (set_socialStatus "Everyone"
             (set_userId (Some "alice")
                (set_hasInitialized true (newClient 0))))
   ∧ truthy "alice" = true
   ∧ users Demo.twoDevices !! "alice" = Some ["a"; "b"]
   ∧ "a" ∈ ["a"; "b"])
  ∧ effects
      (broadcast 3001 "alice" (Demo.frame "hello")
         (handleClose 3000 "a" Demo.twoDevices))
    = effects (handleClose 3000 "a" Demo.twoDevices)
      ++ [Send "b" (mkFrame (Constant "hello") (Some 3001))].
Proof.
  assert (objects Demo.twoDevices !! "a"
          = Some (set_socialStatus "Everyone"
                    (set_userId (Some "alice")
                       (set_hasInitialized true (newClient 0))))) as Hc
    by (vm_compute; reflexivity).
  assert (users Demo.twoDevices !! "alice" = Some ["a"; "b"]) as Hs
    by (vm_compute; reflexivity).
  assert ("a" ∈ ["a"; "b"]) as Hin by left.
  split; [exact (conj Hc (conj eq_refl (conj Hs Hin)))|].
  exact (broadcast_after_close 3000 3001 "a" _ "alice" ["a"; "b"]
           (Demo.frame "hello") Demo.twoDevices Hc eq_refl eq_refl Hs Hin).
Defined.

(** X13, on the session of the bot beside a user with the id ["bot"]: its
    close takes the second device of the user out of the index. *)
Lemma handleClose_unlisted_example :
  (objects Scene.botAndUser !! "x"
   = Some (set_userId (Some "bot") (set_hasInitialized true (newClient 2)))
   ∧ truthy "bot" = true
   ∧ users Scene.botAndUser !! "bot" = Some ["a"; "b"]
   ∧ ("x" ∉ ["a"; "b"]))
  ∧ users (handleClose 3000 "x" Scene.botAndUser) !! "bot" = Some ["a"]
  ∧ onlineUsers (handleClose 3000 "x" Scene.botAndUser) !! "bot" = None.
Proof.
  assert (objects Scene.botAndUser !! "x"
          = Some (set_userId (Some "bot")
                    (set_hasInitialized true (newClient 2)))) as Hc
    by (vm_compute; reflexivity).
  assert (users Scene.botAndUser !! "bot" = Some ["a"; "b"]) as Hs
    by (vm_compute; reflexivity).
  assert ("x" ∉ ["a"; "b"]) as Hnot.
  { intros [?|[?|[]%elem_of_nil]%elem_of_cons]%elem_of_cons; discriminate. }
  split; [exact (conj Hc (conj eq_refl (conj Hs Hnot)))|].
  exact (handleClose_unlisted 3000 "x" _ "bot" ["a"; "b"] Scene.botAndUser
           Hc eq_refl eq_refl Hs Hnot).
Defined.

(** X14, on the first connection of a gateway. *)
Lemma connection_closed_example :
  (objects (start Demo.db) !! "a" = None
   ∧ ("a" ∉ clients (start Demo.db)))
  ∧ handleClose 10 "a" (handleConnection Demo.constants 0 "a" (start Demo.db))
    = mkWorld false ∅ ∅ ∅ ∅ {[ "a" := newClient 0 ]} Demo.db []
        [ Send "a" (mkFrame (Constant "init") (Some 0));
          Publish (ById None) None ].
Proof.
  assert (objects (start Demo.db) !! "a" = None) as Hc
    by (vm_compute; reflexivity).
  assert ("a" ∉ clients (start Demo.db)) as Hnot
    by (apply (bool_decide_unpack _); vm_compute; exact I).
  split; [exact (conj Hc Hnot)|].
  exact (connection_closed Demo.constants 0 10 "a" (start Demo.db) Hc Hnot).
Defined.

(** X15, on a connection whose handshake names the social status
    ["Friends"] and no presence mode. *)
Lemma asUser_login_example :
  (objects Demo.connected !! "a" = Some (newClient 0)
   ∧ Demo.getUserByToken (directory Demo.connected) "T1" = Some Demo.alice)
  ∧ onlineUsers
      (asUser Demo.constants Demo.getUserByToken 1005 "T1" (Some "Friends")
         None "a" Demo.connected) !! "alice"
    = Some (OnlineUser.mk "Friends" "Alice" "0001" "alice" "avatar" 0 None)
  ∧ ∃ c',
      objects
        (asUser Demo.constants Demo.getUserByToken 1005 "T1" (Some "Friends")
           None "a" Demo.connected) !! "a" = Some c'
      ∧ userId c' = Some "alice"
      ∧ socialStatus c' = "Friends"
      ∧ presenceMode c' = "None".
Proof.
  assert (objects Demo.connected !! "a" = Some (newClient 0)) as Hc
    by (vm_compute; reflexivity).
  assert (Demo.getUserByToken (directory Demo.connected) "T1"
          = Some Demo.alice) as Hu by (vm_compute; reflexivity).
  split; [exact (conj Hc Hu)|].
  exact (asUser_login Demo.constants Demo.getUserByToken 1005 "T1"
           (Some "Friends") None "a" _ Demo.alice Demo.connected Hc Hu).
Defined.

(** X16, on the login of a user with a presence token 1005 ms after the
    connection. *)
Lemma asUser_presence_debounced_example :
  (objects Scene.carolConnected !! "a" = Some (newClient 0)
   ∧ Demo.getUserByToken (directory Scene.carolConnected) "T3"
     = Some Demo.carol
   ∧ 1005 - lastUpdate (newClient 0) < 4000)
  ∧ effects
      (asUser Demo.constants Demo.getUserByToken 1005 "T3" None (Some "Full")
         "a" Scene.carolConnected)
    = effects Scene.carolConnected.
Proof.
  assert (objects Scene.carolConnected !! "a" = Some (newClient 0)) as Hc
    by (vm_compute; reflexivity).
  assert (Demo.getUserByToken (directory Scene.carolConnected) "T3"
          = Some Demo.carol) as Hu by (vm_compute; reflexivity).
  assert (1005 - lastUpdate (newClient 0) < 4000) as Hlt
    by (vm_compute; reflexivity).
  split; [exact (conj Hc (conj Hu Hlt))|].
  exact (asUser_presence_debounced Demo.constants Demo.getUserByToken 1005
           "T3" None (Some "Full") "a" _ Demo.carol Scene.carolConnected
           Hc Hu Hlt).
Defined.

(** X17, on the device of [Scene.carolPlaying], in mode ["Full"], 5000 ms
    after it connected. *)
Lemma updatePresence_payload_example :
  (objects Scene.carolPlaying !! "a"
   = Some (Demo.playing Demo.song
             (set_presenceMode "Full"
                (set_socialStatus "Everyone"
                   (set_userId (Some "carol")
                      (set_hasInitialized true (newClient 0))))))
   ∧ added Scene.carolPlaying
       (updatePresence Demo.constants 5000 "a" Scene.carolPlaying)
     = [ Publish (ByUser Demo.carol)
           (Some (fullPresence Demo.constants
                    (Demo.playing Demo.song (newClient 0)) Demo.carol
                    Demo.song)) ])
  ∧ Presence.type
      (fullPresence Demo.constants (Demo.playing Demo.song (newClient 0))
         Demo.carol Demo.song)
    = Presence.Playing
  ∧ Presence.timestamps
      (fullPresence Demo.constants (Demo.playing Demo.song (newClient 0))
         Demo.carol Demo.song)
    = (Some 2000, 182000).
Proof.
  assert (objects Scene.carolPlaying !! "a"
          = Some (Demo.playing Demo.song
                    (set_presenceMode "Full"
                       (set_socialStatus "Everyone"
                          (set_userId (Some "carol")
                             (set_hasInitialized true (newClient 0)))))))
    as Hc by (vm_compute; reflexivity).
  assert (added Scene.carolPlaying
            (updatePresence Demo.constants 5000 "a" Scene.carolPlaying)
          = [ Publish (ByUser Demo.carol)
                (Some (fullPresence Demo.constants
                         (Demo.playing Demo.song (newClient 0)) Demo.carol
                         Demo.song)) ]) as Hadd
    by (vm_compute; reflexivity).
  split; [exact (conj Hc Hadd)|].
  destruct (updatePresence_payload Demo.constants 5000 "a" _
              (ByUser Demo.carol)
              (fullPresence Demo.constants
                 (Demo.playing Demo.song (newClient 0)) Demo.carol Demo.song)
              Scene.carolPlaying Hc)
    as (user & track & _ & _ & Htrack & _ & _ & Hty & _ & _ & Htime & _).
  { rewrite Hadd. left. }
  split.
  - rewrite Hty. reflexivity.
  - rewrite Htime. injection Htrack as <-. reflexivity.
Defined.

(** X18, on the first device of [Demo.twoDevicesPlaying], whose user has an
    online entry that the second device wrote. *)
Lemma updateOnlineStatus_entry_example :
  (objects Demo.twoDevicesPlaying !! "a"
   = Some (Demo.playing Demo.song
             (set_socialStatus "Everyone"
                (set_userId (Some "alice")
                   (set_hasInitialized true (newClient 0)))))
   ∧ is_Some (onlineUsers Demo.twoDevicesPlaying !! "alice"))
  ∧ ∃ online,
      updateOnlineStatus (Some 42) "a" Demo.twoDevicesPlaying
      = Some (set_onlineUsers
                (<["alice" := online]> (onlineUsers Demo.twoDevicesPlaying))
                Demo.twoDevicesPlaying)
      ∧ OnlineUser.listeningTo online = Some Demo.song
      ∧ OnlineUser.progress online = 42.
Proof.
  assert (objects Demo.twoDevicesPlaying !! "a"
          = Some (Demo.playing Demo.song
                    (set_socialStatus "Everyone"
                       (set_userId (Some "alice")
                          (set_hasInitialized true (newClient 0)))))) as Hc
    by (vm_compute; reflexivity).
  assert (is_Some (onlineUsers Demo.twoDevicesPlaying !! "alice")) as Hon
    by (eexists; vm_compute; reflexivity).
  split; [exact (conj Hc Hon)|].
  destruct (updateOnlineStatus_entry (Some 42) "a" _ "alice"
              Demo.twoDevicesPlaying Hc eq_refl (or_introl Hon))
    as (online & Hrun & Htrack & Hprogress & _).
  exists online. exact (conj Hrun (conj Htrack Hprogress)).
Defined.

(** X19, on the second device of [Demo.twoDevicesPlaying] after the first
    one closed. *)
Lemma updateOnlineStatus_recent_example :
  (objects Scene.deviceLeft !! "b"
   = Some (set_socialStatus "Everyone"
             (set_userId (Some "alice")
                (set_hasInitialized true (newClient 1))))
   ∧ is_Some (directory Scene.deviceLeft !! "alice")
   ∧ is_Some (recentUsers Scene.deviceLeft !! "alice"))
  ∧ ∃ w', updateOnlineStatus None "b" Scene.deviceLeft = Some w'
          ∧ ¬ exclusive w'.
Proof.
  assert (objects Scene.deviceLeft !! "b"
          = Some (set_socialStatus "Everyone"
                    (set_userId (Some "alice")
                       (set_hasInitialized true (newClient 1))))) as Hc
    by (vm_compute; reflexivity).
  assert (is_Some (directory Scene.deviceLeft !! "alice")) as Hd
    by (eexists; vm_compute; reflexivity).
  assert (is_Some (recentUsers Scene.deviceLeft !! "alice")) as Hr
    by (eexists; vm_compute; reflexivity).
  split; [exact (conj Hc (conj Hd Hr))|].
  exact (updateOnlineStatus_recent None "b" _ "alice" Scene.deviceLeft
           Hc eq_refl Hd Hr).
Defined.

(** X20, on a device of [Demo.twoDevices] that reports one track twice. *)
Lemma addRecentlyPlayed_again_example :
  ∃ w1 w2,
    addRecentlyPlayed 2000 Demo.song "a" Demo.twoDevices = Some w1
    ∧ addRecentlyPlayed 3000 Demo.song "a" w1 = Some w2
    ∧ directory w2 = directory w1.
Proof.
  destruct (addRecentlyPlayed 2000 Demo.song "a" Demo.twoDevices)
    as [w1|] eqn:H1; [|vm_compute in H1; discriminate H1].
  destruct (addRecentlyPlayed_again 2000 3000 Demo.song "a" Demo.twoDevices
              w1 H1) as (w2 & H2 & Hd).
  exists w1, w2. exact (conj eq_refl (conj H2 Hd)).
Defined.

(** X21, on the close of the host of [Demo.listening]. *)
Lemma turn_keeps_inverse_example :
  ((∀ module client json now w,
      inverse w → inverse (Demo.handler module client json now w))
   ∧ newId Demo.listening (Close "h1")
   ∧ inverse Demo.listening)
  ∧ inverse
      (turn Demo.constants Demo.getUserByToken Demo.handler Demo.listening
         (20, Close "h1")).
Proof.
  assert (∀ module client json now w,
            inverse w → inverse (Demo.handler module client json now w))
    as Hh by (intros module client json now w H; exact H).
  assert (inverse Demo.listening) as Hw.
  { split; [apply forwardb_sound|apply backwardb_sound];
      vm_compute; reflexivity. }
  split; [exact (conj Hh (conj I Hw))|].
  exact (turn_keeps_inverse Demo.constants Demo.getUserByToken Demo.handler
           Demo.listening (20, Close "h1") Hh I Hw).
Defined.

(** X22, on a broadcast to the user of [Demo.twoDevices]. *)
Lemma broadcast_reaches_user_example :
  ((∀ module client json now w,
      consistent w → consistent (Demo.handler module client json now w))
   ∧ newIds (turn Demo.constants Demo.getUserByToken Demo.handler)
       Scene.twoLogins (start Demo.db)
   ∧ Send "b" (mkFrame (Constant "hello") (Some 3000))
     ∈ added (run Demo.constants Demo.getUserByToken Demo.handler Scene.twoLogins
          (start Demo.db))
         (broadcast 3000 "alice" (Demo.frame "hello")
            (run Demo.constants Demo.getUserByToken Demo.handler Scene.twoLogins
          (start Demo.db))))
  ∧ ∃ c, objects (run Demo.constants Demo.getUserByToken Demo.handler Scene.twoLogins
          (start Demo.db)) !! "b" = Some c
         ∧ userId c = Some "alice".
Proof.
  assert (∀ module client json now w,
            consistent w → consistent (Demo.handler module client json now w))
    as Hh by (intros module client json now w H; exact H).
  assert (newIds (turn Demo.constants Demo.getUserByToken Demo.handler)
            Scene.twoLogins (start Demo.db)) as Hids
    by (vm_compute; repeat split).
  assert (Send "b" (mkFrame (Constant "hello") (Some 3000))
          ∈ added (run Demo.constants Demo.getUserByToken Demo.handler Scene.twoLogins
          (start Demo.db))
              (broadcast 3000 "alice" (Demo.frame "hello")
                 (run Demo.constants Demo.getUserByToken Demo.handler Scene.twoLogins
          (start Demo.db)))) as Hin.
  { assert (added (run Demo.constants Demo.getUserByToken Demo.handler Scene.twoLogins
          (start Demo.db))
              (broadcast 3000 "alice" (Demo.frame "hello")
                 (run Demo.constants Demo.getUserByToken Demo.handler Scene.twoLogins
          (start Demo.db)))
            = [ Send "a" (mkFrame (Constant "hello") (Some 3000));
                Send "b" (mkFrame (Constant "hello") (Some 3000)) ]) as ->
      by (vm_compute; reflexivity).
    right. left. }
  split; [exact (conj Hh (conj Hids Hin))|].
  exact (broadcast_reaches_user Demo.constants Demo.getUserByToken
           Demo.handler Scene.twoLogins Demo.db 3000 "alice"
           (Demo.frame "hello") "b" _ Hh Hids Hin).
Defined.

(** X23, on the close of the first device of [Demo.twoDevices]. *)
Lemma closed_session_unlisted_example :
  ((∀ module client json now w,
      consistent w → consistent (Demo.handler module client json now w))
   ∧ newIds (turn Demo.constants Demo.getUserByToken Demo.handler)
       Scene.twoLogins (start Demo.db)
   ∧ "alice" ≠ ""
   ∧ users (handleClose 3000 "a" (run Demo.constants Demo.getUserByToken Demo.handler Scene.twoLogins
          (start Demo.db)))
     !! "alice" = Some ["b"])
  ∧ ("a" ∉ ["b"]).
Proof.
  assert (∀ module client json now w,
            consistent w → consistent (Demo.handler module client json now w))
    as Hh by (intros module client json now w H; exact H).
  assert (newIds (turn Demo.constants Demo.getUserByToken Demo.handler)
            Scene.twoLogins (start Demo.db)) as Hids
    by (vm_compute; repeat split).
  assert ("alice" ≠ "") as Hne by discriminate.
  assert (users (handleClose 3000 "a"
                   (run Demo.constants Demo.getUserByToken Demo.handler Scene.twoLogins
          (start Demo.db)))
          !! "alice" = Some ["b"]) as Hus by (vm_compute; reflexivity).
  split; [exact (conj Hh (conj Hids (conj Hne Hus)))|].
  exact (closed_session_unlisted Demo.constants Demo.getUserByToken
           Demo.handler Scene.twoLogins Demo.db 3000 "a" "alice" ["b"]
           Hh Hids Hne Hus).
Defined.

(** X24, on a second connection that has sent nothing. *)
Lemma login_requires_handshake_example :
  ((∀ module client json now w,
      consistent w → consistent (Demo.handler module client json now w))
   ∧ newIds (turn Demo.constants Demo.getUserByToken Demo.handler)
       Scene.oneLogin (start Demo.db)
   ∧ objects (run Demo.constants Demo.getUserByToken Demo.handler Scene.oneLogin
          (start Demo.db)) !! "b"
     = Some (newClient 1)
   ∧ hasInitialized (newClient 1) = false)
  ∧ userId (newClient 1) = None
  ∧ ∀ id sessions,
      users (run Demo.constants Demo.getUserByToken Demo.handler Scene.oneLogin
          (start Demo.db)) !! id = Some sessions →
      "b" ∉ sessions.
Proof.
  assert (∀ module client json now w,
            consistent w → consistent (Demo.handler module client json now w))
    as Hh by (intros module client json now w H; exact H).
  assert (newIds (turn Demo.constants Demo.getUserByToken Demo.handler)
            Scene.oneLogin (start Demo.db)) as Hids
    by (vm_compute; repeat split).
  assert (objects (run Demo.constants Demo.getUserByToken Demo.handler Scene.oneLogin
          (start Demo.db)) !! "b"
          = Some (newClient 1)) as Hc by (vm_compute; reflexivity).
  split; [exact (conj Hh (conj Hids (conj Hc eq_refl)))|].
  exact (login_requires_handshake Demo.constants Demo.getUserByToken
           Demo.handler Scene.oneLogin Demo.db "b" _ Hh Hids Hc eq_refl).
Defined.

(** X25, on an array of four numbers. *)
Lemma shuffle_Permutation_example :
  (∀ k n, (0 < n)%nat → (Scene.draw k n < n)%nat)
  ∧ ∃ result,
      Utils.shuffle Scene.draw [1; 2; 3; 4] = Some result
      ∧ result ≡ₚ [1; 2; 3; 4].
Proof.
  assert (∀ k n, (0 < n)%nat → (Scene.draw k n < n)%nat) as Hlt.
  { intros k n Hn. unfold Scene.draw. apply Nat.mod_upper_bound. lia. }
  split; [exact Hlt|].
  exact (shuffle_Permutation Scene.draw Hlt [1; 2; 3; 4]).
Defined.

(** X26, on a string of eight characters of the default set. *)
Lemma randomString_spec_example :
  ((∀ k n, (0 < n)%nat → (Scene.draw k n < n)%nat)
   ∧ default Utils.alphabet None ≠ EmptyString)
  ∧ String.length (Utils.randomString Scene.draw 8 None) = 8%nat
  ∧ ∀ c, c ∈ String.list_ascii_of_string (Utils.randomString Scene.draw 8 None) →
         c ∈ String.list_ascii_of_string Utils.alphabet.
Proof.
  assert (∀ k n, (0 < n)%nat → (Scene.draw k n < n)%nat) as Hlt.
  { intros k n Hn. unfold Scene.draw. apply Nat.mod_upper_bound. lia. }
  assert (default Utils.alphabet None ≠ EmptyString) as Hne by discriminate.
  split; [exact (conj Hlt Hne)|].
  exact (randomString_spec Scene.draw Hlt 8 None Hne).
Defined.

(** X27, on a playlist link. *)
Lemma extractPlaylistId_youtube_example :
  Utils.includes "playlist?list=" "PLx0sYbCqOb8TBPRdmBHs5Iftvv9TPboYG" = false
  ∧ Utils.extractPlaylistId
      "https://www.youtube.com/playlist?list=PLx0sYbCqOb8TBPRdmBHs5Iftvv9TPboYG"
    = Some "PLx0sYbCqOb8TBPRdmBHs5Iftvv9TPboYG".
Proof.
  split; [reflexivity|].
  exact (extractPlaylistId_youtube "PLx0sYbCqOb8TBPRdmBHs5Iftvv9TPboYG"
           eq_refl).
Defined.

(** X28, on a playlist link. *)
Lemma extractPlaylistId_spotify_example :
  (Utils.includes "https://youtu.be" "37i9dQZF1DXcBWIGoYBM5M" = false
   ∧ Utils.includes "https://youtube.com" "37i9dQZF1DXcBWIGoYBM5M" = false
   ∧ Utils.includes "https://www.youtube.com" "37i9dQZF1DXcBWIGoYBM5M" = false
   ∧ Utils.includes "playlist/" "37i9dQZF1DXcBWIGoYBM5M" = false)
  ∧ Utils.extractPlaylistId
      "https://open.spotify.com/playlist/37i9dQZF1DXcBWIGoYBM5M"
    = Some "37i9dQZF1DXcBWIGoYBM5M".
Proof.
  split; [exact (conj eq_refl (conj eq_refl (conj eq_refl eq_refl)))|].
  exact (extractPlaylistId_spotify "37i9dQZF1DXcBWIGoYBM5M"
           eq_refl eq_refl eq_refl eq_refl).
Defined.

(** X29, on the link of a video. *)
Lemma extractPlaylistId_watch_example :
  (Utils.includes "playlist?list=" "dQw4w9WgXcQ" = false
   ∧ Utils.includes "https://youtu.be/" "dQw4w9WgXcQ" = false)
  ∧ Utils.extractPlaylistId "https://www.youtube.com/watch?v=dQw4w9WgXcQ"
    = None.
Proof.
  split; [exact (conj eq_refl eq_refl)|].
  exact (extractPlaylistId_watch "dQw4w9WgXcQ" eq_refl eq_refl).
Defined.
